(** * LoginFacade: session establishment, teardown and the group-key cache

    A shallow embedding of the worker-side [LoginFacade] class (the second
    document of [src/gui/base/NavBar.js]).  The facade is a mutable object
    talking to collaborators through promises; it is embedded as

    - a record [LoginFacade] for [this], inside a [World] that also holds the
      event-bus clients and a log of every interaction with a collaborator;
    - a state-and-exception monad [M] for synchronous code ([Throw] is a
      JavaScript exception);
    - a three-state [Promise] for the value an asynchronous function hands
      back, with [then_], [catch_] and [finally_] following the promise
      combinators the source chains;
    - two records of collaborators: [Imports] (pure helpers of modules that
      are imported by the source) and [Env] (the server, the event bus, the
      random generator, the browser), whose answers may depend on the whole
      history of the interaction. *)

From Stdlib Require Import ZArith Lia List Sorted Floats.
From Stdlib.Strings Require Import String Ascii Byte.
From stdpp Require Import gmap strings list.

Local Open Scope string_scope.
Local Open Scope Z_scope.

(** ** Values *)

Abbreviation Id := string (only parsing).
Abbreviation Base64 := string (only parsing).
Abbreviation Base64Url := string (only parsing).
Abbreviation Base64Ext := string (only parsing).
(** [Uint8Array] *)
Abbreviation Bytes := (list byte) (only parsing).
(** [Aes128Key] is a bit array, a [number[]]. *)
Abbreviation Aes128Key := (list Z) (only parsing).

(** [groupKeys] is a plain object, created by [{}]: a lookup
    [this.groupKeys[id]] that finds no property of that name in the object
    itself goes on to its prototype chain, where [Object.prototype] has
    [constructor], [toString], [hasOwnProperty] and others.  Such a value
    is no key; the facade tests it for truthiness and hands it on like a
    key. *)
Record Inherited : Type := {
  inherited_name : string;
  inherited_truthy : bool
}.

(** What [this.groupKeys[id]] evaluates to when it is not [undefined]. *)
Inductive KeyValue : Type :=
| Key (k : Aes128Key)
| FromPrototype (v : Inherited).

(** The error classes the facade creates or matches on.  [RestError] stands
    for any other rejection a collaborator may produce. *)
Inductive JsError : Type :=
| Error (message : string)
| TypeError (message : string)
| ConnectionError (message : string)
| NotAuthenticatedError (message : string)
| CryptoError (message : string)
| RestError (name message : string).

(** [e instanceof ConnectionError], [e instanceof NotAuthenticatedError] *)
Definition isConnectionError (e : JsError) : bool :=
  match e with ConnectionError _ => true | _ => false end.
Definition isNotAuthenticatedError (e : JsError) : bool :=
  match e with NotAuthenticatedError _ => true | _ => false end.

(** The completion of a synchronous call: a value, or an exception. *)
Inductive Completion (A : Type) : Type :=
| Normal (a : A)
| Throw (e : JsError).
Arguments Normal {A} a.
Arguments Throw {A} e.

(** The state of a promise when the caller looks at it.  [Pending] is a
    promise that has not settled within the observed run. *)
Inductive Promise (A : Type) : Type :=
| Fulfilled (a : A)
| Rejected (e : JsError)
| Pending.
Arguments Fulfilled {A} a.
Arguments Rejected {A} e.
Arguments Pending {A}.

(** ** Entities (the fields the facade reads) *)

Record GroupMembership : Type := {
  group : Id;
  groupType : string;
  symEncGKey : Bytes;
  groupInfo : Id * Id
}.

Record User : Type := {
  _id : Id;
  salt : option Bytes;
  accountType : string;
  userGroup : GroupMembership;
  memberships : list GroupMembership
}.

Record GroupInfo : Type := {
  groupInfo_id : Id * Id;
  groupInfo_name : string
}.

Record TutanotaProperties : Type := {
  groupEncEntropy : option Bytes
}.

Record CreateSessionData : Type := {
  sd_mailAddress : option string;
  sd_user : option Id;
  sd_authToken : option Base64Url;
  sd_clientIdentifier : string;
  sd_authVerifier : Base64Url;
  sd_accessKey : option Bytes
}.

Record CreateSessionReturn : Type := {
  csr_user : Id;
  csr_accessToken : Base64Url;
  csr_challenges : list string
}.

Record Credentials : Type := {
  mailAddress : string;
  accessToken : Base64Url;
  encryptedPassword : Base64
}.

Inductive HttpMethod : Type := GET | POST | PUT | DELETE.

(** ** [Uint8Array.prototype.slice] *)

(** A relative index as [slice] reads it: counted from the end when
    negative, clamped to [0 .. len]. *)
Definition relativeIndex (len i : Z) : Z :=
  if i <? 0 then Z.max (len + i) 0 else Z.min i len.

Definition slice (a : Bytes) (start : Z) (end_ : option Z) : Bytes :=
  let len := Z.of_nat (length a) in
  let k := relativeIndex len start in
  let final := match end_ with
               | None => len
               | Some e => relativeIndex len e
               end in
  take (Z.to_nat (Z.max (final - k) 0)) (drop (Z.to_nat k) a).

(** ** [String.prototype.indexOf] *)

Fixpoint startsWith (p s : string) : bool :=
  match p with
  | EmptyString => true
  | String c p' =>
      match s with
      | EmptyString => false
      | String d s' => if Ascii.eqb c d then startsWith p' s' else false
      end
  end.

(** The position of the first occurrence of [p] in [s] at or after
    position [i], or [-1]. *)
Fixpoint indexOfFrom (p s : string) (i : Z) : Z :=
  if startsWith p s then i
  else match s with
       | EmptyString => -1
       | String _ s' => indexOfFrom p s' (i + 1)
       end.

Definition indexOf (s p : string) : Z := indexOfFrom p s 0.

(** ** Imported helpers

    The modules [Encoding], [Sha256], [Bcrypt], [CryptoUtils],
    [CryptoFacade], [Aes], [EntityFunctions], [TutanotaConstants] and
    [EntityRestClient] are imported by the source; the facade only calls
    them.  A decoder or a decryption may throw.  What is read from
    [groupKeys] may be [undefined] or a value of the prototype chain: the
    functions that are handed it take an [option KeyValue].

    [prototypeChain] is the engine's part of a property lookup on
    [groupKeys]: what the prototype chain of the object has under a name
    that the object itself does not hold, given the properties the object
    holds (an assignment to [__proto__] changes the chain); [None] is
    [undefined]. *)
Record Imports : Type := {
  GENERATED_ID_BYTES_LENGTH : nat;
  AccountType_EXTERNAL : string;
  sessionTypePath : string;
  sessionModelVersion : string;
  hash : Bytes -> Bytes;
  base64ToBase64Url : Base64 -> Base64Url;
  base64UrlToBase64 : Base64Url -> Completion Base64;
  base64ToUint8Array : Base64 -> Completion Bytes;
  uint8ArrayToBase64 : Bytes -> Base64;
  base64ToBase64Ext : Base64 -> Base64Ext;
  utf8Uint8ArrayToString : Bytes -> Completion string;
  toLowerCase : string -> string;
  trim : string -> string;
  generateKeyFromPassphrase : string -> Bytes -> Completion Aes128Key;
  createAuthVerifierAsBase64Url : Aes128Key -> Base64Url;
  keyToUint8Array : Aes128Key -> Bytes;
  base64ToKey : Base64 -> Completion Aes128Key;
  decryptKey : option KeyValue -> Bytes -> Completion Aes128Key;
  aes128Decrypt : option KeyValue -> Bytes -> Completion Bytes;
  encryptBytes : option KeyValue -> Bytes -> Completion Bytes;
  encryptString : Aes128Key -> string -> Completion Bytes;
  JSON_parse_session : string -> Completion (Id * Base64);
  prototypeChain : gmap string (list Z) -> string -> option Inherited
}.

(** ** The log of interactions

    Every call that leaves the facade is recorded, newest first.  A request
    to the session service and a poll of the second-factor service are
    recorded with the answer they got. *)
Inductive Event : Type :=
| EvSaltService (mailAddress : string)
| EvSessionService (data : CreateSessionData)
                   (answer : Promise CreateSessionReturn)
| EvSecondFactorAuthService (accessToken : Base64Url) (answer : Promise bool)
| EvReceiveInfoService
| EvLoadUser (id : Id)
| EvLoadGroupInfo (id : Id * Id)
| EvLoadRootTutanotaProperties (groupId : Id)
| EvUpdateTutanotaProperties (p : TutanotaProperties)
| EvRestRequest (path : string) (method : HttpMethod)
                (accessTokenHeader : Base64Url) (versionHeader : string)
| EvSendSecondFactorPendingError (sessionId : Id * Id)
                                 (challenges : list string)
| EvEventBusConnect (client : nat) (reconnect : bool)
| EvEventBusClose (client : nat)
| EvAes128RandomKey
| EvGenerateRandomData (nbrOfBytes : nat)
| EvAddStaticEntropy (entropy : Bytes)
| EvDecryptKey (encryptedKey : Bytes).

(** ** Collaborators with effects

    The transport ([serviceRequest], [load], [loadRoot], [update],
    [restClient.request]), the event bus, the random generator and the
    browser's [navigator].  An answer may depend on everything that
    happened before (the log at the time of the call); a request may be
    fulfilled, rejected, or never settle.

    [navigator] is [None] where [typeof navigator] is not ["object"];
    [Some None] is a navigator without a [userAgent]. *)
Record Env : Type := {
  navigator : option (option string);
  serviceRequest_Salt : list Event -> string -> Promise Bytes;
  serviceRequest_Session :
    list Event -> CreateSessionData -> Promise CreateSessionReturn;
  serviceRequest_SecondFactorAuth : list Event -> Base64Url -> Promise bool;
  serviceRequestVoid_receiveInfo : list Event -> Promise unit;
  load_User : list Event -> Id -> Promise User;
  load_GroupInfo : list Event -> Id * Id -> Promise GroupInfo;
  loadRoot_TutanotaProperties : list Event -> Id -> Promise TutanotaProperties;
  update_TutanotaProperties : list Event -> TutanotaProperties -> Promise unit;
  restClient_request :
    list Event -> string -> HttpMethod -> Base64Url -> Promise string;
  eventBusClient_connect : list Event -> nat -> Completion unit;
  aes128RandomKey : list Event -> Aes128Key;
  random_generateRandomData : list Event -> nat -> Bytes
}.

(** ** The facade and its world *)

Record LoginFacade : Type := {
  _user : option User;
  _userGroupInfo : option GroupInfo;
  _accessToken : option Base64Url;
  _authVerifierAfterNextRequest : option Base64Url;
  groupKeys : gmap string (list Z);
  _eventBusClient : option nat;
  _persistentSession : bool
}.

(** [groupKeys] is an object used as a map from group ids to keys: the
    [gmap] holds the properties that were assigned to it.  It is read
    through [property], which goes on to the prototype chain.

    [this] is the singleton [loginFacade]; [state_user] is the module's
    [state.user]; an event-bus client is a number, [connected] holds the
    clients that were connected and not closed since, [clients] counts the
    clients created. *)
Record World : Type := {
  this : LoginFacade;
  state_user : option User;
  connected : gset nat;
  clients : nat;
  log : list Event
}.

Definition set_user v (f : LoginFacade) : LoginFacade :=
  {| _user := v; _userGroupInfo := _userGroupInfo f;
     _accessToken := _accessToken f;
     _authVerifierAfterNextRequest := _authVerifierAfterNextRequest f;
     groupKeys := groupKeys f; _eventBusClient := _eventBusClient f;
     _persistentSession := _persistentSession f |}.
Definition set_userGroupInfo v (f : LoginFacade) : LoginFacade :=
  {| _user := _user f; _userGroupInfo := v;
     _accessToken := _accessToken f;
     _authVerifierAfterNextRequest := _authVerifierAfterNextRequest f;
     groupKeys := groupKeys f; _eventBusClient := _eventBusClient f;
     _persistentSession := _persistentSession f |}.
Definition set_accessToken v (f : LoginFacade) : LoginFacade :=
  {| _user := _user f; _userGroupInfo := _userGroupInfo f;
     _accessToken := v;
     _authVerifierAfterNextRequest := _authVerifierAfterNextRequest f;
     groupKeys := groupKeys f; _eventBusClient := _eventBusClient f;
     _persistentSession := _persistentSession f |}.
Definition set_authVerifierAfterNextRequest v (f : LoginFacade)
  : LoginFacade :=
  {| _user := _user f; _userGroupInfo := _userGroupInfo f;
     _accessToken := _accessToken f;
     _authVerifierAfterNextRequest := v;
     groupKeys := groupKeys f; _eventBusClient := _eventBusClient f;
     _persistentSession := _persistentSession f |}.
Definition set_groupKeys v (f : LoginFacade) : LoginFacade :=
  {| _user := _user f; _userGroupInfo := _userGroupInfo f;
     _accessToken := _accessToken f;
     _authVerifierAfterNextRequest := _authVerifierAfterNextRequest f;
     groupKeys := v; _eventBusClient := _eventBusClient f;
     _persistentSession := _persistentSession f |}.
Definition set_eventBusClient v (f : LoginFacade) : LoginFacade :=
  {| _user := _user f; _userGroupInfo := _userGroupInfo f;
     _accessToken := _accessToken f;
     _authVerifierAfterNextRequest := _authVerifierAfterNextRequest f;
     groupKeys := groupKeys f; _eventBusClient := v;
     _persistentSession := _persistentSession f |}.
Definition set_persistentSession v (f : LoginFacade) : LoginFacade :=
  {| _user := _user f; _userGroupInfo := _userGroupInfo f;
     _accessToken := _accessToken f;
     _authVerifierAfterNextRequest := _authVerifierAfterNextRequest f;
     groupKeys := groupKeys f; _eventBusClient := _eventBusClient f;
     _persistentSession := v |}.

(** ** Synchronous code: state and exceptions *)

Definition M (A : Type) : Type := World -> Completion A * World.

Definition ret {A} (a : A) : M A := fun w => (Normal a, w).
Definition throw {A} (e : JsError) : M A := fun w => (Throw e, w).
Definition bind {A B} (m : M A) (k : A -> M B) : M B :=
  fun w => match m w with
           | (Normal a, w') => k a w'
           | (Throw e, w') => (Throw e, w')
           end.

Notation "x <- m ;; k" := (bind m (fun x => k))
  (at level 20, m at level 99, k at level 200, only parsing).
Notation "m ;; k" := (bind m (fun _ => k))
  (at level 100, k at level 200, right associativity, only parsing).

(** A pure helper that may throw. *)
Definition lift {A} (c : Completion A) : M A := fun w => (c, w).

(** [try { m } catch (e) { h e }] *)
Definition try_catch {A} (m : M A) (h : JsError -> M A) : M A :=
  fun w => match m w with
           | (Normal a, w') => (Normal a, w')
           | (Throw e, w') => h e w'
           end.

Definition get_this {A} (field : LoginFacade -> A) : M A :=
  fun w => (Normal (field (this w)), w).

Definition update_this (f : LoginFacade -> LoginFacade) : M unit :=
  fun w => (Normal tt,
            {| this := f (this w); state_user := state_user w;
               connected := connected w; clients := clients w;
               log := log w |}).

Definition set_state_user (u : User) : M unit :=
  fun w => (Normal tt,
            {| this := this w; state_user := Some u;
               connected := connected w; clients := clients w;
               log := log w |}).

Definition record (ev : Event) (w : World) : World :=
  {| this := this w; state_user := state_user w;
     connected := connected w; clients := clients w;
     log := ev :: log w |}.

(** A call that is only recorded. *)
Definition emit (ev : Event) : M unit := fun w => (Normal tt, record ev w).

(** A call to a collaborator: the answer is the collaborator's, given the
    log before the call; the call is recorded. *)
Definition call {A} (ev : Event) (answer : list Event -> A) : M A :=
  fun w => (Normal (answer (log w)), record ev w).

(** The same, recorded with the answer. *)
Definition call_recorded {A} (ev : A -> Event) (answer : list Event -> A)
  : M A :=
  fun w => (Normal (answer (log w)), record (ev (answer (log w))) w).

(** ** Promises *)

(** [p.then(cb)]: a callback that throws rejects the resulting promise. *)
Definition then_ {A B} (p : Promise A) (cb : A -> M (Promise B))
  : M (Promise B) :=
  match p with
  | Fulfilled a =>
      fun w => match cb a w with
               | (Normal q, w') => (Normal q, w')
               | (Throw e, w') => (Normal (Rejected e), w')
               end
  | Rejected e => ret (Rejected e)
  | Pending => ret Pending
  end.

(** [p.catch(cb)] and, with a class to match, [p.catch(ErrorClass, cb)]. *)
Definition catch_ {A} (matches : JsError -> bool) (p : Promise A)
    (cb : JsError -> M (Promise A)) : M (Promise A) :=
  match p with
  | Rejected e =>
      if matches e then
        fun w => match cb e w with
                 | (Normal q, w') => (Normal q, w')
                 | (Throw e', w') => (Normal (Rejected e'), w')
                 end
      else ret (Rejected e)
  | Fulfilled a => ret (Fulfilled a)
  | Pending => ret Pending
  end.

Definition anyError (_ : JsError) : bool := true.

(** [p.finally(cb)]: [cb] runs once [p] has settled; the result is [p]'s
    unless [cb] throws or hands back a promise that is rejected or does not
    settle. *)
Definition finally_ {A B} (p : Promise A) (cb : M (Promise B))
  : M (Promise A) :=
  match p with
  | Pending => ret Pending
  | _ =>
      fun w => match cb w with
               | (Normal (Fulfilled _), w') => (Normal p, w')
               | (Normal (Rejected e), w') => (Normal (Rejected e), w')
               | (Normal Pending, w') => (Normal Pending, w')
               | (Throw e, w') => (Normal (Rejected e), w')
               end
  end.

(** A [null] or [undefined] used as an object or a string raises a
    [TypeError]; [neverNull] itself checks nothing. *)
Definition deref {A} (what : string) (x : option A) : M A :=
  match x with
  | Some a => ret a
  | None => throw (TypeError what)
  end.

(** What [createSession], [createExternalSession] and [resumeSession]
    resolve to.  [neverNull(this._user)] copies the field as it is. *)
Record SessionReturn : Type := {
  r_user : option User;
  r_userGroupInfo : option GroupInfo;
  r_sessionElementId : Id;
  r_credentials : option Credentials
}.

(** ** The class [LoginFacade] *)

Section LoginFacade.

Context (lib : Imports) (env : Env).

(** *** The event bus client *)

(** [new EventBusClient()]: a client that is not connected. *)
Definition new_EventBusClient : M nat :=
  fun w => (Normal (clients w),
            {| this := this w; state_user := state_user w;
               connected := connected w; clients := S (clients w);
               log := log w |}).

Definition eventBusClient_close (c : nat) : M unit :=
  fun w => (Normal tt,
            {| this := this w; state_user := state_user w;
               connected := connected w ∖ {[c]}; clients := clients w;
               log := EvEventBusClose c :: log w |}).

Definition eventBusClient_connect_ (c : nat) (reconnect : bool) : M unit :=
  fun w => match eventBusClient_connect env (log w) c with
           | Normal _ =>
               (Normal tt,
                {| this := this w; state_user := state_user w;
                   connected := {[c]} ∪ connected w; clients := clients w;
                   log := EvEventBusConnect c reconnect :: log w |})
           | Throw e => (Throw e, record (EvEventBusConnect c reconnect) w)
           end.

(** *** State *)

Definition _reset : M unit :=
  update_this (set_user None);;
  update_this (set_userGroupInfo None);;
  update_this (set_accessToken None);;
  update_this (set_authVerifierAfterNextRequest None);;
  update_this (set_groupKeys ∅);;
  c <- get_this _eventBusClient;;
  match c with
  | Some c => eventBusClient_close c
  | None => ret tt
  end;;
  c' <- new_EventBusClient;;
  update_this (set_eventBusClient (Some c'));;
  update_this (set_persistentSession false).

Definition isLoggedIn : M bool :=
  u <- get_this _user;;
  ret (match u with Some _ => true | None => false end).

Definition isExternalUserLoggedIn : M bool :=
  u <- get_this _user;;
  ret (match u with
       | Some u => String.eqb (accountType u) (AccountType_EXTERNAL lib)
       | None => false
       end).

Definition getLoggedInUser : M User :=
  u <- get_this _user;;
  deref "this._user is null" u.

Definition getUserGroupId : M Id :=
  u <- getLoggedInUser;;
  ret (group (userGroup u)).

(** [this.groupKeys[name]]: the property the object holds under the name,
    or else what its prototype chain has. *)
Definition property (keys : gmap string (list Z)) (name : string)
  : option KeyValue :=
  match keys !! name with
  | Some k => Some (Key k)
  | None => option_map FromPrototype (prototypeChain lib keys name)
  end.

(** [!value] is false: an array is truthy, also an empty one. *)
Definition truthy (value : option KeyValue) : bool :=
  match value with
  | Some (Key _) => true
  | Some (FromPrototype v) => inherited_truthy v
  | None => false
  end.

Definition getUserGroupKey : M (option KeyValue) :=
  g <- getUserGroupId;;
  keys <- get_this groupKeys;;
  ret (property keys g).

(** *** The session's address *)

Definition _getSessionElementId (accessToken : Base64Url) : M Id :=
  b64 <- lift (base64UrlToBase64 lib accessToken);;
  byteAccessToken <- lift (base64ToUint8Array lib b64);;
  ret (base64ToBase64Url lib
         (uint8ArrayToBase64 lib
            (hash lib
               (slice byteAccessToken
                  (Z.of_nat (GENERATED_ID_BYTES_LENGTH lib)) None)))).

Definition _getSessionListId (accessToken : Base64Url) : M Id :=
  b64 <- lift (base64UrlToBase64 lib accessToken);;
  byteAccessToken <- lift (base64ToUint8Array lib b64);;
  ret (base64ToBase64Ext lib
         (uint8ArrayToBase64 lib
            (slice byteAccessToken 0
               (Some (Z.of_nat (GENERATED_ID_BYTES_LENGTH lib)))))).

(** [typeRefToPath(SessionTypeRef) + '/' + listId + "/" + elementId] *)
Definition sessionPath (accessToken : Base64Url) : M string :=
  listId <- _getSessionListId accessToken;;
  elementId <- _getSessionElementId accessToken;;
  ret (sessionTypePath lib ++ "/" ++ listId ++ "/" ++ elementId).

(** [restClient.request(path, method, {}, headers, null, MediaType.Json)]
    with the headers [accessToken] and [v]. *)
Definition restClient_request_ (path : string) (method : HttpMethod)
    (accessToken : Base64Url) : M (Promise string) :=
  call (EvRestRequest path method accessToken (sessionModelVersion lib))
       (fun h => restClient_request env h path method accessToken).

(** The promise is a [Promise<void>]: the body of the answer is dropped. *)
Definition deleteSession (accessToken : Base64Url) : M (Promise unit) :=
  path <- sessionPath accessToken;;
  p <- restClient_request_ path DELETE accessToken;;
  p <- then_ p (fun _ => ret (Fulfilled tt));;
  catch_ isNotAuthenticatedError p (fun _ => ret (Fulfilled tt)).

Definition _loadSessionData (accessToken : Base64Url)
  : M (Promise (Id * list Z)) :=
  path <- sessionPath accessToken;;
  p <- restClient_request_ path GET accessToken;;
  then_ p (fun instance =>
    session <- lift (JSON_parse_session lib instance);;
    accessKey <- lift (base64ToKey lib (snd session));;
    ret (Fulfilled (fst session, accessKey))).

(** *** Keys *)

Definition _loadUserPassphraseKey (mailAddress passphrase : string)
  : M (Promise (list Z)) :=
  let mailAddress := trim lib (toLowerCase lib mailAddress) in
  p <- call (EvSaltService mailAddress)
            (fun h => serviceRequest_Salt env h mailAddress);;
  then_ p (fun saltReturn =>
    k <- lift (generateKeyFromPassphrase lib passphrase saltReturn);;
    ret (Fulfilled k)).

(** [decryptKey], recorded so that unwrapping can be counted. *)
Definition decryptKey_ (key : option KeyValue) (encryptedKey : Bytes)
  : M (list Z) :=
  emit (EvDecryptKey encryptedKey);;
  lift (decryptKey lib key encryptedKey).

Definition _getMembership (groupId : Id) : M GroupMembership :=
  u <- getLoggedInUser;;
  match List.find (fun g => String.eqb (group g) groupId) (memberships u) with
  | Some membership => ret membership
  | None => throw (Error ("No group with groupId " ++ groupId ++ " found!"))
  end.

(** The test is [!this.groupKeys[groupId]]: whatever the lookup finds,
    in the object or on its prototype chain, is returned as it is when it
    is truthy. *)
Definition getGroupKey (groupId : Id) : M (option KeyValue) :=
  keys <- get_this groupKeys;;
  (if truthy (property keys groupId) then ret tt
   else
     userGroupId <- getUserGroupId;;
     keys <- get_this groupKeys;;
     membership <- _getMembership groupId;;
     k <- decryptKey_ (property keys userGroupId) (symEncGKey membership);;
     update_this (fun f => set_groupKeys (<[groupId := k]> (groupKeys f)) f));;
  keys <- get_this groupKeys;;
  ret (property keys groupId).

(** *** Entropy *)

Definition loadEntropy : M (Promise unit) :=
  g <- getUserGroupId;;
  p <- call (EvLoadRootTutanotaProperties g)
            (fun h => loadRoot_TutanotaProperties env h g);;
  then_ p (fun tutanotaProperties =>
    match groupEncEntropy tutanotaProperties with
    | Some enc =>
        try_catch
          (k <- getUserGroupKey;;
           entropy <- lift (aes128Decrypt lib k enc);;
           emit (EvAddStaticEntropy entropy))
          (fun _ => ret tt)
    | None => ret tt
    end;;
    ret (Fulfilled tt)).

Definition storeEntropy : M (Promise unit) :=
  g <- getUserGroupId;;
  p <- call (EvLoadRootTutanotaProperties g)
            (fun h => loadRoot_TutanotaProperties env h g);;
  then_ p (fun _ =>
    k <- getUserGroupKey;;
    data <- call (EvGenerateRandomData 32)
                 (fun h => random_generateRandomData env h 32%nat);;
    enc <- lift (encryptBytes lib k data);;
    let tutanotaProperties := {| groupEncEntropy := Some enc |} in
    call (EvUpdateTutanotaProperties tutanotaProperties)
         (fun h => update_TutanotaProperties env h tutanotaProperties)).

Definition _getInfoMails : M (Promise unit) :=
  external <- isExternalUserLoggedIn;;
  if negb external
  then call EvReceiveInfoService (serviceRequestVoid_receiveInfo env)
  else ret (Fulfilled tt).

(** *** Session establishment *)

Definition _initSession (userId : Id) (accessToken : Base64Url)
    (userPassphraseKey : list Z) : M (Promise unit) :=
  u <- get_this _user;;
  match u with
  | Some u =>
      if negb (String.eqb userId (_id u))
      then throw (Error
        "different user is tried to login in existing other user's session")
      else ret tt
  | None => ret tt
  end;;
  update_this (set_accessToken (Some accessToken));;
  p <- call (EvLoadUser userId) (fun h => load_User env h userId);;
  p <- then_ p (fun user =>
         set_state_user user;;
         update_this (set_user (Some user));;
         userGroupId <- getUserGroupId;;
         k <- decryptKey_ (Some (Key userPassphraseKey))
                          (symEncGKey (userGroup user));;
         update_this
           (fun f => set_groupKeys (<[userGroupId := k]> (groupKeys f)) f);;
         call (EvLoadGroupInfo (groupInfo (userGroup user)))
              (fun h => load_GroupInfo env h (groupInfo (userGroup user))));;
  p <- then_ p (fun groupInfo =>
         update_this (set_userGroupInfo (Some groupInfo));;
         ret (Fulfilled tt));;
  p <- then_ p (fun _ => loadEntropy);;
  p <- then_ p (fun _ => _getInfoMails);;
  p <- then_ p (fun _ =>
         c <- get_this _eventBusClient;;
         c <- deref "this._eventBusClient is undefined" c;;
         eventBusClient_connect_ c false;;
         ret (Fulfilled tt));;
  catch_ anyError p (fun e => _reset;; throw e).

Fixpoint _waitUntilSecondFactorApproved (fuel : nat)
    (accessToken : Base64Url) : M (Promise unit) :=
  p <- call_recorded (EvSecondFactorAuthService accessToken)
         (fun h => serviceRequest_SecondFactorAuth env h accessToken);;
  then_ p (fun secondFactorPending =>
    if secondFactorPending : bool
    then match fuel with
         | O => ret Pending
         | S fuel' => _waitUntilSecondFactorApproved fuel' accessToken
         end
    else ret (Fulfilled tt)).

(** [typeof navigator == "object" && navigator.userAgent &&
     navigator.userAgent.indexOf("Trident/7.0") != -1] *)
Definition isTrident7 : bool :=
  match navigator env with
  | Some (Some userAgent) =>
      negb (String.eqb userAgent EmptyString)
      && negb (indexOf userAgent "Trident/7.0" =? -1)
  | _ => false
  end.

(** The object the three entry points resolve to. *)
Definition sessionReturn (accessKey : option (list Z))
    (mailAddress passphrase : string) : M (Promise SessionReturn) :=
  user <- get_this _user;;
  userGroupInfo <- get_this _userGroupInfo;;
  token <- get_this _accessToken;;
  token <- deref "accessToken is null" token;;
  sessionElementId <- _getSessionElementId token;;
  credentials <-
    match accessKey with
    | Some accessKey =>
        enc <- lift (encryptString lib accessKey passphrase);;
        ret (Some {| mailAddress := mailAddress; accessToken := token;
                     encryptedPassword := uint8ArrayToBase64 lib enc |})
    | None => ret None
    end;;
  ret (Fulfilled {| r_user := user; r_userGroupInfo := userGroupInfo;
                    r_sessionElementId := sessionElementId;
                    r_credentials := credentials |}).

(** The callback [createSessionReturn => { ... }] of [createSession]. *)
Definition createSession_then (fuel : nat) (mailAddress passphrase : string)
    (userPassphraseKey : list Z) (accessKey : option (list Z))
    (createSessionReturn : CreateSessionReturn) : M (Promise SessionReturn) :=
  let token := csr_accessToken createSessionReturn in
  p <- (if (0 <? length (csr_challenges createSessionReturn))%nat
        then
          listId <- _getSessionListId token;;
          elementId <- _getSessionElementId token;;
          emit (EvSendSecondFactorPendingError (listId, elementId)
                  (csr_challenges createSessionReturn));;
          _waitUntilSecondFactorApproved fuel token
        else ret (Fulfilled tt));;
  then_ p (fun _ =>
    p <- _initSession (csr_user createSessionReturn) token
                      userPassphraseKey;;
    then_ p (fun _ =>
      sessionReturn accessKey mailAddress passphrase)).

Definition createSession (fuel : nat)
    (mailAddress passphrase clientIdentifier : string)
    (returnCredentials : bool) : M (Promise SessionReturn) :=
  update_this (set_persistentSession returnCredentials);;
  p <- _loadUserPassphraseKey mailAddress passphrase;;
  then_ p (fun userPassphraseKey =>
    let authVerifier := createAuthVerifierAsBase64Url lib userPassphraseKey in
    accessKey <-
      (if returnCredentials
       then k <- call EvAes128RandomKey (aes128RandomKey env);; ret (Some k)
       else ret None);;
    let sessionData :=
      {| sd_mailAddress := Some (trim lib (toLowerCase lib mailAddress));
         sd_user := None; sd_authToken := None;
         sd_clientIdentifier := clientIdentifier;
         sd_authVerifier := authVerifier;
         sd_accessKey := option_map (keyToUint8Array lib) accessKey |} in
    p <- call_recorded (EvSessionService sessionData)
           (fun h => serviceRequest_Session env h sessionData);;
    p <- catch_ isConnectionError p (fun e =>
           if isTrident7
           then throw (NotAuthenticatedError
             "not connected error at login in IE -> NotAuthenticatedError")
           else throw e);;
    then_ p (createSession_then fuel mailAddress passphrase
               userPassphraseKey accessKey)).

Definition createExternalSession (userId : Id) (passphrase : string)
    (salt : Bytes) (clientIdentifier : string) (returnCredentials : bool)
  : M (Promise SessionReturn) :=
  u <- get_this _user;;
  match u with
  | Some _ => throw (Error "user already logged in")
  | None => ret tt
  end;;
  userPassphraseKey <- lift (generateKeyFromPassphrase lib passphrase salt);;
  let authVerifier := createAuthVerifierAsBase64Url lib userPassphraseKey in
  let authToken := base64ToBase64Url lib
                     (uint8ArrayToBase64 lib (hash lib salt)) in
  accessKey <-
    (if returnCredentials
     then k <- call EvAes128RandomKey (aes128RandomKey env);; ret (Some k)
     else ret None);;
  let sessionData :=
    {| sd_mailAddress := None; sd_user := Some userId;
       sd_authToken := Some authToken;
       sd_clientIdentifier := clientIdentifier;
       sd_authVerifier := authVerifier;
       sd_accessKey := option_map (keyToUint8Array lib) accessKey |} in
  p <- call_recorded (EvSessionService sessionData)
         (fun h => serviceRequest_Session env h sessionData);;
  then_ p (fun createSessionReturn =>
    p <- _initSession (csr_user createSessionReturn)
                      (csr_accessToken createSessionReturn)
                      userPassphraseKey;;
    then_ p (fun _ => sessionReturn accessKey userId passphrase)).

Definition resumeSession (credentials : Credentials)
    (externalUserSalt : option Bytes) : M (Promise SessionReturn) :=
  p <- _loadSessionData (accessToken credentials);;
  then_ p (fun sessionData =>
    enc <- lift (base64ToUint8Array lib (encryptedPassword credentials));;
    dec <- lift (aes128Decrypt lib (Some (Key (snd sessionData))) enc);;
    passphrase <- lift (utf8Uint8ArrayToString lib dec);;
    p <- match externalUserSalt with
         | Some externalUserSalt =>
             k <- lift (generateKeyFromPassphrase lib passphrase
                          externalUserSalt);;
             ret (Fulfilled k)
         | None => _loadUserPassphraseKey (mailAddress credentials) passphrase
         end;;
    then_ p (fun userPassphraseKey =>
      p <- _initSession (fst sessionData) (accessToken credentials)
                        userPassphraseKey;;
      then_ p (fun _ =>
        update_this (set_persistentSession true);;
        sessionReturn None (mailAddress credentials) passphrase))).

(** *** Teardown *)

Definition logout : M (Promise unit) :=
  u <- get_this _user;;
  match u with
  | None => ret (Fulfilled tt)
  | Some _ =>
      c <- get_this _eventBusClient;;
      c <- deref "this._eventBusClient is undefined" c;;
      eventBusClient_close c;;
      p <- storeEntropy;;
      p <- catch_ anyError p (fun _ => ret (Fulfilled tt));;
      finally_ p
        (persistent <- get_this _persistentSession;;
         promise <-
           (if negb persistent
            then token <- get_this _accessToken;;
                 token <- deref "accessToken is null" token;;
                 deleteSession token
            else ret (Fulfilled tt));;
         finally_ promise (_reset;; ret (Fulfilled tt)))
  end.

End LoginFacade.

Arguments property : simpl never.

(** ** The facade at module load *)

(** The fields before the constructor has run. *)
Definition uninitialised : LoginFacade :=
  {| _user := None; _userGroupInfo := None; _accessToken := None;
     _authVerifierAfterNextRequest := None; groupKeys := ∅;
     _eventBusClient := None; _persistentSession := false |}.

Definition emptyWorld : World :=
  {| this := uninitialised; state_user := None; connected := ∅;
     clients := 0%nat; log := [] |}.

(** [new LoginFacade()]: the constructor calls [_reset]. *)
Definition newWorld : World := snd (_reset emptyWorld).

(** What [_reset] leaves in the fields, with [c] the new event bus client. *)
Definition cleared (c : nat) : LoginFacade :=
  {| _user := None; _userGroupInfo := None; _accessToken := None;
     _authVerifierAfterNextRequest := None; groupKeys := ∅;
     _eventBusClient := Some c; _persistentSession := false |}.

(** ** The session address as the specification words it *)

Section SessionTokenCodec.

Context (lib : Imports).

(** [rawBytes(token)] *)
Definition rawBytes (token : Base64Url) : Completion Bytes :=
  match base64UrlToBase64 lib token with
  | Normal b64 => base64ToUint8Array lib b64
  | Throw e => Throw e
  end.

Definition urlSafeBase64 (b : Bytes) : Base64Url :=
  base64ToBase64Url lib (uint8ArrayToBase64 lib b).

Definition extendedBase64 (b : Bytes) : Base64Ext :=
  base64ToBase64Ext lib (uint8ArrayToBase64 lib b).

(** [elementId = urlSafeBase64(hash(rawBytes(token)[prefixLen:]))] *)
Definition spec_elementId (token : Base64Url) : Completion Id :=
  match rawBytes token with
  | Normal raw =>
      Normal (urlSafeBase64
                (hash lib (drop (GENERATED_ID_BYTES_LENGTH lib) raw)))
  | Throw e => Throw e
  end.

(** [listId = extendedBase64(rawBytes(token)[:prefixLen])] *)
Definition spec_listId (token : Base64Url) : Completion Id :=
  match rawBytes token with
  | Normal raw =>
      Normal (extendedBase64 (take (GENERATED_ID_BYTES_LENGTH lib) raw))
  | Throw e => Throw e
  end.

End SessionTokenCodec.

(** ** A sample of the imported helpers

    Used to run the facade on concrete inputs. *)
Module Sample.

(** Modelled from the spec: the module [Encoding] is not among the sources.
    The base64 alphabet, its url-safe variant ([-] and [_] for [+] and [/],
    no padding) and the extended alphabet of generated ids. *)
Definition base64Alphabet : string :=
  "ABCDEFGHIJKLMNOPQRSTUVWXYZabcdefghijklmnopqrstuvwxyz0123456789+/".
Definition base64extAlphabet : string :=
  "-0123456789ABCDEFGHIJKLMNOPQRSTUVWXYZ_abcdefghijklmnopqrstuvwxyz".

Fixpoint indexIn (alphabet : string) (c : ascii) : option N :=
  match alphabet with
  | EmptyString => None
  | String d rest =>
      if Ascii.eqb c d then Some 0%N
      else option_map N.succ (indexIn rest c)
  end.

Definition charAt (alphabet : string) (i : N) : ascii :=
  match String.get (N.to_nat i) alphabet with
  | Some c => c
  | None => "="%char
  end.

Definition byteOfN (n : N) : byte :=
  match Byte.of_N (n mod 256) with
  | Some b => b
  | None => x00
  end.

Fixpoint sextets (s : string) : option (list N) :=
  match s with
  | EmptyString => Some []
  | String c rest =>
      match indexIn base64Alphabet c, sextets rest with
      | Some i, Some l => Some (i :: l)
      | _, _ => None
      end
  end.

Fixpoint bytesOfSextets (l : list N) : list byte :=
  match l with
  | a :: b :: c :: d :: rest =>
      byteOfN (a * 4 + b / 16) :: byteOfN (b * 16 + c / 4)
        :: byteOfN (c * 64 + d) :: bytesOfSextets rest
  | [a; b; c] => [byteOfN (a * 4 + b / 16); byteOfN (b * 16 + c / 4)]
  | [a; b] => [byteOfN (a * 4 + b / 16)]
  | _ => []
  end.

Fixpoint stripPadding (s : string) : string :=
  match s with
  | EmptyString => EmptyString
  | String c rest =>
      if Ascii.eqb c "="%char then stripPadding rest
      else String c (stripPadding rest)
  end.

(** Modelled from the spec: [base64ToUint8Array] of [Encoding]; it throws
    on a string that is not base64. *)
Definition decodeBase64 (b64 : string) : Completion (list byte) :=
  if negb (String.length b64 mod 4 =? 0)%nat
  then Throw (Error "invalid base64 length")
  else match sextets (stripPadding b64) with
       | Some l => Normal (bytesOfSextets l)
       | None => Throw (Error "invalid base64 character")
       end.

Fixpoint charsOfBytes (l : list byte) : string :=
  match l with
  | x :: y :: z :: rest =>
      let a := Byte.to_N x in
      let b := Byte.to_N y in
      let c := Byte.to_N z in
      String (charAt base64Alphabet (a / 4))
        (String (charAt base64Alphabet ((a mod 4) * 16 + b / 16))
           (String (charAt base64Alphabet ((b mod 16) * 4 + c / 64))
              (String (charAt base64Alphabet (c mod 64))
                 (charsOfBytes rest))))
  | [x; y] =>
      let a := Byte.to_N x in
      let b := Byte.to_N y in
      String (charAt base64Alphabet (a / 4))
        (String (charAt base64Alphabet ((a mod 4) * 16 + b / 16))
           (String (charAt base64Alphabet ((b mod 16) * 4)) "="))
  | [x] =>
      let a := Byte.to_N x in
      String (charAt base64Alphabet (a / 4))
        (String (charAt base64Alphabet ((a mod 4) * 16)) "==")
  | [] => EmptyString
  end.

Definition encodeBase64 (l : list byte) : string := charsOfBytes l.

Fixpoint mapChars (f : ascii -> ascii) (s : string) : string :=
  match s with
  | EmptyString => EmptyString
  | String c rest => String (f c) (mapChars f rest)
  end.

Definition toBase64Url (b64 : string) : string :=
  mapChars (fun c => if Ascii.eqb c "+" then "-"%char
                     else if Ascii.eqb c "/" then "_"%char else c)
           (stripPadding b64).

(** Modelled from the spec: [base64UrlToBase64] of [Encoding]; a length of
    [4 n + 1] characters is no base64url. *)
Definition fromBase64Url (b64url : string) : Completion string :=
  let b64 := mapChars (fun c => if Ascii.eqb c "-" then "+"%char
                                else if Ascii.eqb c "_" then "/"%char else c)
                      b64url in
  match (String.length b64 mod 4)%nat with
  | 0%nat => Normal b64
  | 2%nat => Normal (b64 ++ "==")
  | 3%nat => Normal (b64 ++ "=")
  | _ => Throw (Error "Illegal base64 string.")
  end.

Definition toBase64Ext (b64 : string) : string :=
  mapChars (fun c => match indexIn base64Alphabet c with
                     | Some i => charAt base64extAlphabet i
                     | None => c
                     end)
           (stripPadding b64).

(** A stand-in for SHA-256: one byte, the sum of the input. *)
Definition checksum (l : list byte) : list byte :=
  [byteOfN (fold_right (fun b acc => (Byte.to_N b + acc)%N) 0%N l)].

(** A stand-in for the symmetric cipher: a key is wrapped by writing it
    after the wrapping key's first number; unwrapping checks that number. *)
Definition unwrap (key : option KeyValue) (enc : list byte)
  : Completion (list Z) :=
  match key, enc with
  | Some (Key (k :: _)), b :: rest =>
      if (Z.of_N (Byte.to_N b) =? k)%Z
      then Normal (map (fun x => Z.of_N (Byte.to_N x)) rest)
      else Throw (CryptoError "invalid mac")
  | _, _ => Throw (CryptoError "invalid key")
  end.

(** The properties of [Object.prototype], which are functions, and
    [__proto__], which reads as the prototype. *)
Definition Object_prototype : list string :=
  [ "constructor"; "hasOwnProperty"; "isPrototypeOf"; "propertyIsEnumerable";
    "toLocaleString"; "toString"; "valueOf"; "__proto__";
    "__defineGetter__"; "__defineSetter__"; "__lookupGetter__";
    "__lookupSetter__" ].

Definition lib : Imports :=
  {| GENERATED_ID_BYTES_LENGTH := 9;
     AccountType_EXTERNAL := "5";
     sessionTypePath := "/rest/sys/session";
     sessionModelVersion := "22";
     hash := checksum;
     base64ToBase64Url := toBase64Url;
     base64UrlToBase64 := fromBase64Url;
     base64ToUint8Array := decodeBase64;
     uint8ArrayToBase64 := encodeBase64;
     base64ToBase64Ext := toBase64Ext;
     utf8Uint8ArrayToString := fun b => Normal (string_of_list_byte b);
     toLowerCase := fun s => s;
     trim := fun s => s;
     generateKeyFromPassphrase := fun p s =>
       Normal (Z.of_nat (String.length p)
                 :: map (fun x => Z.of_N (Byte.to_N x)) s);
     createAuthVerifierAsBase64Url := fun k =>
       toBase64Url (encodeBase64
         (checksum (map (fun z => byteOfN (Z.to_N z)) k)));
     keyToUint8Array := map (fun z => byteOfN (Z.to_N z));
     base64ToKey := fun s =>
       match decodeBase64 s with
       | Normal b => Normal (map (fun x => Z.of_N (Byte.to_N x)) b)
       | Throw e => Throw e
       end;
     decryptKey := unwrap;
     aes128Decrypt := fun k enc =>
       match unwrap k enc with
       | Normal l => Normal (map (fun z => byteOfN (Z.to_N z)) l)
       | Throw e => Throw e
       end;
     encryptBytes := fun k b =>
       match k with
       | Some (Key (z :: _)) => Normal (byteOfN (Z.to_N z) :: b)
       | _ => Throw (CryptoError "invalid key")
       end;
     encryptString := fun k s =>
       match k with
       | z :: _ => Normal (byteOfN (Z.to_N z) :: list_byte_of_string s)
       | _ => Throw (CryptoError "invalid key")
       end;
     JSON_parse_session := fun s => Normal ("user1", s);
     prototypeChain := fun _ name =>
       if existsb (String.eqb name) Object_prototype
       then Some {| inherited_name := name; inherited_truthy := true |}
       else None |}.

(** A user with one further group, keys wrapped for the passphrase ["p"]
    and the salt [0x05 0x06]. *)
Definition mailMembership : GroupMembership :=
  {| group := "mailGroup"; groupType := "5"; symEncGKey := [x07; x09];
     groupInfo := ("infos", "mailInfo") |}.

Definition alice : User :=
  {| _id := "user1"; salt := Some [x05; x06]; accountType := "1";
     userGroup := {| group := "userGroup"; groupType := "0";
                     symEncGKey := [x01; x07; x07];
                     groupInfo := ("infos", "aliceInfo") |};
     memberships := [mailMembership] |}.


(** Twelve raw bytes, [0x00 .. 0x0b]. *)
Definition token : string := "AAECAwQFBgcICQoL".

(** The number of polls of the second-factor service in a log. *)
Fixpoint polls (h : list Event) : nat :=
  match h with
  | [] => 0
  | EvSecondFactorAuthService _ _ :: h' => S (polls h')
  | _ :: h' => polls h'
  end.

(** A server for the given browser.  [fails] picks the calls that are
    rejected; the user record served may change with the history; a
    second factor is approved after [pendingPolls] polls. *)
Definition server (userAgent : option (option string))
    (fails : Event -> option JsError) (user : list Event -> User)
    (sessionUser : Id) (sessionToken : string)
    (challenges : list string) (pendingPolls : nat) : Env :=
  let answer := fun (A : Type) (ev : Event) (a : A) =>
    match fails ev with
    | Some e => Rejected e
    | None => Fulfilled a
    end in
  {| navigator := userAgent;
     serviceRequest_Salt := fun _ m => answer _ (EvSaltService m) [x05; x06];
     serviceRequest_Session := fun _ d =>
       answer _ (EvSessionService d Pending)
         {| csr_user := sessionUser; csr_accessToken := sessionToken;
            csr_challenges := challenges |};
     serviceRequest_SecondFactorAuth := fun h t =>
       answer _ (EvSecondFactorAuthService t Pending)
         (polls h <? pendingPolls)%nat;
     serviceRequestVoid_receiveInfo := fun _ => answer _ EvReceiveInfoService tt;
     load_User := fun h id => answer _ (EvLoadUser id) (user h);
     load_GroupInfo := fun _ id =>
       answer _ (EvLoadGroupInfo id)
         {| groupInfo_id := id; groupInfo_name := "Alice" |};
     loadRoot_TutanotaProperties := fun _ g =>
       answer _ (EvLoadRootTutanotaProperties g)
         {| groupEncEntropy := Some [x07; x2a] |};
     update_TutanotaProperties := fun _ p =>
       answer _ (EvUpdateTutanotaProperties p) tt;
     restClient_request := fun _ path method t =>
       answer _ (EvRestRequest path method t "22") "AQID";
     eventBusClient_connect := fun _ c =>
       match fails (EvEventBusConnect c false) with
       | Some e => Throw e
       | None => Normal tt
       end;
     aes128RandomKey := fun _ => [3%Z; 1%Z; 4%Z];
     random_generateRandomData := fun _ n => repeat x2a n |}.

Definition noFailure (_ : Event) : option JsError := None.


(** A server where every call succeeds and no second factor is asked. *)
Definition friendly : Env :=
  server None noFailure (fun _ => alice) "user1" token [] 0.

End Sample.

(** ** Vocabulary of the statements *)

(** [p] occurs in [s]. *)
Definition contains (s p : string) : Prop :=
  exists pre post, s = pre ++ p ++ post.

(** Nothing of a session is set. *)
Definition noSession (f : LoginFacade) : Prop :=
  _user f = None /\ _userGroupInfo f = None /\ _accessToken f = None
  /\ _authVerifierAfterNextRequest f = None /\ groupKeys f = ∅
  /\ _persistentSession f = false.

(** A computation [respects] a relation between the world before and the
    world after when every run of it does. *)
Definition respects {A} (R : relation World) (m : M A) : Prop :=
  forall w, R w (snd (m w)).

(** The log grew by events that satisfy [P]; nothing of it was dropped. *)
Definition logsOnly (P : Event -> Prop) : relation World :=
  fun w w' => exists l, log w' = (l ++ log w)%list /\ Forall P l.

(** Only the log changed. *)
Definition onlyLog : relation World :=
  fun w w' => this w' = this w /\ state_user w' = state_user w
              /\ connected w' = connected w /\ clients w' = clients w.

(** The facade holds the same event bus client and no client was
    created. *)
Definition keepsClient : relation World :=
  fun w w' => _eventBusClient (this w') = _eventBusClient (this w)
              /\ clients w' = clients w.

Definition notSessionService (ev : Event) : Prop :=
  match ev with EvSessionService _ _ => False | _ => True end.

(** No request to the session service, no notification of a pending second
    factor and no poll: what [_initSession] and the construction of the
    result may log. *)
Definition afterApproval (ev : Event) : Prop :=
  match ev with
  | EvSessionService _ _ | EvSecondFactorAuthService _ _
  | EvSendSecondFactorPendingError _ _ => False
  | _ => True
  end.

(** Every request entropy persistence and session deletion make is
    answered. *)
Definition answersLogout (env : Env) : Prop :=
  (forall h g, loadRoot_TutanotaProperties env h g <> Pending)
  /\ (forall h p, update_TutanotaProperties env h p <> Pending)
  /\ (forall h path method t,
        restClient_request env h path method t <> Pending).

(** Both relations hold. *)
Definition both (R1 R2 : relation World) : relation World :=
  fun w w' => R1 w w' /\ R2 w w'.

(** A request to the REST client. *)
Definition isRestRequest (ev : Event) : bool :=
  match ev with EvRestRequest _ _ _ _ => true | _ => false end.

(** *** The steps of [_initSession]

    [_initSession] for [userId] with the key [key], started in [w] with
    the guard passed.  The log at each of its requests, given what the
    earlier ones were answered: [u] is the user loaded, [k] the key of the
    user group, [props] the properties of the user group. *)
Section InitSteps.

Context (lib : Imports) (env : Env) (userId : Id) (key : list Z) (w : World).

Definition logUnwrapped (u : User) : list Event :=
  EvDecryptKey (symEncGKey (userGroup u)) :: EvLoadUser userId :: log w.

Definition logGroupInfo (u : User) : list Event :=
  EvLoadGroupInfo (groupInfo (userGroup u)) :: logUnwrapped u.

Definition logEntropy (u : User) (k : list Z) (props : TutanotaProperties)
  : list Event :=
  match groupEncEntropy props with
  | Some enc =>
      match aes128Decrypt lib (Some (Key k)) enc with
      | Normal entropy => [EvAddStaticEntropy entropy]
      | Throw _ => []
      end
  | None => []
  end
  ++ EvLoadRootTutanotaProperties (group (userGroup u)) :: logGroupInfo u.

Definition logInfoMails (u : User) (k : list Z) (props : TutanotaProperties)
  : list Event :=
  (if String.eqb (accountType u) (AccountType_EXTERNAL lib)
   then []
   else [EvReceiveInfoService])
  ++ logEntropy u k props.

(** The step that fails, and the error it fails with: every step up to it
    has succeeded.  A failure to decrypt the stored entropy is none. *)
Inductive initFailure : JsError -> Prop :=
| fails_load_User e :
    load_User env (log w) userId = Rejected e ->
    initFailure e
| fails_decryptKey u e :
    load_User env (log w) userId = Fulfilled u ->
    decryptKey lib (Some (Key key)) (symEncGKey (userGroup u)) = Throw e ->
    initFailure e
| fails_load_GroupInfo u k e :
    load_User env (log w) userId = Fulfilled u ->
    decryptKey lib (Some (Key key)) (symEncGKey (userGroup u)) = Normal k ->
    load_GroupInfo env (logUnwrapped u) (groupInfo (userGroup u))
    = Rejected e ->
    initFailure e
| fails_loadRoot u k info e :
    load_User env (log w) userId = Fulfilled u ->
    decryptKey lib (Some (Key key)) (symEncGKey (userGroup u)) = Normal k ->
    load_GroupInfo env (logUnwrapped u) (groupInfo (userGroup u))
    = Fulfilled info ->
    loadRoot_TutanotaProperties env (logGroupInfo u) (group (userGroup u))
    = Rejected e ->
    initFailure e
| fails_receiveInfo u k info props e :
    load_User env (log w) userId = Fulfilled u ->
    decryptKey lib (Some (Key key)) (symEncGKey (userGroup u)) = Normal k ->
    load_GroupInfo env (logUnwrapped u) (groupInfo (userGroup u))
    = Fulfilled info ->
    loadRoot_TutanotaProperties env (logGroupInfo u) (group (userGroup u))
    = Fulfilled props ->
    String.eqb (accountType u) (AccountType_EXTERNAL lib) = false ->
    serviceRequestVoid_receiveInfo env (logEntropy u k props) = Rejected e ->
    initFailure e
| fails_no_client u k info props :
    load_User env (log w) userId = Fulfilled u ->
    decryptKey lib (Some (Key key)) (symEncGKey (userGroup u)) = Normal k ->
    load_GroupInfo env (logUnwrapped u) (groupInfo (userGroup u))
    = Fulfilled info ->
    loadRoot_TutanotaProperties env (logGroupInfo u) (group (userGroup u))
    = Fulfilled props ->
    (String.eqb (accountType u) (AccountType_EXTERNAL lib) = true
     \/ serviceRequestVoid_receiveInfo env (logEntropy u k props)
        = Fulfilled tt) ->
    _eventBusClient (this w) = None ->
    initFailure (TypeError "this._eventBusClient is undefined")
| fails_connect u k info props c e :
    load_User env (log w) userId = Fulfilled u ->
    decryptKey lib (Some (Key key)) (symEncGKey (userGroup u)) = Normal k ->
    load_GroupInfo env (logUnwrapped u) (groupInfo (userGroup u))
    = Fulfilled info ->
    loadRoot_TutanotaProperties env (logGroupInfo u) (group (userGroup u))
    = Fulfilled props ->
    (String.eqb (accountType u) (AccountType_EXTERNAL lib) = true
     \/ serviceRequestVoid_receiveInfo env (logEntropy u k props)
        = Fulfilled tt) ->
    _eventBusClient (this w) = Some c ->
    eventBusClient_connect env (logInfoMails u k props) c = Throw e ->
    initFailure e.

End InitSteps.

(** ** The rest of the class

    The methods that read the session, [entityEventReceived],
    [changePassword] and the code the module runs when it is loaded. *)

(** [EntityUpdate], the notification the event bus delivers. *)
Record EntityUpdate : Type := {
  operation : string;
  application : string;
  type_ : string;
  instanceListId : option Id;
  instanceId : Id
}.

Record TypeRef : Type := {
  typeRef_app : string;
  typeRef_type : string
}.

Record ChangePasswordData : Type := {
  cp_oldVerifier : Bytes;
  cp_salt : Bytes;
  cp_verifier : Bytes;
  cp_pwEncUserGroupKey : Bytes
}.

(** Further helpers the source imports from [EntityFunctions],
    [TutanotaConstants], [CryptoUtils], [CryptoFacade] and the entity
    modules.  [isSameId] compares element ids, [isSameIdTuple] an id tuple
    with the pair [[instanceListId, instanceId]] of an update. *)
Record EntityImports : Type := {
  GroupType_User : string;
  OperationType_UPDATE : string;
  UserTypeRef : TypeRef;
  GroupInfoTypeRef : TypeRef;
  isSameTypeRef : TypeRef -> TypeRef -> bool;
  isSameId : Id -> Id -> bool;
  isSameIdTuple : Id * Id -> option Id * Id -> bool;
  createAuthVerifier : list Z -> Bytes;
  encryptKey : list Z -> option KeyValue -> Completion Bytes
}.

(** The collaborators of [changePassword]: the random salt and the
    change-password service.  Their calls are not part of the log. *)
Record PasswordEnv : Type := {
  generateRandomSalt : list Event -> Bytes;
  serviceRequestVoid_ChangePassword :
    list Event -> ChangePasswordData -> Promise unit
}.

Section LoginFacadeReaders.

Context (lib : Imports) (env : Env) (ent : EntityImports)
        (penv : PasswordEnv).

(** An empty string is falsy: it yields no header. *)
Definition createAuthHeaders : M (list (string * string)) :=
  token <- get_this _accessToken;;
  ret (match token with
       | Some token =>
           if String.eqb token EmptyString then []
           else [("accessToken", token)]
       | None => []
       end).

Definition getAllGroupIds : M (list Id) :=
  u <- getLoggedInUser;;
  let groups := map group (memberships u) in
  u' <- getLoggedInUser;;
  ret (groups ++ [group (userGroup u')])%list.

Definition hasGroup (groupId : Id) : M bool :=
  u <- get_this _user;;
  ret (match u with
       | None => false
       | Some u =>
           String.eqb groupId (group (userGroup u))
           || match List.find (fun m => String.eqb (group m) groupId)
                      (memberships u) with
              | Some _ => true
              | None => false
              end
       end).

Definition getGroupId (groupType_ : string) : M Id :=
  if String.eqb groupType_ (GroupType_User ent)
  then getUserGroupId
  else
    u <- getLoggedInUser;;
    match List.find (fun m => String.eqb (groupType m) groupType_)
            (memberships u) with
    | Some membership => ret (group membership)
    | None =>
        u' <- getLoggedInUser;;
        throw (Error ("could not find groupType " ++ groupType_
                      ++ " for user " ++ _id u'))
    end.

(** [data.operation == OperationType.UPDATE &&
     isSameTypeRef(new TypeRef(data.application, data.type), typeRef)] *)
Definition isUpdateOf (data : EntityUpdate) (typeRef : TypeRef) : bool :=
  String.eqb (operation data) (OperationType_UPDATE ent)
  && isSameTypeRef ent
       {| typeRef_app := application data; typeRef_type := type_ data |}
       typeRef.

(** The [else if ... else] of [entityEventReceived]. *)
Definition entityEventReceived_else (data : EntityUpdate)
  : M (Promise unit) :=
  info <- get_this _userGroupInfo;;
  match info with
  | Some info =>
      if isUpdateOf data (GroupInfoTypeRef ent)
         && isSameIdTuple ent (groupInfo_id info)
              (instanceListId data, instanceId data)
      then
        p <- call (EvLoadGroupInfo (groupInfo_id info))
                  (fun h => load_GroupInfo env h (groupInfo_id info));;
        then_ p (fun updatedUserGroupInfo =>
          update_this (set_userGroupInfo (Some updatedUserGroupInfo));;
          ret (Fulfilled tt))
      else ret (Fulfilled tt)
  | None => ret (Fulfilled tt)
  end.

Definition entityEventReceived (data : EntityUpdate) : M (Promise unit) :=
  u <- get_this _user;;
  match u with
  | Some user =>
      if isUpdateOf data (UserTypeRef ent)
         && isSameId ent (_id user) (instanceId data)
      then
        p <- call (EvLoadUser (_id user))
                  (fun h => load_User env h (_id user));;
        then_ p (fun updatedUser =>
          update_this (set_user (Some updatedUser));;
          ret (Fulfilled tt))
      else entityEventReceived_else data
  | None => entityEventReceived_else data
  end.

(** A [null] salt handed to the key derivation raises a [TypeError], like
    any [null] used as an array.  The pending verifier is stored before the
    request is made. *)
Definition changePassword (oldPassword newPassword : string)
  : M (Promise unit) :=
  u <- getLoggedInUser;;
  oldSalt <- deref "salt is null" (salt u);;
  oldKey <- lift (generateKeyFromPassphrase lib oldPassword oldSalt);;
  let oldAuthVerifier := createAuthVerifier ent oldKey in
  newSalt <- (fun w => (Normal (generateRandomSalt penv (log w)), w));;
  userPassphraseKey <-
    lift (generateKeyFromPassphrase lib newPassword newSalt);;
  userGroupKey <- getUserGroupKey lib;;
  pwEncUserGroupKey <-
    lift (encryptKey ent userPassphraseKey userGroupKey);;
  let authVerifier := createAuthVerifier ent userPassphraseKey in
  let authVerifierBase64Url :=
    base64ToBase64Url lib (uint8ArrayToBase64 lib authVerifier) in
  let service := {| cp_oldVerifier := oldAuthVerifier; cp_salt := newSalt;
                    cp_verifier := authVerifier;
                    cp_pwEncUserGroupKey := pwEncUserGroupKey |} in
  update_this
    (set_authVerifierAfterNextRequest (Some authVerifierBase64Url));;
  (fun w => (Normal (serviceRequestVoid_ChangePassword penv (log w) service),
             w)).

End LoginFacadeReaders.

(** *** Loading the module

    [export var loginFacade = new LoginFacade()], a new object whose
    constructor calls [_reset], then the transplant of the state of the
    module that is replaced, if there is one: [Object.assign] copies every
    field of the old facade.  The event bus clients of the old module live
    on in the world. *)
Definition moduleLoad (env : Env) (replaced : option LoginFacade) : M unit :=
  update_this (fun _ => uninitialised);;
  _reset;;
  match replaced with
  | Some old =>
      update_this (fun _ => old);;
      c <- get_this _eventBusClient;;
      c <- deref "this._eventBusClient is undefined" c;;
      eventBusClient_close c;;
      c' <- new_EventBusClient;;
      update_this (set_eventBusClient (Some c'));;
      loggedIn <- isLoggedIn;;
      if loggedIn : bool then eventBusClient_connect_ env c' false
      else ret tt
  | None => ret tt
  end.

(** ** The event stream *)

(** Only the event bus client the facade holds can be connected, and only
    while a user is logged in; the client the facade holds is one of the
    clients created. *)
Definition streamOk (w : World) : Prop :=
  (forall c, c ∈ connected w ->
     _eventBusClient (this w) = Some c /\ _user (this w) <> None)
  /\ (forall c, _eventBusClient (this w) = Some c -> (c < clients w)%nat).

Definition keepsStream : relation World :=
  fun w w' => streamOk w -> streamOk w'.

(** The calls the worker makes on the facade, each run until its promise
    settles or a request of it stays unanswered.  [HotReplace] loads the
    module anew over the facade as it is. *)
Inductive Call : Type :=
| CreateSession (mailAddress passphrase clientIdentifier : string)
    (returnCredentials : bool)
| CreateExternalSession (userId : Id) (passphrase : string) (salt : Bytes)
    (clientIdentifier : string) (returnCredentials : bool)
| ResumeSession (credentials : Credentials) (externalUserSalt : option Bytes)
| Logout
| DeleteSession (accessToken : Base64Url)
| GetGroupKey (groupId : Id)
| EntityEventReceived (data : EntityUpdate)
| ChangePassword (oldPassword newPassword : string)
| HotReplace.

Section Calls.

Context (lib : Imports) (env : Env) (ent : EntityImports)
        (penv : PasswordEnv) (fuel : nat).

Definition perform (c : Call) (w : World) : World :=
  match c with
  | CreateSession mailAddress passphrase clientIdentifier returnCredentials =>
      snd (createSession lib env fuel mailAddress passphrase clientIdentifier
             returnCredentials w)
  | CreateExternalSession userId passphrase salt clientIdentifier
      returnCredentials =>
      snd (createExternalSession lib env userId passphrase salt
             clientIdentifier returnCredentials w)
  | ResumeSession credentials externalUserSalt =>
      snd (resumeSession lib env credentials externalUserSalt w)
  | Logout => snd (logout lib env w)
  | DeleteSession accessToken => snd (deleteSession lib env accessToken w)
  | GetGroupKey groupId => snd (getGroupKey lib groupId w)
  | EntityEventReceived data => snd (entityEventReceived env ent data w)
  | ChangePassword oldPassword newPassword =>
      snd (changePassword lib ent penv oldPassword newPassword w)
  | HotReplace => snd (moduleLoad env (Some (this w)) w)
  end.

Definition performAll (calls : list Call) (w : World) : World :=
  fold_left (fun w c => perform c w) calls w.

End Calls.

(** ** A sample of the further helpers *)

Module SampleEntities.

Definition sameTypeRef (a b : TypeRef) : bool :=
  String.eqb (typeRef_app a) (typeRef_app b)
  && String.eqb (typeRef_type a) (typeRef_type b).

(** Keys are wrapped as [Sample.unwrap] unwraps them. *)
Definition wrap (key : list Z) (groupKey : option KeyValue)
  : Completion Bytes :=
  match key, groupKey with
  | k :: _, Some (Key g) =>
      Normal (map (fun z => Sample.byteOfN (Z.to_N z)) (k :: g))
  | _, _ => Throw (CryptoError "invalid key")
  end.

Definition ent : EntityImports :=
  {| GroupType_User := "0";
     OperationType_UPDATE := "1";
     UserTypeRef := {| typeRef_app := "sys"; typeRef_type := "User" |};
     GroupInfoTypeRef :=
       {| typeRef_app := "sys"; typeRef_type := "GroupInfo" |};
     isSameTypeRef := sameTypeRef;
     isSameId := String.eqb;
     isSameIdTuple := fun a b =>
       match fst b with
       | Some listId => String.eqb (fst a) listId && String.eqb (snd a) (snd b)
       | None => false
       end;
     createAuthVerifier := fun k =>
       Sample.checksum (map (fun z => Sample.byteOfN (Z.to_N z)) k);
     encryptKey := wrap |}.

(** The change-password service refuses every request. *)
Definition refusing : PasswordEnv :=
  {| generateRandomSalt := fun _ => [x0a; x0b];
     serviceRequestVoid_ChangePassword := fun _ _ =>
       Rejected (NotAuthenticatedError "wrong password") |}.

(** The user record after a change on the server: a new salt. *)
Definition aliceChanged : User :=
  {| _id := "user1"; salt := Some [x0a; x0b]; accountType := "1";
     userGroup := userGroup Sample.alice;
     memberships := memberships Sample.alice |}.

(** The user record is updated on the server after the login. *)
Definition aliceChanging (h : list Event) : User :=
  if existsb (fun ev => match ev with EvLoadUser _ => true | _ => false end) h
  then aliceChanged
  else Sample.alice.

Definition userUpdate : EntityUpdate :=
  {| operation := "1"; application := "sys"; type_ := "User";
     instanceListId := None; instanceId := "user1" |}.

(** The properties stored last, or none. *)
Fixpoint stored (h : list Event) : TutanotaProperties :=
  match h with
  | [] => {| groupEncEntropy := None |}
  | EvUpdateTutanotaProperties p :: _ => p
  | _ :: h' => stored h'
  end.

(** A server that serves the properties that were stored. *)
Definition remembering : Env :=
  {| navigator := navigator Sample.friendly;
     serviceRequest_Salt := serviceRequest_Salt Sample.friendly;
     serviceRequest_Session := serviceRequest_Session Sample.friendly;
     serviceRequest_SecondFactorAuth :=
       serviceRequest_SecondFactorAuth Sample.friendly;
     serviceRequestVoid_receiveInfo :=
       serviceRequestVoid_receiveInfo Sample.friendly;
     load_User := load_User Sample.friendly;
     load_GroupInfo := load_GroupInfo Sample.friendly;
     loadRoot_TutanotaProperties := fun h _ => Fulfilled (stored h);
     update_TutanotaProperties := update_TutanotaProperties Sample.friendly;
     restClient_request := restClient_request Sample.friendly;
     eventBusClient_connect := eventBusClient_connect Sample.friendly;
     aes128RandomKey := aes128RandomKey Sample.friendly;
     random_generateRandomData :=
       random_generateRandomData Sample.friendly |}.

End SampleEntities.

(** * The navigation bar

    The class [NavBar]: a button bar that hides the buttons that do not fit
    behind a "more" button.  A width is what [getBoundingClientRect]
    measures, a double with a fraction: widths are binary64 floats, added,
    subtracted and compared as the processor does.  Ids and priorities
    are integers: an id is a count or [Number.MAX_VALUE], a priority a
    whole number of at most [MAX_PRIO] as the callers pass it, and on
    these the comparisons and the signs of the differences the code takes
    are exact.  A button is a handle;
    [button.isVisible()] is a function of the handle,
    [button.setColors(c)] is returned as a call. *)

Module Nav.

Definition MAX_PRIO : Z := 100.

(** [Number.MAX_VALUE], which is an integer. *)
Definition Number_MAX_VALUE : Z := 2 ^ 1024 - 2 ^ 971.

(** The value of [n] after [n++], for a double [n] that holds an integer
    that is not negative.  Up to [2 ^ 53] every integer is a double.  From
    there to [2 ^ 54] the doubles are the even integers: [n + 1] lies
    halfway between two of them and is rounded to the one whose
    significand [n / 2] or [n / 2 + 1] is even, which for [2 ^ 53] is
    [2 ^ 53] itself.  Above, [n + 1] is rounded back to [n]. *)
Definition increment (n : Z) : Z :=
  if n <? 2 ^ 53 then n + 1
  else if (n <? 2 ^ 54) && Z.odd (n / 2) then n + 2
  else n.

Inductive ButtonColors : Type := Header | Content.

Record ButtonWrapper : Type := {
  id : Z;
  priority : Z;
  button : nat;
  width : float
}.

Record SortedButtons : Type := {
  visible : list ButtonWrapper;
  hidden : list ButtonWrapper
}.

Record NavBar : Type := {
  buttonId : Z;
  buttons : list ButtonWrapper;
  moreButtons : list ButtonWrapper;
  more : ButtonWrapper;
  maxWidth : float
}.

(** The fields the constructor sets; [button_height] is [size.button_height]
    and [moreButton] the drop-down button it creates. *)
Definition new_NavBar (moreButton : nat) (button_height : float) : NavBar :=
  {| buttonId := 0; buttons := []; moreButtons := [];
     more := {| id := Number_MAX_VALUE; priority := MAX_PRIO;
                button := moreButton; width := button_height |};
     maxWidth := 0%float |}.

(** An argument that is left out takes its default.  [this.buttonId++]
    gives the wrapper the id before the increment. *)
Definition addButton (b : nat) (priority : option Z)
    (moreOnly : option bool) (bar : NavBar) : Completion NavBar :=
  let priority := match priority with Some p => p | None => 0 end in
  let moreOnly := match moreOnly with Some m => m | None => false end in
  if priority >? MAX_PRIO then Throw (Error "prio > 100")
  else
    let wrapper := {| id := buttonId bar; priority := priority;
                      button := b; width := 0%float |} in
    Normal
      (if moreOnly : bool
       then {| buttonId := increment (buttonId bar); buttons := buttons bar;
               moreButtons := (moreButtons bar ++ [wrapper])%list;
               more := more bar; maxWidth := maxWidth bar |}
       else {| buttonId := increment (buttonId bar);
               buttons := (buttons bar ++ [wrapper])%list;
               moreButtons := moreButtons bar;
               more := more bar; maxWidth := maxWidth bar |}).

(** The widths are added from the left, starting from 0, each sum rounded
    to a double. *)
Definition getButtonsWidth (wrappers : list ButtonWrapper) : float :=
  fold_left (fun sum current => (sum + current)%float)
    (map width wrappers) 0%float.

(** The loop of [getVisibleButtons]: the first button is moved as long as
    the test [remainingSpace - visible[0].width >= 0] holds of the rounded
    difference, which becomes the remaining space.  [visible[0]] of an
    empty array is [undefined], and reading its width raises a
    [TypeError]. *)
Fixpoint moveWhileFits (remainingSpace : float)
    (visible moved : list ButtonWrapper)
  : Completion (list ButtonWrapper * list ButtonWrapper) :=
  match visible with
  | [] => Throw (TypeError "visible[0] is undefined")
  | first :: rest =>
      if (0 <=? remainingSpace - width first)%float
      then moveWhileFits (remainingSpace - width first)%float rest
             (moved ++ [first])%list
      else Normal (moved, visible)
  end.

Section Methods.

(** [b.button.isVisible()] and [Array.prototype.sort]. *)
Context (isVisible : nat -> bool)
        (sort : (ButtonWrapper -> ButtonWrapper -> Z) ->
                list ButtonWrapper -> list ButtonWrapper).

(** The result and the calls of [setColors], in their order. *)
Definition getVisibleButtons (bar : NavBar)
  : Completion (SortedButtons * list (nat * ButtonColors)) :=
  let visible0 := List.filter (fun b => isVisible (button b)) (buttons bar) in
  let hidden0 :=
    List.filter (fun b => isVisible (button b)) (moreButtons bar) in
  let remainingSpace := maxWidth bar in
  match
    (if (remainingSpace <? getButtonsWidth visible0)%float
     then
       let sorted := sort (fun a b => priority b - priority a) visible0 in
       match moveWhileFits remainingSpace (more bar :: sorted) [] with
       | Normal (moved, rest) =>
           Normal {| hidden := sort (fun a b => id a - id b)
                                 (hidden0 ++ rest)%list;
                     visible := sort (fun a b => id a - id b) moved |}
       | Throw e => Throw e
       end
     else Normal {| visible := visible0; hidden := hidden0 |})
  with
  | Normal result =>
      Normal (result,
              (map (fun b => (button b, Content)) (hidden result)
               ++ map (fun b => (button b, Header)) (visible result))%list)
  | Throw e => Throw e
  end.

End Methods.

(** The ids of the buttons: every list is in the order in which the
    buttons were added, no id is used twice, and [buttonId] is beyond all
    of them.  No button has a priority above [MAX_PRIO], which is the
    priority of the "more" button. *)
Definition wellFormed (bar : NavBar) : Prop :=
  StronglySorted Z.lt (map id (buttons bar))
  /\ StronglySorted Z.lt (map id (moreButtons bar))
  /\ NoDup (map id (buttons bar ++ moreButtons bar)%list)
  /\ Forall (fun b => 0 <= id b < buttonId bar /\ priority b <= MAX_PRIO)
       (buttons bar ++ moreButtons bar)%list
  /\ 0 <= buttonId bar <= Number_MAX_VALUE
  /\ id (more bar) = Number_MAX_VALUE
  /\ priority (more bar) = MAX_PRIO.

(** A stable sort, as ECMAScript 2019 asks for. *)
Fixpoint insert (compare : ButtonWrapper -> ButtonWrapper -> Z)
    (x : ButtonWrapper) (l : list ButtonWrapper) : list ButtonWrapper :=
  match l with
  | [] => [x]
  | y :: l' =>
      if compare x y <=? 0 then x :: y :: l' else y :: insert compare x l'
  end.

Definition stableSort (compare : ButtonWrapper -> ButtonWrapper -> Z)
    (l : list ButtonWrapper) : list ButtonWrapper :=
  fold_right (insert compare) [] l.

(** Three buttons of sixty and a half pixels and one for the drop-down
    only, in a bar of a hundred and fifty pixels. *)
Definition sampleBar : NavBar :=
  {| buttonId := 4;
     buttons :=
       [ {| id := 0; priority := 10; button := 1; width := 60.5%float |};
         {| id := 1; priority := 100; button := 2; width := 60.5%float |};
         {| id := 3; priority := 50; button := 4; width := 60.5%float |} ];
     moreButtons :=
       [ {| id := 2; priority := 0; button := 3; width := 0%float |} ];
     more := {| id := Number_MAX_VALUE; priority := MAX_PRIO; button := 0;
                width := 44%float |};
     maxWidth := 150%float |}.

(** Four buttons whose widths are the doubles next to 0.8, 0.9, 0.7 and
    0.6, and a "more" button of no width, in a bar of three pixels.  The
    widths add up to the double above 3; subtracted from 3 one after the
    other they leave a difference above 0. *)
Definition narrowBar : NavBar :=
  {| buttonId := 4;
     buttons :=
       [ {| id := 0; priority := 4; button := 1;
            width := 0x1.999999999999ap-1%float |};
         {| id := 1; priority := 3; button := 2;
            width := 0x1.ccccccccccccdp-1%float |};
         {| id := 2; priority := 2; button := 3;
            width := 0x1.6666666666666p-1%float |};
         {| id := 3; priority := 1; button := 4;
            width := 0x1.3333333333333p-1%float |} ];
     moreButtons := [];
     more := {| id := Number_MAX_VALUE; priority := MAX_PRIO; button := 0;
                width := 0%float |};
     maxWidth := 3%float |}.

End Nav.

(** * Properties *)

Local Open Scope list_scope.

#[local] Set Warnings "-clear-no-such-hyp".

(** ** Running a computation *)

Lemma bind_Normal {A B} (m : M A) (k : A -> M B) w a w1 :
  m w = (Normal a, w1) -> bind m k w = k a w1.
Proof. unfold bind. by intros ->. Qed.

Lemma bind_Throw {A B} (m : M A) (k : A -> M B) w e w1 :
  m w = (Throw e, w1) -> bind m k w = (Throw e, w1).
Proof. unfold bind. by intros ->. Qed.

(** A promise combinator never throws. *)
Lemma then_Normal {A B} (p : Promise A) (cb : A -> M (Promise B)) w :
  exists q, fst (then_ p cb w) = Normal q.
Proof.
  destruct p as [a|e|]; simpl; eauto.
  destruct (cb a w) as [[q|e] w']; simpl; eauto.
Qed.

(** ** Relations between the world before and after *)

Section Respects.

Context (R : relation World) `{!PreOrder R}.

Lemma respects_ret {A} (a : A) : respects R (ret a).
Proof. intros w. reflexivity. Qed.

Lemma respects_throw {A} e : respects R (@throw A e).
Proof. intros w. reflexivity. Qed.

Lemma respects_lift {A} (c : Completion A) : respects R (lift c).
Proof. intros w. reflexivity. Qed.

Lemma respects_get_this {A} (field : LoginFacade -> A) :
  respects R (get_this field).
Proof. intros w. reflexivity. Qed.

Lemma respects_deref {A} what (x : option A) : respects R (deref what x).
Proof. destruct x; intros w; reflexivity. Qed.

Lemma respects_bind {A B} (m : M A) (k : A -> M B) :
  respects R m -> (forall a, respects R (k a)) -> respects R (bind m k).
Proof.
  intros Hm Hk w. unfold bind. specialize (Hm w).
  destruct (m w) as [[a|e] w1]; simpl in *; [|done].
  etransitivity; [exact Hm | apply Hk].
Qed.

Lemma respects_try_catch {A} (m : M A) h :
  respects R m -> (forall e, respects R (h e)) -> respects R (try_catch m h).
Proof.
  intros Hm Hh w. unfold try_catch. specialize (Hm w).
  destruct (m w) as [[a|e] w1]; simpl in *; [done|].
  etransitivity; [exact Hm | apply Hh].
Qed.

Lemma respects_then {A B} (p : Promise A) (cb : A -> M (Promise B)) :
  (forall a, respects R (cb a)) -> respects R (then_ p cb).
Proof.
  intros Hcb w. destruct p as [a|e|]; simpl; try reflexivity.
  specialize (Hcb a w). by destruct (cb a w) as [[q|e] w1].
Qed.

Lemma respects_catch {A} f (p : Promise A) cb :
  (forall e, respects R (cb e)) -> respects R (catch_ f p cb).
Proof.
  intros Hcb w. destruct p as [a|e|]; simpl; try reflexivity.
  destruct (f e); simpl; try reflexivity.
  specialize (Hcb e w). by destruct (cb e w) as [[q|e'] w1].
Qed.

Lemma respects_finally {A B} (p : Promise A) (cb : M (Promise B)) :
  respects R cb -> respects R (finally_ p cb).
Proof.
  intros Hcb w. specialize (Hcb w).
  destruct p as [a|e|]; simpl; try reflexivity;
    by destruct (cb w) as [[[b|e'|]|e'] w1].
Qed.

End Respects.

#[global] Instance logsOnly_preorder P : PreOrder (logsOnly P).
Proof.
  split.
  - intros w. by exists [].
  - intros w1 w2 w3 (l1 & H1 & F1) (l2 & H2 & F2).
    exists (l2 ++ l1). split.
    + by rewrite H2, H1, app_assoc.
    + by apply Forall_app.
Qed.

#[global] Instance onlyLog_preorder : PreOrder onlyLog.
Proof.
  split.
  - by intros w.
  - intros w1 w2 w3 (?&?&?&?) (?&?&?&?). unfold onlyLog. by repeat split; congruence.
Qed.

#[global] Instance keepsClient_preorder : PreOrder keepsClient.
Proof.
  split.
  - by intros w.
  - intros w1 w2 w3 [??] [??]. unfold keepsClient. split; congruence.
Qed.

(** The steps every relation above tolerates. *)
Ltac respects_step :=
  first
    [ apply respects_ret; solve [typeclasses eauto]
    | apply respects_throw; solve [typeclasses eauto]
    | apply respects_lift; solve [typeclasses eauto]
    | apply respects_get_this; solve [typeclasses eauto]
    | apply respects_deref; solve [typeclasses eauto]
    | apply respects_bind; [typeclasses eauto | | ]
    | apply respects_try_catch; [typeclasses eauto | | ]
    | apply respects_then; [typeclasses eauto | ]
    | apply respects_catch; [typeclasses eauto | ]
    | apply respects_finally; [typeclasses eauto | ] ].

Create HintDb frame.

Ltac frame :=
  repeat first
    [ progress intros
    | respects_step
    | solve [auto with frame]
    | match goal with
      | |- respects _ (match ?x with _ => _ end) => destruct x
      | |- respects _ (if ?b then _ else _) => destruct b
      end ].

(** *** What is logged *)

Lemma logsOnly_record P ev w : P ev -> logsOnly P w (record ev w).
Proof. intros H. exists [ev]. by split; [|constructor]. Qed.

Lemma logsOnly_same_log P w w' : log w' = log w -> logsOnly P w w'.
Proof. intros H. by exists []. Qed.

Lemma logsOnly_emit P ev : P ev -> respects (logsOnly P) (emit ev).
Proof. intros H w. by apply logsOnly_record. Qed.

Lemma logsOnly_call {A} P ev (answer : list Event -> A) :
  P ev -> respects (logsOnly P) (call ev answer).
Proof. intros H w. by apply logsOnly_record. Qed.

Lemma logsOnly_call_recorded {A} P (ev : A -> Event) answer :
  (forall a, P (ev a)) -> respects (logsOnly P) (call_recorded ev answer).
Proof. intros H w. by apply logsOnly_record. Qed.

Lemma logsOnly_update_this P f : respects (logsOnly P) (update_this f).
Proof. intros w. by apply logsOnly_same_log. Qed.

Lemma logsOnly_set_state_user P u : respects (logsOnly P) (set_state_user u).
Proof. intros w. by apply logsOnly_same_log. Qed.

Lemma logsOnly_new_EventBusClient P : respects (logsOnly P) new_EventBusClient.
Proof. intros w. by apply logsOnly_same_log. Qed.

Lemma logsOnly_close P c :
  P (EvEventBusClose c) -> respects (logsOnly P) (eventBusClient_close c).
Proof. intros H w. exists [EvEventBusClose c]. by split; [|constructor]. Qed.

Lemma logsOnly_connect P env c b :
  P (EvEventBusConnect c b) ->
  respects (logsOnly P) (eventBusClient_connect_ env c b).
Proof.
  intros H w. unfold eventBusClient_connect_.
  destruct (eventBusClient_connect env (log w) c);
    exists [EvEventBusConnect c b]; by split; [|constructor].
Qed.

#[global] Hint Resolve logsOnly_emit logsOnly_call logsOnly_call_recorded
  logsOnly_update_this logsOnly_set_state_user logsOnly_new_EventBusClient
  logsOnly_close logsOnly_connect : frame.

Section LogsOnly.

Context (lib : Imports) (env : Env) (P : Event -> Prop).

(** [P] holds of every event that is not of the three kinds that
    [afterApproval] excludes. *)
Hypothesis P_afterApproval : forall ev, afterApproval ev -> P ev.

Local Hint Extern 1 (P _) => apply P_afterApproval; exact I : frame.

Lemma logsOnly_reset : respects (logsOnly P) _reset.
Proof. unfold _reset. frame. Qed.

Lemma logsOnly_initSession u t k :
  respects (logsOnly P) (_initSession lib env u t k).
Proof.
  pose proof logsOnly_reset.
  unfold _initSession, loadEntropy, _getInfoMails, getUserGroupKey, getUserGroupId, getLoggedInUser, isExternalUserLoggedIn, decryptKey_.
  frame.
Qed.

End LogsOnly.

(** *** What is kept *)

#[global] Instance both_preorder R1 R2 `{!PreOrder R1, !PreOrder R2} :
  PreOrder (both R1 R2).
Proof.
  split.
  - intros w. split; reflexivity.
  - intros w1 w2 w3 [??] [??]. split; etransitivity; eauto.
Qed.

Lemma respects_both {A} R1 R2 (m : M A) :
  respects R1 m -> respects R2 m -> respects (both R1 R2) m.
Proof. intros H1 H2 w. split; [apply H1 | apply H2]. Qed.

Lemma onlyLog_emit ev : respects onlyLog (emit ev).
Proof. by intros w. Qed.

Lemma onlyLog_call {A} ev (answer : list Event -> A) :
  respects onlyLog (call ev answer).
Proof. by intros w. Qed.

Lemma onlyLog_call_recorded {A} (ev : A -> Event) answer :
  respects onlyLog (call_recorded ev answer).
Proof. by intros w. Qed.

Lemma keepsClient_emit ev : respects keepsClient (emit ev).
Proof. by intros w. Qed.

Lemma keepsClient_call {A} ev (answer : list Event -> A) :
  respects keepsClient (call ev answer).
Proof. by intros w. Qed.

Lemma keepsClient_call_recorded {A} (ev : A -> Event) answer :
  respects keepsClient (call_recorded ev answer).
Proof. by intros w. Qed.

Lemma keepsClient_update_this f :
  (forall x, _eventBusClient (f x) = _eventBusClient x) ->
  respects keepsClient (update_this f).
Proof. intros H w. split; [apply H | done]. Qed.

Lemma keepsClient_set_state_user u : respects keepsClient (set_state_user u).
Proof. by intros w. Qed.

Lemma keepsClient_close c : respects keepsClient (eventBusClient_close c).
Proof. by intros w. Qed.

Lemma keepsClient_connect env c b :
  respects keepsClient (eventBusClient_connect_ env c b).
Proof.
  intros w. unfold eventBusClient_connect_.
  by destruct (eventBusClient_connect env (log w) c).
Qed.

#[global] Hint Resolve onlyLog_emit onlyLog_call onlyLog_call_recorded
  keepsClient_emit keepsClient_call keepsClient_call_recorded
  keepsClient_set_state_user keepsClient_close keepsClient_connect : frame.
#[global] Hint Extern 2 (respects keepsClient (update_this _)) =>
  apply keepsClient_update_this; intros; reflexivity : frame.

(** ** The session's address *)

Lemma relativeIndex_nat (len n : nat) :
  relativeIndex (Z.of_nat len) (Z.of_nat n) = Z.of_nat (n `min` len).
Proof. unfold relativeIndex. destruct (Z.ltb_spec (Z.of_nat n) 0); lia. Qed.

(** [a.slice(n)] drops the first [n] bytes. *)
Lemma slice_from (a : list byte) (n : nat) :
  slice a (Z.of_nat n) None = drop n a.
Proof.
  unfold slice. rewrite relativeIndex_nat, Nat2Z.id.
  replace (Z.to_nat _) with (length a - n `min` length a)%nat by lia.
  destruct (le_lt_dec (length a) n).
  - rewrite !drop_ge by lia. apply take_nil.
  - replace (n `min` length a)%nat with n by lia.
    apply take_ge. rewrite length_drop. lia.
Qed.

(** [a.slice(0, n)] keeps the first [n] bytes. *)
Lemma slice_to (a : list byte) (n : nat) :
  slice a 0 (Some (Z.of_nat n)) = take n a.
Proof.
  unfold slice. change 0%Z with (Z.of_nat 0). rewrite !relativeIndex_nat.
  replace (Z.to_nat (Z.max _ _)) with (n `min` length a)%nat by lia.
  replace (Z.to_nat _) with 0%nat by lia. rewrite drop_0.
  destruct (le_lt_dec (length a) n).
  - by rewrite !take_ge by lia.
  - by replace (n `min` length a)%nat with n by lia.
Qed.

Lemma _getSessionElementId_pure lib token w :
  _getSessionElementId lib token w = (spec_elementId lib token, w).
Proof.
  unfold _getSessionElementId, spec_elementId, rawBytes, urlSafeBase64,
    bind, lift, ret.
  destruct (base64UrlToBase64 lib token) as [b64|e]; [|done].
  destruct (base64ToUint8Array lib b64) as [raw|e]; [|done].
  by rewrite slice_from.
Qed.

Lemma _getSessionListId_pure lib token w :
  _getSessionListId lib token w = (spec_listId lib token, w).
Proof.
  unfold _getSessionListId, spec_listId, rawBytes, extendedBase64,
    bind, lift, ret.
  destruct (base64UrlToBase64 lib token) as [b64|e]; [|done].
  destruct (base64ToUint8Array lib b64) as [raw|e]; [|done].
  by rewrite slice_to.
Qed.

Lemma sessionPath_Throw lib token e w :
  rawBytes lib token = Throw e ->
  sessionPath lib token w = (Throw e, w).
Proof.
  intros H. unfold sessionPath, bind.
  rewrite _getSessionListId_pure. unfold spec_listId. by rewrite H.
Qed.

(** ** [_reset] *)

Lemma reset_spec w :
  exists w', _reset w = (Normal tt, w')
    /\ this w' = cleared (clients w)
    /\ state_user w' = state_user w
    /\ clients w' = S (clients w)
    /\ connected w' = match _eventBusClient (this w) with
                      | Some c => connected w ∖ {[c]}
                      | None => connected w
                      end.
Proof.
  unfold _reset, bind, update_this, get_this, new_EventBusClient,
    eventBusClient_close, ret. simpl.
  destruct (_eventBusClient (this w)); simpl; eexists; by repeat split.
Qed.

(** The handler that closes [_initSession]: a rejection resets the
    facade and is raised again; nothing else is touched. *)
Lemma catch_reset (p : Promise unit) w r w' :
  catch_ anyError p (fun e => _reset;; throw e) w = (r, w') ->
  match p with
  | Rejected e =>
      r = Normal (Rejected e)
      /\ this w' = cleared (clients w)
      /\ connected w' = match _eventBusClient (this w) with
                        | Some c => connected w ∖ {[c]}
                        | None => connected w
                        end
      /\ logsOnly afterApproval w w'
  | _ => r = Normal p /\ w' = w
  end.
Proof.
  destruct p as [a|e|]; simpl; unfold ret; try by intros [= <- <-].
  pose proof (logsOnly_reset afterApproval (fun _ H => H) w) as Hlog.
  destruct (reset_spec w) as (w1 & E & Hthis & _ & _ & Hconn).
  rewrite (bind_Normal _ _ _ _ _ E). rewrite E in Hlog. unfold throw.
  by intros [= <- <-].
Qed.

(** ** Lookups in [groupKeys] *)

(** A key that the object holds is what the lookup finds. *)
Lemma property_insert_eq lib keys g k :
  property lib (<[g := k]> keys) g = Some (Key k).
Proof. unfold property. by rewrite lookup_insert_eq. Qed.

Lemma property_own lib keys g k :
  keys !! g = Some k -> property lib keys g = Some (Key k).
Proof. unfold property. by intros ->. Qed.

(** ** [_initSession] *)

(** One step of a run: [H] is about [bind (then_ p cb) k w]; the step
    leaves the world [R]-related to [w]. *)
Ltac run_then H R unfolds :=
  match type of H with
  | bind (then_ ?p ?cb) ?k ?w = _ =>
      let q := fresh "p" in
      let w1 := fresh "w" in
      let E := fresh "E" in
      let F := fresh "F" in
      assert (F : respects R (then_ p cb))
        by (apply respects_then; [typeclasses eauto | intros; unfolds; frame]);
      specialize (F w);
      destruct (then_Normal p cb w) as [q E];
      unfold bind at 1 in H;
      destruct (then_ p cb w) as [? w1]; simpl in E, F; subst
  end.

#[global] Hint Extern 1 (afterApproval _) => exact I : frame.

Ltac unfold_steps :=
  unfold loadEntropy, _getInfoMails, getUserGroupKey, getUserGroupId,
    getLoggedInUser, isExternalUserLoggedIn, decryptKey_.

(** Case analysis on what a run branches on; [tac] rewrites with what is
    known before each case is taken. *)
Ltac run_cases_with H tac :=
  repeat progress
    (simpl in H; repeat (progress (tac; simpl in H));
     try (match type of H with
          | context [match ?x with _ => _ end] =>
              lazymatch x with
              | context [match _ with _ => _ end] => fail
              | _ => let E := fresh "E" in destruct x eqn:E
              end
          end;
          simpl in H; try discriminate H)).

Ltac run_cases H := run_cases_with H idtac.

Section InitSession.

Context (lib : Imports) (env : Env).

Local Abbreviation initFrame := (both keepsClient (logsOnly afterApproval)).

Lemma initSession_inv userId tok key w r w' :
  _initSession lib env userId tok key w = (r, w') ->
  (exists u, _user (this w) = Some u /\ userId <> _id u
     /\ r = Throw (Error
          "different user is tried to login in existing other user's session")
     /\ w' = w)
  \/ ((forall u, _user (this w) = Some u -> userId = _id u)
      /\ exists p w2,
          initFrame
            (record (EvLoadUser userId)
               (snd (update_this (set_accessToken (Some tok)) w))) w2
          /\ catch_ anyError p (fun e => _reset;; throw e) w2 = (r, w')).
Proof.
  intros H. unfold _initSession in H.
  unfold bind at 1 in H. simpl in H.
  assert (Hguard :
    (exists u, _user (this w) = Some u /\ userId <> _id u)
    \/ (forall u, _user (this w) = Some u -> userId = _id u)).
  { destruct (_user (this w)) as [u|]; [|right; congruence].
    destruct (String.eqb_spec userId (_id u)); [right|left; eauto].
    congruence. }
  destruct Hguard as [(u & Hu & Hne) | Hsame].
  - left. exists u. rewrite Hu in H. unfold bind at 1 in H.
    apply String.eqb_neq in Hne as Hne'. rewrite Hne' in H. simpl in H.
    unfold throw in H. by injection H as <- <-.
  - right. split; [done|].
    assert (Hpass : forall k : unit -> M (Promise unit),
      bind match _user (this w) with
           | Some u =>
               if negb (String.eqb userId (_id u))
               then throw (Error
                 "different user is tried to login in existing other user's session")
               else ret tt
           | None => ret tt
           end k w = k tt w).
    { intros k. destruct (_user (this w)) as [u|]; [|done].
      rewrite (Hsame u eq_refl), String.eqb_refl. done. }
    rewrite Hpass in H. clear Hpass.
    unfold bind at 1 in H. simpl in H.
    unfold bind at 1 in H. simpl in H.
    set (w1 := record _ _) in *.
    assert (initFrame w1 w1) as F0 by reflexivity.
    repeat (run_then H (both keepsClient (logsOnly afterApproval)) ltac:(apply respects_both; unfold_steps);
            match goal with
            | F1 : initFrame ?a ?b, F2 : initFrame ?b ?c |- _ =>
                assert (initFrame a c) by (etransitivity; [exact F1 | exact F2]);
                clear F1 F2
            end).
    eauto.
Qed.

Lemma initSession_Normal userId tok key w r w' :
  _initSession lib env userId tok key w = (r, w') ->
  (forall u, _user (this w) = Some u -> userId = _id u) ->
  exists p l, r = Normal p
    /\ log w' = l ++ EvLoadUser userId :: log w
    /\ Forall afterApproval l.
Proof.
  intros H Hsame.
  apply initSession_inv in H as [(u & Hu & Hne & _) | (_ & p & w2 & F & H)].
  { by destruct Hne; apply Hsame. }
  destruct F as [_ (l & Hl & Fl)].
  apply catch_reset in H.
  destruct p as [a|e|].
  - destruct H as [-> ->]. eauto.
  - destruct H as (-> & _ & _ & l' & Hl' & Fl').
    exists (Rejected e), (l' ++ l). split; [done|].
    rewrite Hl', Hl, app_assoc. split; [done|]. by apply Forall_app.
  - destruct H as [-> ->]. eauto.
Qed.

(** The guard of [_initSession]. *)
Lemma initSession_refuses userId tok key w u :
  _user (this w) = Some u ->
  userId <> _id u ->
  _initSession lib env userId tok key w
  = (Throw (Error
       "different user is tried to login in existing other user's session"),
     w).
Proof.
  intros Hu Hne.
  destruct (_initSession lib env userId tok key w) as [r w'] eqn:H.
  apply initSession_inv in H as [(_ & _ & _ & -> & ->) | (Hsame & _)];
    [done|].
  by destruct Hne; apply Hsame.
Qed.

End InitSession.

(** The steps of a run, one by one. *)
Ltac unfold_initSession H :=
  unfold _initSession, loadEntropy, _getInfoMails, getUserGroupKey,
    getUserGroupId, getLoggedInUser, isExternalUserLoggedIn, decryptKey_,
    eventBusClient_connect_, _reset, eventBusClient_close,
    new_EventBusClient, bind, then_, catch_, try_catch, anyError, get_this,
    update_this, set_state_user, emit, call, lift, deref, ret, throw in H.

Ltac external_or_not :=
  repeat match goal with
         | E : negb _ = true |- _ => apply negb_true_iff in E
         | E : negb _ = false |- _ => apply negb_false_iff in E
         end.

(** A premise of a constructor of [initFailure], from what the run met. *)
Ltac met :=
  first
    [ eassumption
    | unfold logInfoMails, logEntropy, logGroupInfo, logUnwrapped;
      repeat match goal with
             | E : ?x = _ |- context [match ?x with _ => _ end] => rewrite E
             end;
      simpl;
      first [eassumption | left; eassumption | right; eassumption] ].

Lemma initSession_failure lib env userId tok key w e w' :
  _initSession lib env userId tok key w = (Normal (Rejected e), w') ->
  initFailure lib env userId key w e.
Proof.
  intros H. unfold_initSession H.
  run_cases_with H ltac:(rewrite ?property_insert_eq in H).
  all: injection H as <- <-.
  all: external_or_not; simplify_eq;
    repeat match goal with x : unit |- _ => destruct x end.
  all: first
    [ solve [eapply fails_load_User; met]
    | solve [eapply fails_decryptKey; met]
    | solve [eapply fails_load_GroupInfo; met]
    | solve [eapply fails_loadRoot; met]
    | solve [eapply fails_receiveInfo; met]
    | solve [eapply fails_no_client; met]
    | solve [eapply fails_connect; met]
    | idtac ].
Qed.

(** What is known is used before a case is taken: an equation about a
    term that occurs in [H] is rewritten into [H], once the equations of
    the cases taken so far have been rewritten into it. *)
Ltac use_known H :=
  rewrite ?property_insert_eq in H;
  external_or_not;
  simpl in *;
  repeat match goal with
         | E : ?x = _, H' : context [match ?x with _ => _ end] |- _ =>
             lazymatch H' with
             | H => fail
             | _ => rewrite E in H'; simpl in H'
             end
         end;
  repeat match goal with
         | E : ?x = _ |- _ =>
             lazymatch E with
             | H => fail
             | _ =>
                 match type of H with
                 | context [x] => rewrite E in H
                 end
             end
         end.

Lemma initFailure_rejects lib env userId tok key w e :
  (forall u, _user (this w) = Some u -> userId = _id u) ->
  initFailure lib env userId key w e ->
  exists w', _initSession lib env userId tok key w = (Normal (Rejected e), w').
Proof.
  intros Hsame Hf.
  destruct (_initSession lib env userId tok key w) as [r w'] eqn:H.
  unfold_initSession H.
  destruct (_user (this w)) as [u0|] eqn:Hu0;
    [assert (Hg : String.eqb userId (_id u0) = true)
       by (rewrite (Hsame u0 eq_refl); apply String.eqb_refl);
     rewrite Hg in H; clear Hsame Hg|];
    simpl in H.
  all: destruct Hf;
    unfold logInfoMails, logEntropy, logGroupInfo, logUnwrapped in *;
    repeat match goal with Hor : _ \/ _ |- _ => destruct Hor end.
  all: run_cases_with H ltac:(use_known H).
  all: try (injection H as <- <-; simplify_eq; eexists; reflexivity).
  all: exfalso; simplify_eq; congruence.
Qed.

(** C2 (as amended).  A failure of a step of [_initSession]'s promise
    chain rejects the promise of [_initSession] only after the facade has
    been reset: no user, no group info, no access token, no pending
    verifier, no group key and no persistent-session flag remain; the event
    bus client the facade held is closed and replaced by a new one.  And
    every step counts: once the guard has passed, [_initSession] returns a
    promise, which is rejected with [e] exactly when one of its steps
    (loading the user, unwrapping the key of the user group, loading the
    group info, loading the properties that hold the entropy, the
    receive-info request, taking the event bus client, connecting it)
    fails with [e] after the steps before it have succeeded. *)
Theorem initSession_failure_resets lib env userId tok key w :
  (forall e w',
     _initSession lib env userId tok key w = (Normal (Rejected e), w') ->
     noSession (this w')
     /\ _eventBusClient (this w') = Some (clients w)
     /\ (forall c, _eventBusClient (this w) = Some c -> c ∉ connected w'))
  /\ ((forall u, _user (this w) = Some u -> userId = _id u) ->
      exists p w',
        _initSession lib env userId tok key w = (Normal p, w')
        /\ forall e, p = Rejected e <-> initFailure lib env userId key w e).
Proof.
  split.
  - intros e w' H.
    apply initSession_inv in H
      as [(u & _ & _ & [=] & _) | (_ & p & w2 & F & H)].
    destruct F as [[Hc Hn] _]. simpl in Hc, Hn.
    apply catch_reset in H.
    destruct p as [a|e'|]; try by destruct H as [[=] _].
    destruct H as (_ & Hthis & Hconn & _).
    rewrite Hthis, Hn. split; [by repeat split|]. split; [done|].
    intros c Hw. rewrite Hconn, Hc, Hw. set_solver.
  - intros Hsame.
    destruct (_initSession lib env userId tok key w) as [r w'] eqn:H.
    destruct (initSession_Normal lib env _ _ _ _ _ _ H Hsame)
      as (p & l & -> & _).
    exists p, w'. split; [done|]. intros e. split.
    + intros ->. by apply (initSession_failure lib env userId tok key w e w').
    + intros Hf.
      destruct (initFailure_rejects lib env userId tok key w e Hsame Hf)
        as (w'' & H').
      congruence.
Qed.

(** Alice is logged in and her session is set up again; this time the
    event bus does not connect, which is the last step. *)
Lemma initSession_failure_resets_witness :
  let w := snd (createSession Sample.lib Sample.friendly 0 "a@b.c" "p"
                  "client" false newWorld) in
  let env := Sample.server None
    (fun ev => match ev with
               | EvEventBusConnect _ _ => Some (ConnectionError "no socket")
               | _ => None
               end)
    (fun _ => Sample.alice) "user1" Sample.token [] 0 in
  let run := _initSession Sample.lib env "user1" Sample.token [1; 5; 6] w in
  _user (this w) = Some Sample.alice
  /\ _eventBusClient (this w) = Some 0%nat
  /\ connected w = {[0%nat]}
  /\ fst run = Normal (Rejected (ConnectionError "no socket"))
  /\ initFailure Sample.lib env "user1" [1; 5; 6] w
       (ConnectionError "no socket")
  /\ noSession (this (snd run))
  /\ _eventBusClient (this (snd run)) = Some (clients w)
  /\ (forall c, _eventBusClient (this w) = Some c -> c ∉ connected (snd run)).
Proof.
  intros w env run.
  assert (Hrun : fst run = Normal (Rejected (ConnectionError "no socket")))
    by (vm_compute; reflexivity).
  split; [vm_compute; reflexivity|].
  split; [vm_compute; reflexivity|].
  split; [vm_compute; reflexivity|].
  split; [exact Hrun|].
  split.
  - destruct (proj2 (initSession_failure_resets Sample.lib env "user1"
                       Sample.token [1; 5; 6] w))
      as (p & w' & H & Hiff).
    { intros u Hu. vm_compute in Hu. injection Hu as <-. reflexivity. }
    apply Hiff. change (run = (Normal p, w')) in H.
    rewrite H in Hrun. simpl in Hrun. congruence.
  - apply (proj1 (initSession_failure_resets Sample.lib env "user1"
                    Sample.token [1; 5; 6] w) (ConnectionError "no socket")).
    vm_compute. reflexivity.
Defined.

(** C3.  With a user logged in, [_initSession] for another user id throws
    the error of the guard and leaves the world as it was; for the id of the
    user logged in the guard passes: nothing is thrown and the user is
    requested. *)
Theorem initSession_other_user lib env userId tok key w u :
  _user (this w) = Some u ->
  (userId <> _id u ->
   _initSession lib env userId tok key w
   = (Throw (Error
        "different user is tried to login in existing other user's session"),
      w))
  /\ (exists p w' l,
        _initSession lib env (_id u) tok key w = (Normal p, w')
        /\ log w' = l ++ EvLoadUser (_id u) :: log w).
Proof.
  intros Hu. split.
  - by apply initSession_refuses.
  - destruct (_initSession lib env (_id u) tok key w) as [r w'] eqn:H.
    apply initSession_Normal in H as (p & l & -> & Hl & _); [eauto|].
    intros u' Hu'. congruence.
Qed.

(** Alice is logged in; a session of Bob is refused, one of Alice is not. *)
Lemma initSession_other_user_witness :
  let w := snd (createSession Sample.lib Sample.friendly 0 "a@b.c" "p"
                  "client" false newWorld) in
  _initSession Sample.lib Sample.friendly "user2" Sample.token [1; 5; 6] w
  = (Throw (Error
       "different user is tried to login in existing other user's session"),
     w).
Proof.
  intros w.
  apply (initSession_other_user Sample.lib Sample.friendly "user2"
           Sample.token [1; 5; 6] w Sample.alice);
    [vm_compute; reflexivity | vm_compute; discriminate].
Defined.

(** ** Waiting for the second factor *)

Section SecondFactor.

Context (env : Env) (tok : string).

Local Abbreviation poll a := (EvSecondFactorAuthService tok a).

Lemma repeat_middle {A} (x : A) n l :
  repeat x n ++ x :: l = x :: repeat x n ++ l.
Proof. induction n as [|n IH]; simpl; [done|]. by rewrite IH. Qed.

(** A run of the poller: some polls answered "pending", then a last poll;
    the promise is fulfilled only when that one was answered "not
    pending". *)
Lemma wait_run fuel : forall w r w',
  _waitUntilSecondFactorApproved env fuel tok w = (r, w') ->
  onlyLog w w'
  /\ exists n last,
      log w' = poll last :: repeat (poll (Fulfilled true)) n ++ log w
      /\ (n <= fuel)%nat
      /\ match last with
         | Fulfilled true => r = Normal Pending /\ n = fuel
         | Fulfilled false => r = Normal (Fulfilled tt)
         | Rejected e => r = Normal (Rejected e)
         | Pending => r = Normal Pending
         end.
Proof.
  induction fuel as [|fuel IH]; intros w r w' H; simpl in H;
    unfold bind, call_recorded in H; simpl in H;
    destruct (serviceRequest_SecondFactorAuth env (log w) tok)
      as [[|]|e|] eqn:Ha; simpl in H.
  all: try (injection H as <- <-; split; [done|];
            exists 0%nat; eexists; simpl;
            split; [reflexivity|]; split; [lia|done]).
  destruct (_waitUntilSecondFactorApproved env fuel tok
              (record (poll (Fulfilled true)) w)) as [r1 w1] eqn:E.
  apply IH in E as (Hw & n & last & Hl & Hn & Hlast).
  split.
  { destruct r1; injection H as <- <-; exact Hw. }
  exists (S n), last. simpl in Hl.
  split; [|split; [lia|]].
  - replace w' with w1 by (destruct r1; by injection H as <- <-).
    rewrite Hl. simpl. f_equal. apply repeat_middle.
  - destruct last as [[|]|e|];
      [destruct Hlast as [-> ->] | rewrite Hlast in H ..];
      simpl in H; by injection H as <- <-.
Qed.

(** When the server approves at the [n+1]-th poll, [n] further calls are
    enough fuel for the promise to be fulfilled. *)
Lemma wait_enough_fuel n : forall fuel w,
  (n <= fuel)%nat ->
  (forall i, (i < n)%nat ->
     serviceRequest_SecondFactorAuth env
       (repeat (poll (Fulfilled true)) i ++ log w) tok = Fulfilled true) ->
  serviceRequest_SecondFactorAuth env
    (repeat (poll (Fulfilled true)) n ++ log w) tok = Fulfilled false ->
  exists w',
    _waitUntilSecondFactorApproved env fuel tok w = (Normal (Fulfilled tt), w')
    /\ log w' = poll (Fulfilled false)
                  :: repeat (poll (Fulfilled true)) n ++ log w.
Proof.
  induction n as [|n IH]; intros fuel w Hfuel Hpending Hlast.
  - simpl in Hlast.
    destruct fuel; simpl; unfold bind, call_recorded; simpl;
      rewrite Hlast; simpl; eauto.
  - destruct fuel as [|fuel]; [lia|].
    simpl. unfold bind, call_recorded. simpl.
    pose proof (Hpending 0%nat ltac:(lia)) as H0. simpl in H0.
    rewrite H0. simpl.
    destruct (IH fuel (record (poll (Fulfilled true)) w)) as (w' & E & Hl).
    + lia.
    + intros i Hi. simpl. rewrite repeat_middle.
      apply (Hpending (S i)). lia.
    + simpl. rewrite repeat_middle. exact Hlast.
    + exists w'. rewrite E. split; [done|].
      rewrite Hl. simpl. by rewrite repeat_middle.
Qed.

(** While the server answers "pending", the promise stays pending, whatever
    the fuel. *)
Lemma wait_never_approved fuel : forall w,
  (forall h, serviceRequest_SecondFactorAuth env h tok = Fulfilled true) ->
  fst (_waitUntilSecondFactorApproved env fuel tok w) = Normal Pending.
Proof.
  induction fuel as [|fuel IH]; intros w Hp; simpl;
    unfold bind, call_recorded; simpl; rewrite Hp; simpl; [done|].
  specialize (IH (record (poll (Fulfilled true)) w) Hp).
  by destruct (_waitUntilSecondFactorApproved _ _ _ _) as [[?|?] ?];
    simpl in *; simplify_eq.
Qed.

End SecondFactor.

(** ** [createSession] *)

#[global] Hint Extern 1 (notSessionService _) => exact I : frame.

Lemma afterApproval_notSessionService ev :
  afterApproval ev -> notSessionService ev.
Proof. by destruct ev. Qed.

Lemma logsOnly_wait env tok (P : Event -> Prop) fuel :
  (forall a, P (EvSecondFactorAuthService tok a)) ->
  respects (logsOnly P) (_waitUntilSecondFactorApproved env fuel tok).
Proof.
  intros HP. induction fuel as [|fuel IH]; simpl; frame.
Qed.

Section CreateSession.

Context (lib : Imports) (env : Env).

Lemma logsOnly_sessionReturn (P : Event -> Prop) accessKey mail pass :
  respects (logsOnly P) (sessionReturn lib accessKey mail pass).
Proof. unfold sessionReturn, _getSessionElementId. frame. Qed.

Lemma logsOnly_createSession_then fuel mail pass key accessKey csr :
  respects (logsOnly notSessionService)
    (createSession_then lib env fuel mail pass key accessKey csr).
Proof.
  pose proof (logsOnly_initSession lib env notSessionService
                afterApproval_notSessionService).
  pose proof (logsOnly_sessionReturn notSessionService).
  pose proof (fun fuel tok =>
    logsOnly_wait env tok notSessionService fuel (fun _ => I)).
  unfold createSession_then, _getSessionElementId, _getSessionListId. frame.
Qed.

Lemma createSession_run fuel mail pass cid rc w r w' :
  createSession lib env fuel mail pass cid rc w = (r, w') ->
  (exists q, r = Normal q /\ (forall x, q <> Fulfilled x)
     /\ log w' = EvSaltService (trim lib (toLowerCase lib mail)) :: log w
     /\ this w' = set_persistentSession rc (this w))
  \/ (exists key accessKey data a w3,
        this w3 = set_persistentSession rc (this w)
        /\ connected w3 = connected w /\ clients w3 = clients w
        /\ log w3 = EvSessionService data a
                      :: (if rc then [EvAes128RandomKey] else [])
                      ++ EvSaltService (trim lib (toLowerCase lib mail))
                      :: log w
        /\ match a with
           | Fulfilled csr =>
               exists r',
                 createSession_then lib env fuel mail pass key accessKey csr w3
                 = (r', w')
                 /\ r = Normal (match r' with
                                | Normal q => q
                                | Throw e => Rejected e
                                end)
           | Rejected e =>
               w' = w3
               /\ r = Normal (Rejected
                    (if isConnectionError e && isTrident7 env
                     then NotAuthenticatedError
               "not connected error at login in IE -> NotAuthenticatedError"
                     else e))
           | Pending => w' = w3 /\ r = Normal Pending
           end).
Proof.
  unfold createSession, _loadUserPassphraseKey, bind, call, update_this,
    call_recorded, lift, ret. simpl.
  destruct (serviceRequest_Salt env (log w) _) as [salt|e|]; simpl;
    [|intros [= <- <-]; left; eexists; by repeat split..].
  destruct (generateKeyFromPassphrase lib pass salt) as [key|e]; simpl;
    [|intros [= <- <-]; left; eexists; by repeat split].
  destruct rc; simpl.
  - set (k := aes128RandomKey env _).
    set (data := Build_CreateSessionData _ _ _ _ _ _).
    set (w3 := record (EvSessionService data _) _).
    intros H. right. exists key, (Some k), data.
    exists (serviceRequest_Session env (log (record EvAes128RandomKey
      (record (EvSaltService (trim lib (toLowerCase lib mail)))
         (snd (update_this (set_persistentSession true) w))))) data), w3.
    repeat (split; [done|]).
    destruct (serviceRequest_Session env _ data) as [csr|e|]; simpl in *.
    + destruct (createSession_then _ _ _ _ _ _ _ _ _) as [[q|e] w4];
        injection H as <- <-; eauto.
    + destruct (isConnectionError e); simpl in *;
        [destruct (isTrident7 env)|]; simpl in *; by injection H as <- <-.
    + by injection H as <- <-.
  - set (data := Build_CreateSessionData _ _ _ _ _ _).
    set (w3 := record (EvSessionService data _) _).
    intros H. right. exists key, None, data.
    exists (serviceRequest_Session env (log
      (record (EvSaltService (trim lib (toLowerCase lib mail)))
         (snd (update_this (set_persistentSession false) w)))) data), w3.
    repeat (split; [done|]).
    destruct (serviceRequest_Session env _ data) as [csr|e|]; simpl in *.
    + destruct (createSession_then _ _ _ _ _ _ _ _ _) as [[q|e] w4];
        injection H as <- <-; eauto.
    + destruct (isConnectionError e); simpl in *;
        [destruct (isTrident7 env)|]; simpl in *; by injection H as <- <-.
    + by injection H as <- <-.
Qed.

End CreateSession.

(** *** The user agent *)

Lemma append_String c s t :
  (String c s ++ t)%string = String c (s ++ t)%string.
Proof. reflexivity. Qed.

Lemma append_empty t : (EmptyString ++ t)%string = t.
Proof. reflexivity. Qed.

Lemma startsWith_spec p : forall s,
  startsWith p s = true <-> exists post, s = (p ++ post)%string.
Proof.
  induction p as [|c p IH]; intros s; simpl.
  - split; eauto.
  - destruct s as [|d s]; simpl.
    + split; [done | by intros [post [=]]].
    + destruct (Ascii.eqb_spec c d) as [->|Hne].
      * rewrite IH. split; intros [post H]; exists post;
          rewrite append_String in *; congruence.
      * split; [done|]. intros [post H]. rewrite append_String in H.
        congruence.
Qed.

Lemma contains_cons c s p :
  startsWith p (String c s) = false ->
  contains (String c s) p <-> contains s p.
Proof.
  intros Hs. split; intros (pre & post & H).
  - destruct pre as [|c' pre];
      [rewrite append_empty in H | rewrite append_String in H].
    + assert (startsWith p (String c s) = true) as E
        by (apply startsWith_spec; eauto).
      congruence.
    + injection H as _ ->. by exists pre, post.
  - exists (String c pre), post. by rewrite append_String, H.
Qed.

(** [s.indexOf(p) != -1] says that [p] occurs in [s]. *)
Lemma indexOfFrom_spec p : forall s i,
  0 <= i -> indexOfFrom p s i <> -1 <-> contains s p.
Proof.
  induction s as [|c s IH]; intros i Hi; simpl.
  - destruct (startsWith p EmptyString) eqn:E.
    + split; [|lia]. intros _. apply startsWith_spec in E as [post ->].
      by exists EmptyString, post.
    + split; [done|]. intros (pre & post & H).
      destruct pre; [|done]. rewrite append_empty in H.
      assert (startsWith p EmptyString = true) by (apply startsWith_spec; eauto).
      congruence.
  - destruct (startsWith p (String c s)) eqn:E.
    + split; [|lia]. intros _. apply startsWith_spec in E as [post ->].
      by exists EmptyString, post.
    + rewrite IH by lia. symmetry. by apply contains_cons.
Qed.

Lemma isTrident7_spec env :
  isTrident7 env = true
  <-> exists userAgent, navigator env = Some (Some userAgent)
                        /\ contains userAgent "Trident/7.0".
Proof.
  unfold isTrident7.
  destruct (navigator env) as [[ua|]|]; [|by split; [|intros (?&[=]&_)]..].
  rewrite andb_true_iff, !negb_true_iff, Z.eqb_neq.
  unfold indexOf. rewrite indexOfFrom_spec by lia.
  split.
  - intros [_ H]. eauto.
  - intros (ua' & [= <-] & H). split; [|done].
    destruct ua; [|done]. destruct H as (pre & post & H).
    by destruct pre.
Qed.

(** *** Theorems about [createSession] *)

(** What [createSession] logged lies between the log before and after. *)
Lemma createSession_log lib env fuel mail pass cid rc w r w' new data a :
  createSession lib env fuel mail pass cid rc w = (r, w') ->
  log w' = new ++ log w ->
  In (EvSessionService data a) new ->
  exists key accessKey w3,
    this w3 = set_persistentSession rc (this w)
    /\ (exists l, log w' = l ++ log w3 /\ Forall notSessionService l)
    /\ log w3 = EvSessionService data a
                  :: (if rc then [EvAes128RandomKey] else [])
                  ++ EvSaltService (trim lib (toLowerCase lib mail))
                  :: log w
    /\ match a with
       | Fulfilled csr =>
           exists r',
             createSession_then lib env fuel mail pass key accessKey csr w3
             = (r', w')
             /\ r = Normal (match r' with
                            | Normal q => q
                            | Throw e => Rejected e
                            end)
       | Rejected e =>
           r = Normal (Rejected
                (if isConnectionError e && isTrident7 env
                 then NotAuthenticatedError
               "not connected error at login in IE -> NotAuthenticatedError"
                 else e))
       | Pending => r = Normal Pending
       end.
Proof.
  intros H Hnew Hin.
  apply createSession_run in H
    as [(q & _ & _ & Hl & _) | (key & ak & data' & a' & w3 & Hthis & _ & _ & Hl & H)].
  { rewrite Hl in Hnew. change (?x :: ?l) with ([x] ++ l) in Hnew.
    apply app_inv_tail in Hnew as <-. by destruct Hin as [[=]|[]]. }
  exists key, ak, w3. split; [done|].
  assert (exists l, log w' = l ++ log w3 /\ Forall notSessionService l)
    as Hlater.
  { destruct a' as [csr|e|].
    - destruct H as (r' & E & _).
      pose proof (logsOnly_createSession_then lib env fuel mail pass key ak
                    csr w3) as F.
      by rewrite E in F.
    - destruct H as [-> _]. by exists [].
    - destruct H as [-> _]. by exists []. }
  pose proof Hlater as (l & Hl' & Fl).
  rewrite Hl', Hl in Hnew.
  assert (new = l ++ EvSessionService data' a'
                  :: (if rc then [EvAes128RandomKey] else [])
                  ++ [EvSaltService (trim lib (toLowerCase lib mail))])
    as ->.
  { apply (app_inv_tail (log w)). rewrite <- Hnew.
    rewrite <- !app_assoc. simpl. by rewrite <- app_assoc. }
  apply in_app_or in Hin as [Hin | [Hin | Hin]].
  - rewrite Forall_forall in Fl. apply list_elem_of_In, Fl in Hin.
    destruct Hin.
  - injection Hin as -> ->. split; [done|]. split; [done|].
    destruct a as [csr|e|]; [done| |]; by destruct H.
  - destruct rc; simpl in Hin; by repeat destruct Hin as [[=]|Hin].
Qed.

(** C9.  When the request to the session service made by [createSession]
    fails with a connection error, the promise of [createSession] is
    rejected with a not-authenticated error if the user agent of the
    browser contains ["Trident/7.0"], and with the connection error itself
    otherwise (no navigator, no user agent, or another one). *)
Theorem createSession_connection_error
    lib env fuel mail pass cid rc w r w' new data msg :
  createSession lib env fuel mail pass cid rc w = (r, w') ->
  log w' = new ++ log w ->
  In (EvSessionService data (Rejected (ConnectionError msg))) new ->
  ((exists userAgent, navigator env = Some (Some userAgent)
                      /\ contains userAgent "Trident/7.0") ->
   r = Normal (Rejected (NotAuthenticatedError
         "not connected error at login in IE -> NotAuthenticatedError")))
  /\ (~ (exists userAgent, navigator env = Some (Some userAgent)
                           /\ contains userAgent "Trident/7.0") ->
      r = Normal (Rejected (ConnectionError msg))).
Proof.
  intros H Hnew Hin.
  destruct (createSession_log _ _ _ _ _ _ _ _ _ _ _ _ _ H Hnew Hin)
    as (_ & _ & _ & _ & _ & _ & ->).
  rewrite <- isTrident7_spec. simpl.
  destruct (isTrident7 env); split; intros; congruence.
Qed.

(** The session service cannot be reached, from Internet Explorer 11 and
    from another browser. *)
Lemma createSession_connection_error_witness :
  let fails := fun ev => match ev with
                         | EvSessionService _ _ =>
                             Some (ConnectionError "offline")
                         | _ => None
                         end in
  let trident := Sample.server
    (Some (Some "Mozilla/5.0 (Windows NT 6.1; Trident/7.0; rv:11.0) like Gecko"))
    fails (fun _ => Sample.alice) "user1" Sample.token [] 0 in
  let other := Sample.server (Some (Some "Mozilla/5.0 Gecko Firefox/60.0"))
    fails (fun _ => Sample.alice) "user1" Sample.token [] 0 in
  fst (createSession Sample.lib trident 0 "a@b.c" "p" "client" false newWorld)
  = Normal (Rejected (NotAuthenticatedError
      "not connected error at login in IE -> NotAuthenticatedError"))
  /\ fst (createSession Sample.lib other 0 "a@b.c" "p" "client" false
            newWorld)
     = Normal (Rejected (ConnectionError "offline")).
Proof.
  intros fails trident other.
  pose (data := {| sd_mailAddress := Some "a@b.c"; sd_user := None;
                   sd_authToken := None; sd_clientIdentifier := "client";
                   sd_authVerifier := "DA"; sd_accessKey := None |}).
  pose (new := [EvSessionService data (Rejected (ConnectionError "offline"));
                EvSaltService "a@b.c"]).
  split.
  - apply (createSession_connection_error Sample.lib trident 0 "a@b.c" "p"
             "client" false newWorld _
             (snd (createSession Sample.lib trident 0 "a@b.c" "p" "client"
                     false newWorld)) new data "offline").
    + apply surjective_pairing.
    + vm_compute. reflexivity.
    + left. vm_compute. reflexivity.
    + exists "Mozilla/5.0 (Windows NT 6.1; Trident/7.0; rv:11.0) like Gecko".
      split; [reflexivity|].
      by exists "Mozilla/5.0 (Windows NT 6.1; "%string,
                "; rv:11.0) like Gecko"%string.
  - apply (createSession_connection_error Sample.lib other 0 "a@b.c" "p"
             "client" false newWorld _
             (snd (createSession Sample.lib other 0 "a@b.c" "p" "client"
                     false newWorld)) new data "offline").
    + apply surjective_pairing.
    + vm_compute. reflexivity.
    + left. vm_compute. reflexivity.
    + intros H. apply isTrident7_spec in H. vm_compute in H. discriminate.
Defined.





(** *** The second factor *)

Lemma bind_inv {A B} (m : M A) (k : A -> M B) w r w' :
  bind m k w = (r, w') ->
  (exists e, m w = (Throw e, w') /\ r = Throw e)
  \/ (exists a w1, m w = (Normal a, w1) /\ k a w1 = (r, w')).
Proof.
  unfold bind. destruct (m w) as [[a|e] w1]; [eauto|].
  intros [= <- <-]. eauto.
Qed.

Section CreateSessionThen.

Context (lib : Imports) (env : Env).

(** [_initSession] and the construction of the result log nothing of the
    second factor. *)
Lemma logsOnly_init_and_return userId tok key accessKey mail pass :
  respects (logsOnly afterApproval)
    (then_ (Fulfilled tt)
       (fun _ => p <- _initSession lib env userId tok key;;
                 then_ p (fun _ => sessionReturn lib accessKey mail pass))).
Proof.
  pose proof (logsOnly_initSession lib env afterApproval (fun _ H => H)).
  pose proof (logsOnly_sessionReturn lib afterApproval).
  frame.
Qed.

(** The notification and the wait, when there are challenges. *)
Lemma notify_and_wait_run fuel tok challenges w rp w4 :
  (listId <- _getSessionListId lib tok;;
   elementId <- _getSessionElementId lib tok;;
   emit (EvSendSecondFactorPendingError (listId, elementId) challenges);;
   _waitUntilSecondFactorApproved env fuel tok) w = (rp, w4) ->
  (exists e, rawBytes lib tok = Throw e /\ rp = Throw e /\ w4 = w)
  \/ (exists listId elementId,
        spec_listId lib tok = Normal listId
        /\ spec_elementId lib tok = Normal elementId
        /\ _waitUntilSecondFactorApproved env fuel tok
             (record (EvSendSecondFactorPendingError (listId, elementId)
                        challenges) w)
           = (rp, w4)).
Proof.
  unfold bind. rewrite _getSessionListId_pure, _getSessionElementId_pure.
  unfold spec_listId, spec_elementId.
  destruct (rawBytes lib tok) as [raw|e]; [|intros [= <- <-]; eauto].
  simpl. intros H. right. eauto.
Qed.

(** A run of the callback of [createSession] on an answer with
    challenges. *)
Lemma createSession_then_run fuel mail pass key accessKey csr w r' w' :
  createSession_then lib env fuel mail pass key accessKey csr w = (r', w') ->
  csr_challenges csr <> [] ->
  (exists e, rawBytes lib (csr_accessToken csr) = Throw e
             /\ r' = Throw e /\ w' = w)
  \/ (exists listId elementId n last later,
        spec_listId lib (csr_accessToken csr) = Normal listId
        /\ spec_elementId lib (csr_accessToken csr) = Normal elementId
        /\ (n <= fuel)%nat
        /\ log w' = later
                     ++ EvSecondFactorAuthService (csr_accessToken csr) last
                     :: repeat (EvSecondFactorAuthService
                                  (csr_accessToken csr) (Fulfilled true)) n
                     ++ EvSendSecondFactorPendingError (listId, elementId)
                          (csr_challenges csr)
                     :: log w
        /\ Forall afterApproval later
        /\ (last <> Fulfilled false ->
            later = []
            /\ exists q, r' = Normal q /\ forall res, q <> Fulfilled res)).
Proof.
  unfold createSession_then. intros H Hch.
  destruct (csr_challenges csr) as [|c cs] eqn:Ech; [done|].
  change (0 <? length (c :: cs))%nat with true in H. cbv beta iota in H.
  apply bind_inv in H as [(e & E & ->) | (p & w4 & E & H)].
  - apply notify_and_wait_run in E
      as [(e' & Hraw & [= ->] & ->) | (listId & elementId & _ & _ & E)];
      [eauto|].
    apply wait_run in E as (_ & n & last & _ & _ & Hlast).
    destruct last as [[|]|?|]; [destruct Hlast as [Hlast _]|..]; done.
  - apply notify_and_wait_run in E
      as [(e' & _ & [=] & _) | (listId & elementId & Hlist & Helem & E)].
    apply wait_run in E as (_ & n & last & Hl & Hn & Hlast).
    right. exists listId, elementId, n, last.
    destruct last as [[|]|e|].
    + destruct Hlast as [[= ->] _]. simpl in H. injection H as <- <-.
      exists []. do 5 (split; [done|]). intros _. split; [done|].
      by eexists.
    + injection Hlast as ->.
      pose proof (logsOnly_init_and_return (csr_user csr)
                    (csr_accessToken csr) key accessKey mail pass w4)
        as (later & Hl' & Fl).
      rewrite H in Hl'. simpl in Hl'.
      exists later. do 3 (split; [done|]).
      split; [by rewrite Hl', Hl|]. by split.
    + injection Hlast as ->. simpl in H. injection H as <- <-.
      exists []. do 5 (split; [done|]). intros _. split; [done|].
      by eexists.
    + injection Hlast as ->. simpl in H. injection H as <- <-.
      exists []. do 5 (split; [done|]). intros _. split; [done|].
      by eexists.
Qed.

End CreateSessionThen.

(** C5.  Take any run of [createSession] in which the session service
    answered with at least one challenge.  Unless the access token of the
    answer does not decode (then the promise is rejected with the error of
    the decoder), the log continues after the answer with the notification
    of the pending second factor (carrying the address of the session and
    the challenges), then polls of the second-factor service answered
    "pending", then a last poll.  Whatever [_initSession] and the
    construction of the result log comes after that last poll; and unless
    the last poll was answered "not pending", there is nothing after it and
    the promise is not fulfilled. *)
Theorem createSession_second_factor
    lib env fuel mail pass cid rc w r w' new data csr :
  createSession lib env fuel mail pass cid rc w = (r, w') ->
  log w' = new ++ log w ->
  In (EvSessionService data (Fulfilled csr)) new ->
  csr_challenges csr <> [] ->
  (exists e, rawBytes lib (csr_accessToken csr) = Throw e
             /\ r = Normal (Rejected e))
  \/ (exists listId elementId n last later earlier,
        spec_listId lib (csr_accessToken csr) = Normal listId
        /\ spec_elementId lib (csr_accessToken csr) = Normal elementId
        /\ (n <= fuel)%nat
        /\ new = later
                 ++ EvSecondFactorAuthService (csr_accessToken csr) last
                 :: repeat (EvSecondFactorAuthService
                              (csr_accessToken csr) (Fulfilled true)) n
                 ++ EvSendSecondFactorPendingError (listId, elementId)
                      (csr_challenges csr)
                 :: EvSessionService data (Fulfilled csr)
                 :: earlier
        /\ Forall afterApproval later
        /\ Forall afterApproval earlier
        /\ (last <> Fulfilled false ->
            later = [] /\ forall res, r <> Normal (Fulfilled res))).
Proof.
  intros H Hnew Hin Hch.
  destruct (createSession_log _ _ _ _ _ _ _ _ _ _ _ _ _ H Hnew Hin)
    as (key & ak & w3 & _ & _ & Hl3 & r' & E & ->).
  apply createSession_then_run in E; [|exact Hch].
  destruct E
    as [(e & Hraw & -> & _)
       | (listId & elementId & n & last & later & Hlist & Helem & Hn & Hl
          & Fl & Hlast)].
  { left. eauto. }
  right.
  exists listId, elementId, n, last, later,
    ((if rc then [EvAes128RandomKey] else [])
     ++ [EvSaltService (trim lib (toLowerCase lib mail))]).
  do 3 (split; [done|]).
  split; [|split; [done|split]].
  - apply (app_inv_tail (log w)). rewrite <- Hnew, Hl, Hl3.
    rewrite <- !app_assoc. simpl. rewrite <- !app_assoc. simpl.
    by rewrite <- !app_assoc.
  - destruct rc; repeat constructor.
  - intros Hne. destruct (Hlast Hne) as (-> & q & -> & Hq).
    split; [done|]. simpl. intros res [= ->]. by destruct (Hq res).
Qed.

(** A second factor is asked for; the third poll reports the approval. *)
Lemma createSession_second_factor_witness :
  let env := Sample.server None Sample.noFailure (fun _ => Sample.alice)
               "user1" Sample.token ["totp"] 2 in
  let run := createSession Sample.lib env 5 "a@b.c" "p" "client" false
               newWorld in
  let data := {| sd_mailAddress := Some "a@b.c"; sd_user := None;
                 sd_authToken := None; sd_clientIdentifier := "client";
                 sd_authVerifier := "DA"; sd_accessKey := None |} in
  let csr := {| csr_user := "user1"; csr_accessToken := Sample.token;
                csr_challenges := ["totp"] |} in
  exists r new,
    fst run = Normal (Fulfilled r)
    /\ log (snd run) = new ++ log newWorld
    /\ ((exists e, rawBytes Sample.lib (csr_accessToken csr) = Throw e
                   /\ fst run = Normal (Rejected e))
        \/ (exists listId elementId n last later earlier,
              spec_listId Sample.lib (csr_accessToken csr) = Normal listId
              /\ spec_elementId Sample.lib (csr_accessToken csr)
                 = Normal elementId
              /\ (n <= 5)%nat
              /\ new = later
                       ++ EvSecondFactorAuthService (csr_accessToken csr) last
                       :: repeat (EvSecondFactorAuthService
                                    (csr_accessToken csr) (Fulfilled true)) n
                       ++ EvSendSecondFactorPendingError (listId, elementId)
                            (csr_challenges csr)
                       :: EvSessionService data (Fulfilled csr)
                       :: earlier
              /\ Forall afterApproval later
              /\ Forall afterApproval earlier
              /\ (last <> Fulfilled false ->
                  later = []
                  /\ forall res, fst run <> Normal (Fulfilled res)))).
Proof.
  intros env run data csr.
  pose (r := match fst run with
             | Normal (Fulfilled r) => r
             | _ => {| r_user := None; r_userGroupInfo := None;
                       r_sessionElementId := EmptyString;
                       r_credentials := None |}
             end).
  pose (new := firstn (length (log (snd run)) - length (log newWorld))
                 (log (snd run))).
  exists r, new.
  split; [vm_compute; reflexivity|].
  split; [vm_compute; reflexivity|].
  apply (createSession_second_factor Sample.lib env 5 "a@b.c" "p" "client"
           false newWorld (fst run) (snd run) new data csr).
  - apply surjective_pairing.
  - vm_compute. reflexivity.
  - vm_compute. do 11 right. left. reflexivity.
  - discriminate.
Defined.

(** ** [deleteSession] *)

Section DeleteSession.

Context (lib : Imports) (env : Env).

(** The path of the session of a token that decodes to [raw]. *)
Lemma sessionPath_of_raw token raw w :
  rawBytes lib token = Normal raw ->
  sessionPath lib token w
  = (Normal (sessionTypePath lib ++ "/"
             ++ extendedBase64 lib (take (GENERATED_ID_BYTES_LENGTH lib) raw)
             ++ "/"
             ++ urlSafeBase64 lib
                  (hash lib (drop (GENERATED_ID_BYTES_LENGTH lib) raw)))%string,
     w).
Proof.
  intros H. unfold sessionPath, bind.
  rewrite _getSessionListId_pure, _getSessionElementId_pure.
  unfold spec_listId, spec_elementId. by rewrite H.
Qed.

Lemma deleteSession_run token raw w :
  rawBytes lib token = Normal raw ->
  let path := (sessionTypePath lib ++ "/"
               ++ extendedBase64 lib
                    (take (GENERATED_ID_BYTES_LENGTH lib) raw)
               ++ "/"
               ++ urlSafeBase64 lib
                    (hash lib (drop (GENERATED_ID_BYTES_LENGTH lib) raw)))%string
  in
  deleteSession lib env token w
  = (Normal match restClient_request env (log w) path DELETE token with
            | Fulfilled _ => Fulfilled tt
            | Rejected e =>
                if isNotAuthenticatedError e then Fulfilled tt
                else Rejected e
            | Pending => Pending
            end,
     record (EvRestRequest path DELETE token (sessionModelVersion lib)) w).
Proof.
  intros H path. unfold deleteSession.
  rewrite (bind_Normal _ _ _ _ _ (sessionPath_of_raw token raw w H)).
  fold path. unfold restClient_request_, bind, call. simpl.
  destruct (restClient_request env (log w) path DELETE token) as [s|e|];
    simpl; try done.
  by destruct (isNotAuthenticatedError e).
Qed.

End DeleteSession.

(** C6.  [deleteSession] sends the token it is given in the header of the
    [DELETE] request, whatever token the facade holds, and touches nothing
    of the facade; when the server answers that the token is not
    authenticated, the promise is fulfilled. *)
Theorem deleteSession_already_gone lib env token raw w msg :
  rawBytes lib token = Normal raw ->
  let path := (sessionTypePath lib ++ "/"
               ++ extendedBase64 lib
                    (take (GENERATED_ID_BYTES_LENGTH lib) raw)
               ++ "/"
               ++ urlSafeBase64 lib
                    (hash lib (drop (GENERATED_ID_BYTES_LENGTH lib) raw)))%string
  in
  restClient_request env (log w) path DELETE token
  = Rejected (NotAuthenticatedError msg) ->
  deleteSession lib env token w
  = (Normal (Fulfilled tt),
     record (EvRestRequest path DELETE token (sessionModelVersion lib)) w).
Proof.
  intros H path Hanswer.
  rewrite (deleteSession_run lib env token raw w H). fold path.
  by rewrite Hanswer.
Qed.

(** Alice is logged in with one token; the session of another token, which
    the server no longer knows, is deleted. *)
Lemma deleteSession_already_gone_witness :
  let env := Sample.server None
    (fun ev => match ev with
               | EvRestRequest _ DELETE _ _ =>
                   Some (NotAuthenticatedError "401")
               | _ => None
               end)
    (fun _ => Sample.alice) "user1" Sample.token [] 0 in
  let w := snd (createSession Sample.lib env 0 "a@b.c" "p" "client" false
                  newWorld) in
  _accessToken (this w) = Some Sample.token
  /\ deleteSession Sample.lib env "DAsKCQgHBgUEAwIBAA" w
     = (Normal (Fulfilled tt),
        record (EvRestRequest "/rest/sys/session/2-g91FV60VJ3/Bg" DELETE
                  "DAsKCQgHBgUEAwIBAA" "22") w).
Proof.
  intros env w. split; [vm_compute; reflexivity|].
  apply (deleteSession_already_gone Sample.lib env "DAsKCQgHBgUEAwIBAA"
           [x0c; x0b; x0a; x09; x08; x07; x06; x05; x04; x03; x02; x01; x00]
           w "401").
  - vm_compute. reflexivity.
  - vm_compute. reflexivity.
Defined.

(** ** [logout] *)

Section Logout.

Context (lib : Imports) (env : Env).

(** Entropy persistence, with a user logged in: the properties of the user
    group are requested first; only the log changes. *)
Lemma storeEntropy_run w u :
  _user (this w) = Some u ->
  exists p w2 l,
    storeEntropy lib env w = (Normal p, w2)
    /\ onlyLog w w2
    /\ log w2 = l ++ EvLoadRootTutanotaProperties (group (userGroup u))
                  :: log w
    /\ (answersLogout env -> p <> Pending).
Proof.
  intros Hu.
  unfold storeEntropy, getUserGroupKey, getUserGroupId, getLoggedInUser,
    bind, get_this, deref, call, lift, ret.
  rewrite Hu. simpl.
  destruct (loadRoot_TutanotaProperties env (log w) (group (userGroup u)))
    as [props|e|] eqn:Hload; simpl.
  - rewrite Hu. simpl.
    destruct (encryptBytes lib _ _) as [enc|e]; simpl.
    + eexists _, _, [_; _]. split; [reflexivity|]. split; [done|].
      split; [reflexivity|]. intros (_ & Hupdate & _). apply Hupdate.
    + eexists _, _, [_]. split; [reflexivity|]. by repeat split.
  - eexists _, _, []. split; [reflexivity|]. by repeat split.
  - eexists _, _, []. split; [reflexivity|]. split; [done|].
    split; [reflexivity|]. intros (Hl & _). by destruct (Hl _ _ Hload).
Qed.


End Logout.




(** ** [getGroupKey] *)

(** The call when the lookup finds something truthy. *)
Lemma getGroupKey_found lib g w :
  truthy (property lib (groupKeys (this w)) g) = true ->
  getGroupKey lib g w = (Normal (property lib (groupKeys (this w)) g), w).
Proof.
  intros Hk. unfold getGroupKey, bind, get_this, ret. by rewrite Hk.
Qed.

(** The call when the lookup finds nothing, or something falsy. *)
Lemma getGroupKey_uncached lib g w :
  truthy (property lib (groupKeys (this w)) g) = false ->
  getGroupKey lib g w
  = match _user (this w) with
    | None => (Throw (TypeError "this._user is null"), w)
    | Some u =>
        match find (fun x => String.eqb (group x) g) (memberships u) with
        | None =>
            (Throw (Error ("No group with groupId " ++ g ++ " found!")%string),
             w)
        | Some m =>
            match decryptKey lib
                    (property lib (groupKeys (this w)) (group (userGroup u)))
                    (symEncGKey m) with
            | Normal k =>
                (Normal (Some (Key k)),
                 {| this := set_groupKeys (<[g := k]> (groupKeys (this w)))
                              (this w);
                    state_user := state_user w; connected := connected w;
                    clients := clients w;
                    log := EvDecryptKey (symEncGKey m) :: log w |})
            | Throw e => (Throw e, record (EvDecryptKey (symEncGKey m)) w)
            end
        end
    end.
Proof.
  intros Hk.
  unfold getGroupKey, _getMembership, getUserGroupId, getLoggedInUser,
    decryptKey_, bind, get_this, deref, update_this, emit, lift, ret, throw.
  rewrite Hk. simpl.
  destruct (_user (this w)) as [u|] eqn:Hu; simpl; rewrite ?Hu; simpl;
    [|reflexivity].
  destruct (find (fun x => String.eqb (group x) g) (memberships u))
    as [m|]; simpl; [|reflexivity].
  destruct (decryptKey lib _ (symEncGKey m)) as [k|e]; simpl; [|reflexivity].
  by rewrite property_insert_eq.
Qed.




(** ** The claims about the session's address *)

(** C1.  The address of a session is a function of the token alone:
    [_getSessionElementId] is the url-safe base64 of the hash of the raw
    bytes after the first [GENERATED_ID_BYTES_LENGTH], [_getSessionListId]
    the extended base64 of the first [GENERATED_ID_BYTES_LENGTH] raw bytes
    (or the error of the decoder); neither reads nor changes the world, so
    the same token yields the same pair in every state. *)
Theorem session_address_from_token lib token :
  (forall w, _getSessionElementId lib token w = (spec_elementId lib token, w))
  /\ (forall w, _getSessionListId lib token w = (spec_listId lib token, w))
  /\ (forall w1 w2,
        fst (_getSessionListId lib token w1)
        = fst (_getSessionListId lib token w2)
        /\ fst (_getSessionElementId lib token w1)
           = fst (_getSessionElementId lib token w2)).
Proof.
  split; [|split]; intros.
  - apply _getSessionElementId_pure.
  - apply _getSessionListId_pure.
  - by rewrite !_getSessionListId_pure, !_getSessionElementId_pure.
Qed.

(** C8, as stated, fails.  ["AAAA"] is base64url for three zero bytes,
    fewer than the nine of a generated id, and it has an address. *)
Lemma short_token_is_addressed :
  rawBytes Sample.lib "AAAA" = Normal [x00; x00; x00]
  /\ (length [x00; x00; x00] < GENERATED_ID_BYTES_LENGTH Sample.lib)%nat
  /\ fst (_getSessionListId Sample.lib "AAAA" newWorld) = Normal "----"
  /\ fst (_getSessionElementId Sample.lib "AAAA" newWorld) = Normal "AA".
Proof. repeat split; vm_compute; lia. Qed.

(** C8 (as amended).  When the decoder throws on the token, both
    computations throw that error.  A token that decodes to fewer bytes
    than [GENERATED_ID_BYTES_LENGTH] has an address: the list id is the
    extended base64 of all its bytes, the element id the url-safe base64 of
    the hash of no bytes. *)
Theorem session_address_decoding lib token w :
  (forall e, rawBytes lib token = Throw e ->
     _getSessionListId lib token w = (Throw e, w)
     /\ _getSessionElementId lib token w = (Throw e, w))
  /\ (forall raw, rawBytes lib token = Normal raw ->
        (length raw < GENERATED_ID_BYTES_LENGTH lib)%nat ->
        _getSessionListId lib token w = (Normal (extendedBase64 lib raw), w)
        /\ _getSessionElementId lib token w
           = (Normal (urlSafeBase64 lib (hash lib [])), w)).
Proof.
  rewrite _getSessionListId_pure, _getSessionElementId_pure.
  unfold spec_listId, spec_elementId.
  split.
  - by intros e ->.
  - intros raw -> Hlen. by rewrite take_ge, drop_ge by lia.
Qed.

(** A token of one character is no base64url; ["AAAA"] is too short. *)
Lemma session_address_decoding_witness :
  _getSessionListId Sample.lib "A" newWorld
  = (Throw (Error "Illegal base64 string."), newWorld)
  /\ _getSessionElementId Sample.lib "AAAA" newWorld
     = (Normal (urlSafeBase64 Sample.lib (hash Sample.lib [])), newWorld).
Proof.
  split.
  - apply (session_address_decoding Sample.lib "A" newWorld).
    vm_compute. reflexivity.
  - apply (proj2 (session_address_decoding Sample.lib "AAAA" newWorld)
             [x00; x00; x00]); [vm_compute; reflexivity | simpl; lia].
Defined.

(** ** Failures outside of [_initSession] *)

(** C2, as stated, fails.  The salt cannot be fetched: [createSession] is
    rejected, and the persistent-session flag it set at its start stays
    set. *)
Lemma createSession_failure_keeps_flag :
  let env := Sample.server None
    (fun ev => match ev with
               | EvSaltService _ => Some (ConnectionError "offline")
               | _ => None
               end)
    (fun _ => Sample.alice) "user1" Sample.token [] 0 in
  let run := createSession Sample.lib env 0 "a@b.c" "p" "client" true
               newWorld in
  fst run = Normal (Rejected (ConnectionError "offline"))
  /\ _persistentSession (this (snd run)) = true
  /\ ~ noSession (this (snd run)).
Proof.
  intros env run. split; [vm_compute; reflexivity|].
  split; [vm_compute; reflexivity|].
  intros (_ & _ & _ & _ & _ & H). vm_compute in H. discriminate.
Qed.

(** When the token of a session that is not persistent does not decode,
    [deleteSession] throws inside the callback of [finally], before the
    reset is chained: [logout] is rejected with the error of the decoder
    and the facade keeps the session; the event bus client is closed. *)
Theorem logout_undecodable_token lib env w u c tok e :
  _user (this w) = Some u ->
  _eventBusClient (this w) = Some c ->
  _persistentSession (this w) = false ->
  _accessToken (this w) = Some tok ->
  rawBytes lib tok = Throw e ->
  answersLogout env ->
  exists w',
    logout lib env w = (Normal (Rejected e), w')
    /\ this w' = this w
    /\ connected w' = connected w ∖ {[c]}.
Proof.
  intros Hu Hc Hp Htok Hraw Henv.
  unfold logout. unfold bind at 1. unfold get_this at 1. rewrite Hu.
  unfold bind at 1. unfold get_this at 1. rewrite Hc.
  unfold bind at 1. simpl deref. unfold ret at 1.
  unfold bind at 1. unfold eventBusClient_close at 1.
  set (w1 := Build_World _ _ _ _ _).
  destruct (storeEntropy_run lib env w1 u Hu)
    as (p & w2 & l & E & (Hthis & _ & Hconn & _) & _ & Hsettled).
  rewrite (bind_Normal _ _ _ _ _ E).
  simpl in Hthis, Hconn.
  exists w2. split; [|by split].
  assert (Hcb :
    (persistent <- get_this _persistentSession;;
     promise <-
       (if negb persistent
        then token <- get_this _accessToken;;
             token <- deref "accessToken is null" token;;
             deleteSession lib env token
        else ret (Fulfilled tt));;
     finally_ promise (_reset;; ret (Fulfilled tt))) w2 = (Throw e, w2)).
  { unfold bind at 1. unfold get_this at 1. rewrite Hthis, Hp. simpl negb.
    cbv iota. unfold bind at 1. unfold bind at 1. unfold get_this at 1.
    rewrite Hthis, Htok. unfold bind at 1. simpl deref. unfold ret at 1.
    unfold deleteSession.
    by rewrite (bind_Throw _ _ _ _ _ (sessionPath_Throw lib tok e w2 Hraw)). }
  unfold bind at 1.
  destruct p as [[]|e'|]; [| |by destruct (Hsettled Henv)];
    simpl; by rewrite Hcb.
Qed.

(** The server hands out the token ["A"]: [createSession] is rejected when
    it computes the element id for its result, after [_initSession] has
    succeeded; the [logout] that follows is rejected too and Alice stays
    logged in. *)
Lemma logout_undecodable_token_witness :
  let env := Sample.server None Sample.noFailure (fun _ => Sample.alice)
               "user1" "A" [] 0 in
  let w := snd (createSession Sample.lib env 0 "a@b.c" "p" "client" false
                  newWorld) in
  exists w',
    logout Sample.lib env w
    = (Normal (Rejected (Error "Illegal base64 string.")), w')
    /\ this w' = this w
    /\ connected w' = connected w ∖ {[0%nat]}.
Proof.
  intros env w.
  apply (logout_undecodable_token Sample.lib env w Sample.alice 0%nat "A"
           (Error "Illegal base64 string.")); try (vm_compute; reflexivity).
  repeat split; intros; vm_compute; discriminate.
Defined.

(** * Further properties *)

(** ** An established session *)

Section Established.

Context (lib : Imports) (env : Env).

(** What a fulfilled [_initSession] leaves. *)
Lemma initSession_fulfilled userId tok key w w' :
  _initSession lib env userId tok key w = (Normal (Fulfilled tt), w') ->
  exists u info k c,
    load_User env (log w) userId = Fulfilled u
    /\ decryptKey lib (Some (Key key)) (symEncGKey (userGroup u)) = Normal k
    /\ this w'
       = {| _user := Some u; _userGroupInfo := Some info;
            _accessToken := Some tok;
            _authVerifierAfterNextRequest
              := _authVerifierAfterNextRequest (this w);
            groupKeys := <[group (userGroup u) := k]> (groupKeys (this w));
            _eventBusClient := Some c;
            _persistentSession := _persistentSession (this w) |}
    /\ _eventBusClient (this w) = Some c
    /\ connected w' = {[c]} ∪ connected w
    /\ clients w' = clients w
    /\ state_user w' = Some u.
Proof.
  unfold _initSession, loadEntropy, _getInfoMails, getUserGroupKey,
    getUserGroupId, getLoggedInUser, isExternalUserLoggedIn, decryptKey_,
    eventBusClient_connect_, bind, then_, catch_, try_catch, get_this,
    update_this, set_state_user, emit, call, lift, deref, ret, throw.
  intros H. run_cases H.
  all: injection H as <-.
  all: destruct w as [[] ? ? ? ?]; simpl in *; subst.
  all: do 4 eexists; repeat split; eassumption.
Qed.


(** What [sessionReturn] hands back is read off the facade; it changes
    nothing. *)
Lemma sessionReturn_fulfilled accessKey mail pass w r w' :
  sessionReturn lib accessKey mail pass w = (Normal (Fulfilled r), w') ->
  w' = w
  /\ r_user r = _user (this w)
  /\ r_userGroupInfo r = _userGroupInfo (this w)
  /\ exists tok,
      _accessToken (this w) = Some tok
      /\ spec_elementId lib tok = Normal (r_sessionElementId r)
      /\ match accessKey with
         | Some k =>
             exists enc,
               encryptString lib k pass = Normal enc
               /\ r_credentials r
                  = Some {| mailAddress := mail; accessToken := tok;
                            encryptedPassword := uint8ArrayToBase64 lib enc |}
         | None => r_credentials r = None
         end.
Proof.
  unfold sessionReturn, bind, get_this, deref, lift, ret, throw.
  destruct (_accessToken (this w)) as [tok|] eqn:Htok; [|done].
  rewrite _getSessionElementId_pure.
  destruct (spec_elementId lib tok) as [elementId|e] eqn:Hid; [|done].
  destruct accessKey as [k|].
  - destruct (encryptString lib k pass) as [enc|e] eqn:Henc; [|done].
    simpl. intros [= <- <-]. simpl. do 3 (split; [done|]). exists tok.
    do 2 (split; [done|]). by exists enc.
  - simpl. intros [= <- <-]. simpl. do 3 (split; [done|]). by exists tok.
Qed.

(** A fulfilled run of the callback of [createSession]: the wait for the
    second factor only logs, then [_initSession] is fulfilled and the result
    is built. *)
Lemma createSession_then_fulfilled fuel mail pass key accessKey csr w r w' :
  createSession_then lib env fuel mail pass key accessKey csr w
  = (Normal (Fulfilled r), w') ->
  exists w1 w2,
    onlyLog w w1
    /\ _initSession lib env (csr_user csr) (csr_accessToken csr) key w1
       = (Normal (Fulfilled tt), w2)
    /\ sessionReturn lib accessKey mail pass w2 = (Normal (Fulfilled r), w').
Proof.
  unfold createSession_then. intros H.
  apply bind_inv in H as [(e & _ & [=]) | (p & w1 & E & H)].
  assert (onlyLog w w1 /\ (p = Fulfilled tt \/ forall x, p <> Fulfilled x))
    as [Hw Hp].
  { destruct (0 <? length (csr_challenges csr))%nat.
    - apply notify_and_wait_run in E
        as [(e' & _ & [=] & _) | (listId & elementId & _ & _ & E)].
      apply wait_run in E as (Hw & n & last & _ & _ & Hlast).
      split; [exact Hw|].
      destruct last as [[|]|e|]; [destruct Hlast as [Hlast _]|..];
        injection Hlast as ->; auto.
    - injection E as <- <-. split; [done|]. by left. }
  destruct Hp as [-> | Hp].
  2: { destruct p as [x|e|]; [by destruct (Hp x)|done..]. }
  simpl in H.
  destruct (bind _ _ w1) as [[q|e] w3] eqn:E'; [|done].
  injection H as -> ->.
  apply bind_inv in E' as [(e & _ & [=]) | (p & w2 & Einit & H)].
  destruct p as [[]|e|]; [|done..]. simpl in H.
  destruct (sessionReturn lib accessKey mail pass w2) as [[q|e] w3] eqn:Er;
    [|done].
  injection H as -> ->. by exists w1, w2.
Qed.

(** A fulfilled run of [createSession]: the salt was served, the session
    service answered, and the callback ran to its end. *)
Lemma createSession_fulfilled_inv fuel mail pass cid rc w r w' :
  createSession lib env fuel mail pass cid rc w = (Normal (Fulfilled r), w') ->
  let mail' := trim lib (toLowerCase lib mail) in
  let accessKey :=
    if rc then Some (aes128RandomKey env (EvSaltService mail' :: log w))
    else None in
  exists salt key csr w3,
    serviceRequest_Salt env (log w) mail' = Fulfilled salt
    /\ generateKeyFromPassphrase lib pass salt = Normal key
    /\ this w3 = set_persistentSession rc (this w)
    /\ state_user w3 = state_user w
    /\ connected w3 = connected w
    /\ clients w3 = clients w
    /\ log w3
       = EvSessionService
           {| sd_mailAddress := Some mail'; sd_user := None;
              sd_authToken := None; sd_clientIdentifier := cid;
              sd_authVerifier := createAuthVerifierAsBase64Url lib key;
              sd_accessKey := option_map (keyToUint8Array lib) accessKey |}
           (Fulfilled csr)
         :: (if rc then [EvAes128RandomKey] else [])
         ++ EvSaltService mail' :: log w
    /\ createSession_then lib env fuel mail pass key accessKey csr w3
       = (Normal (Fulfilled r), w').
Proof.
  unfold createSession, _loadUserPassphraseKey, bind, call, update_this,
    call_recorded, lift, ret. simpl.
  destruct (serviceRequest_Salt env (log w) _) as [salt|e|] eqn:Hsalt; simpl;
    [|done..].
  destruct (generateKeyFromPassphrase lib pass salt) as [key|e] eqn:Hkey;
    simpl; [|done].
  destruct rc; simpl.
  - destruct (serviceRequest_Session env _ _) as [csr|e|] eqn:Hs; simpl.
    + destruct (createSession_then _ _ _ _ _ _ _ _ _) as [[q|e] w4] eqn:E;
        [|done].
      intros [= -> ->]. exists salt, key, csr. eexists.
      do 2 (split; [done|]).
      split; [|split; [|split; [|split; [|split; [|exact E]]]]]; done.
    + destruct (isConnectionError e); simpl;
        [destruct (isTrident7 env)|]; done.
    + done.
  - destruct (serviceRequest_Session env _ _) as [csr|e|] eqn:Hs; simpl.
    + destruct (createSession_then _ _ _ _ _ _ _ _ _) as [[q|e] w4] eqn:E;
        [|done].
      intros [= -> ->]. exists salt, key, csr. eexists.
      do 2 (split; [done|]).
      split; [|split; [|split; [|split; [|split; [|exact E]]]]]; done.
    + destruct (isConnectionError e); simpl;
        [destruct (isTrident7 env)|]; done.
    + done.
Qed.

End Established.



(** X3.  A fulfilled [createSession] made exactly one request to the session
    service, for the mail address in lower case and trimmed.  The access
    token the facade holds is the one that request was answered with, and
    a user who was logged in before has the id it was answered with.
    With [returnCredentials], the request carried an access key, and the
    credentials of the result hold the mail address as it was given, the
    access token and the passphrase encrypted with that access key;
    without, the request carried no access key and the result holds no
    credentials. *)
Theorem createSession_credentials
    lib env fuel mail pass cid rc w r w' new :
  createSession lib env fuel mail pass cid rc w = (Normal (Fulfilled r), w') ->
  log w' = new ++ log w ->
  exists data csr,
    In (EvSessionService data (Fulfilled csr)) new
    /\ (forall data' a,
          In (EvSessionService data' a) new ->
          data' = data /\ a = Fulfilled csr)
    /\ sd_mailAddress data = Some (trim lib (toLowerCase lib mail))
    /\ sd_user data = None
    /\ sd_authToken data = None
    /\ sd_clientIdentifier data = cid
    /\ _accessToken (this w') = Some (csr_accessToken csr)
    /\ (forall u0, _user (this w) = Some u0 -> _id u0 = csr_user csr)
    /\ if rc
       then exists key enc,
              sd_accessKey data = Some (keyToUint8Array lib key)
              /\ encryptString lib key pass = Normal enc
              /\ r_credentials r
                 = Some {| mailAddress := mail;
                           accessToken := csr_accessToken csr;
                           encryptedPassword := uint8ArrayToBase64 lib enc |}
       else sd_accessKey data = None /\ r_credentials r = None.
Proof.
  intros H Hnew.
  apply createSession_fulfilled_inv in H
    as (salt & key & csr & w3 & _ & _ & Hthis & _ & _ & _ & Hl & H).
  match type of H with
  | createSession_then _ _ _ _ _ _ ?ak _ _ = _ =>
      pose proof (logsOnly_createSession_then lib env fuel mail pass key ak
                    csr w3) as (later & Hlater & Flater)
  end.
  rewrite H in Hlater. simpl in Hlater.
  apply createSession_then_fulfilled in H
    as (w1 & w2 & (Hthis1 & _) & Hinit & H).
  apply sessionReturn_fulfilled in H
    as (-> & _ & _ & tok & Htok & _ & Hcred).
  pose proof Hinit as Hguard.
  apply initSession_fulfilled in Hinit as (u & info & k & c & _ & _ & Hthis2 & _).
  rewrite Hthis2 in Htok. injection Htok as <-.
  set (data := Build_CreateSessionData _ _ _ _ _ _) in *.
  assert (new = later ++ EvSessionService data (Fulfilled csr)
                  :: (if rc then [EvAes128RandomKey] else [])
                  ++ [EvSaltService (trim lib (toLowerCase lib mail))])
    as ->.
  { apply (app_inv_tail (log w)). rewrite <- Hnew, Hlater, Hl.
    rewrite <- !app_assoc. simpl. by rewrite <- app_assoc. }
  exists data, csr.
  split; [apply in_or_app; right; by left|].
  split.
  { intros data' a Hin.
    apply in_app_or in Hin as [Hin | [Hin | Hin]].
    - rewrite Forall_forall in Flater. apply list_elem_of_In, Flater in Hin.
      destruct Hin.
    - by injection Hin as <- <-.
    - destruct rc; simpl in Hin; by repeat destruct Hin as [[=]|Hin]. }
  do 4 (split; [done|]).
  split; [by rewrite Hthis2|].
  split.
  { intros u0 Hu0.
    apply initSession_inv in Hguard
      as [(? & _ & _ & [=] & _) | (Hsame & _)].
    rewrite Hthis1, Hthis in Hsame. symmetry. by apply Hsame. }
  destruct rc; simpl in *.
  - destruct Hcred as (enc & Henc & Hcred). eauto.
  - done.
Qed.

(** Alice logs in and asks for credentials. *)
Lemma createSession_credentials_witness :
  let run := createSession Sample.lib Sample.friendly 0 "a@b.c" "p" "client"
               true newWorld in
  exists r new,
    fst run = Normal (Fulfilled r)
    /\ log (snd run) = new ++ log newWorld
    /\ exists data csr,
        In (EvSessionService data (Fulfilled csr)) new
        /\ (forall data' a,
              In (EvSessionService data' a) new ->
              data' = data /\ a = Fulfilled csr)
        /\ sd_mailAddress data = Some "a@b.c"
        /\ sd_user data = None
        /\ sd_authToken data = None
        /\ sd_clientIdentifier data = "client"
        /\ _accessToken (this (snd run)) = Some (csr_accessToken csr)
        /\ (forall u0, _user (this newWorld) = Some u0 ->
                       _id u0 = csr_user csr)
        /\ exists key enc,
            sd_accessKey data = Some (keyToUint8Array Sample.lib key)
            /\ encryptString Sample.lib key "p" = Normal enc
            /\ r_credentials r
               = Some {| mailAddress := "a@b.c";
                         accessToken := csr_accessToken csr;
                         encryptedPassword
                           := uint8ArrayToBase64 Sample.lib enc |}.
Proof.
  intros run.
  pose (r := match fst run with
             | Normal (Fulfilled r) => r
             | _ => {| r_user := None; r_userGroupInfo := None;
                       r_sessionElementId := EmptyString;
                       r_credentials := None |}
             end).
  pose (new := firstn (length (log (snd run)) - length (log newWorld))
                 (log (snd run))).
  exists r, new.
  split; [vm_compute; reflexivity|].
  split; [vm_compute; reflexivity|].
  apply (createSession_credentials Sample.lib Sample.friendly 0 "a@b.c" "p"
           "client" true newWorld r (snd run) new).
  - vm_compute. reflexivity.
  - vm_compute. reflexivity.
Defined.

(** ** [createExternalSession] *)

Section External.

Context (lib : Imports) (env : Env).

(** A run of [createExternalSession] that got past its guard and the key
    derivation: one request to the session service, then the callback. *)
Lemma createExternalSession_run userId pass salt cid rc w r w' :
  createExternalSession lib env userId pass salt cid rc w = (r, w') ->
  (exists e, r = Throw e /\ w' = w)
  \/ (_user (this w) = None
      /\ exists key a w3,
          let accessKey :=
            if rc then Some (aes128RandomKey env (log w)) else None in
          generateKeyFromPassphrase lib pass salt = Normal key
          /\ onlyLog w w3
          /\ log w3
             = EvSessionService
                 {| sd_mailAddress := None; sd_user := Some userId;
                    sd_authToken := Some (urlSafeBase64 lib (hash lib salt));
                    sd_clientIdentifier := cid;
                    sd_authVerifier := createAuthVerifierAsBase64Url lib key;
                    sd_accessKey
                      := option_map (keyToUint8Array lib) accessKey |} a
               :: (if rc then [EvAes128RandomKey] else []) ++ log w
          /\ then_ a (fun csr =>
               p <- _initSession lib env (csr_user csr) (csr_accessToken csr)
                      key;;
               then_ p (fun _ => sessionReturn lib accessKey userId pass)) w3
             = (r, w')).
Proof.
  unfold createExternalSession. unfold bind at 1. unfold get_this at 1.
  destruct (_user (this w)) as [u|] eqn:Hu.
  { simpl. intros [= <- <-]. left. eauto. }
  unfold bind at 1. unfold ret at 1. unfold bind at 1. unfold lift at 1.
  destruct (generateKeyFromPassphrase lib pass salt) as [key|e] eqn:Hkey.
  2: { intros [= <- <-]. left. eauto. }
  intros H. right. split; [done|]. exists key.
  destruct rc.
  - unfold bind at 1 2, call, ret in H. simpl in H.
    unfold bind at 1, call_recorded in H.
    eexists _, _. split; [done|]. split; [|split; [|exact H]]; done.
  - unfold bind at 1, ret in H.
    unfold bind at 1, call_recorded in H.
    eexists _, _. split; [done|]. split; [|split; [|exact H]]; done.
Qed.

End External.

(** X4.  A fulfilled [createExternalSession] started with no user logged in and
    made exactly one request to the session service: for the user id, with
    the url-safe base64 of the hash of the salt as the authentication token,
    and without a mail address.  The facade then holds the session as after
    [createSession], except that the flag for a persistent session is left
    as it was, whatever [returnCredentials] is.  With [returnCredentials],
    the credentials of the result carry the user id in the place of the mail
    address. *)
Theorem createExternalSession_establishes
    lib env userId pass salt cid rc w r w' new :
  createExternalSession lib env userId pass salt cid rc w
  = (Normal (Fulfilled r), w') ->
  log w' = new ++ log w ->
  _user (this w) = None
  /\ (exists u info tok k c,
        this w'
        = {| _user := Some u; _userGroupInfo := Some info;
             _accessToken := Some tok;
             _authVerifierAfterNextRequest
               := _authVerifierAfterNextRequest (this w);
             groupKeys := <[group (userGroup u) := k]> (groupKeys (this w));
             _eventBusClient := Some c;
             _persistentSession := _persistentSession (this w) |}
        /\ _eventBusClient (this w) = Some c
        /\ connected w' = {[c]} ∪ connected w
        /\ r_user r = Some u
        /\ spec_elementId lib tok = Normal (r_sessionElementId r)
        /\ match r_credentials r with
           | Some cred =>
               rc = true /\ mailAddress cred = userId
               /\ accessToken cred = tok
           | None => rc = false
           end)
  /\ exists data csr,
      In (EvSessionService data (Fulfilled csr)) new
      /\ (forall data' a,
            In (EvSessionService data' a) new ->
            data' = data /\ a = Fulfilled csr)
      /\ sd_mailAddress data = None
      /\ sd_user data = Some userId
      /\ sd_authToken data = Some (urlSafeBase64 lib (hash lib salt))
      /\ sd_clientIdentifier data = cid
      /\ _accessToken (this w') = Some (csr_accessToken csr).
Proof.
  intros H Hnew.
  apply createExternalSession_run in H
    as [(e & [=] & _) | (Hu & key & a & w3 & Hkey & Hw3 & Hl & H)].
  split; [done|].
  destruct Hw3 as (Hthis & _ & Hconn & _).
  match type of H with
  | then_ _ ?cb _ = _ =>
      assert (respects (logsOnly notSessionService) (then_ a cb)) as Hframe
  end.
  { pose proof (logsOnly_initSession lib env notSessionService
                  afterApproval_notSessionService).
    pose proof (logsOnly_sessionReturn lib notSessionService).
    frame. }
  specialize (Hframe w3). rewrite H in Hframe.
  destruct Hframe as (later & Hlater & Flater). simpl in Hlater.
  destruct a as [csr|e|]; [|done..]. simpl in H.
  destruct (bind _ _ w3) as [[q|e] w4] eqn:E; [|done].
  injection H as -> ->.
  apply bind_inv in E as [(e & _ & [=]) | (p & w2 & Hinit & H)].
  destruct p as [[]|e|]; [|done..]. simpl in H.
  destruct (sessionReturn _ _ _ _ w2) as [[q|e] w4] eqn:Er; [|done].
  injection H as -> ->.
  apply sessionReturn_fulfilled in Er
    as (-> & Hru & _ & tok & Htok & Hid & Hcred).
  apply initSession_fulfilled in Hinit
    as (u & info & k & c & _ & _ & Hthis2 & Hc & Hconn2 & _).
  rewrite Hthis2 in Htok, Hru. simpl in Htok, Hru. injection Htok as <-.
  rewrite Hthis in Hthis2, Hc. rewrite Hconn in Hconn2.
  split.
  { exists u, info, (csr_accessToken csr), k, c.
    do 5 (split; [done|]).
    destruct rc.
    - destruct Hcred as (enc & _ & ->). done.
    - by rewrite Hcred. }
  set (data := Build_CreateSessionData _ _ _ _ _ _) in *.
  assert (new = later ++ EvSessionService data (Fulfilled csr)
                  :: (if rc then [EvAes128RandomKey] else []))
    as ->.
  { apply (app_inv_tail (log w)). rewrite <- Hnew, Hlater, Hl.
    by rewrite <- !app_assoc. }
  exists data, csr.
  split; [apply in_or_app; right; by left|].
  split.
  { intros data' a Hin.
    apply in_app_or in Hin as [Hin | [Hin | Hin]].
    - rewrite Forall_forall in Flater. apply list_elem_of_In, Flater in Hin.
      destruct Hin.
    - by injection Hin as <- <-.
    - destruct rc; simpl in Hin; by repeat destruct Hin as [[=]|Hin]. }
  do 4 (split; [done|]). by rewrite Hthis2.
Qed.

(** An external user logs in with the salt of the link and asks for
    credentials: the session is not marked as persistent. *)
Lemma createExternalSession_establishes_witness :
  let run := createExternalSession Sample.lib Sample.friendly "user1" "p"
               [x05; x06] "client" true newWorld in
  exists r new,
    fst run = Normal (Fulfilled r)
    /\ log (snd run) = new ++ log newWorld
    /\ _persistentSession (this (snd run)) = false
    /\ _user (this newWorld) = None
    /\ (exists u info tok k c,
          this (snd run)
          = {| _user := Some u; _userGroupInfo := Some info;
               _accessToken := Some tok;
               _authVerifierAfterNextRequest
                 := _authVerifierAfterNextRequest (this newWorld);
               groupKeys
                 := <[group (userGroup u) := k]> (groupKeys (this newWorld));
               _eventBusClient := Some c;
               _persistentSession := _persistentSession (this newWorld) |}
          /\ _eventBusClient (this newWorld) = Some c
          /\ connected (snd run) = {[c]} ∪ connected newWorld
          /\ r_user r = Some u
          /\ spec_elementId Sample.lib tok = Normal (r_sessionElementId r)
          /\ match r_credentials r with
             | Some cred =>
                 true = true /\ mailAddress cred = "user1"
                 /\ accessToken cred = tok
             | None => true = false
             end)
    /\ exists data csr,
        In (EvSessionService data (Fulfilled csr)) new
        /\ (forall data' a,
              In (EvSessionService data' a) new ->
              data' = data /\ a = Fulfilled csr)
        /\ sd_mailAddress data = None
        /\ sd_user data = Some "user1"
        /\ sd_authToken data
           = Some (urlSafeBase64 Sample.lib (hash Sample.lib [x05; x06]))
        /\ sd_clientIdentifier data = "client"
        /\ _accessToken (this (snd run)) = Some (csr_accessToken csr).
Proof.
  intros run.
  pose (r := match fst run with
             | Normal (Fulfilled r) => r
             | _ => {| r_user := None; r_userGroupInfo := None;
                       r_sessionElementId := EmptyString;
                       r_credentials := None |}
             end).
  pose (new := firstn (length (log (snd run)) - length (log newWorld))
                 (log (snd run))).
  exists r, new.
  split; [vm_compute; reflexivity|].
  split; [vm_compute; reflexivity|].
  split; [vm_compute; reflexivity|].
  apply (createExternalSession_establishes Sample.lib Sample.friendly "user1"
           "p" [x05; x06] "client" true newWorld r (snd run) new).
  - vm_compute. reflexivity.
  - vm_compute. reflexivity.
Defined.

(** ** [resumeSession] *)

Section Resume.

Context (lib : Imports) (env : Env).

(** What [_initSession] leaves of the facade, by outcome. *)
Lemma initSession_outcome userId tok key w r w' :
  _initSession lib env userId tok key w = (r, w') ->
  match r with
  | Throw _ => w' = w
  | Normal (Rejected _) => this w' = cleared (clients w)
  | Normal (Fulfilled _) =>
      exists u info k c,
        this w'
        = {| _user := Some u; _userGroupInfo := Some info;
             _accessToken := Some tok;
             _authVerifierAfterNextRequest
               := _authVerifierAfterNextRequest (this w);
             groupKeys := <[group (userGroup u) := k]> (groupKeys (this w));
             _eventBusClient := Some c;
             _persistentSession := _persistentSession (this w) |}
        /\ _eventBusClient (this w) = Some c
        /\ connected w' = {[c]} ∪ connected w
        /\ clients w' = clients w
  | Normal Pending => True
  end.
Proof.
  intros H. destruct r as [[[]|e|]|e]; [| |done|].
  - apply initSession_fulfilled in H
      as (u & info & k & c & _ & _ & ? & ? & ? & ? & _).
    by exists u, info, k, c.
  - apply initSession_inv in H as [(? & _ & _ & [=] & _) | (_ & p & w2 & F & H)].
    destruct F as [[_ Hcl] _]. simpl in Hcl.
    apply catch_reset in H. destruct p as [a|e'|].
    + by destruct H as [[=] _].
    + destruct H as (_ & Hthis & _). by rewrite Hthis, Hcl.
    + by destruct H as [[=] _].
  - apply initSession_inv in H as [(? & _ & _ & _ & ->) | (_ & p & w2 & _ & H)];
      [done|].
    apply catch_reset in H. by destruct p; destruct H as [[=] _].
Qed.

(** The steps of [resumeSession] before [_initSession] only log. *)
Lemma resumeSession_run credentials externalUserSalt w r w' :
  resumeSession lib env credentials externalUserSalt w = (r, w') ->
  (exists e, rawBytes lib (accessToken credentials) = Throw e
             /\ r = Throw e /\ w' = w)
  \/ (exists raw q,
        rawBytes lib (accessToken credentials) = Normal raw
        /\ r = Normal q
        /\ ((onlyLog w w' /\ forall res, q <> Fulfilled res)
            \/ exists userId key w1 ri w2,
                onlyLog w w1
                /\ _initSession lib env userId (accessToken credentials) key
                     w1 = (ri, w2)
                /\ match ri with
                   | Normal (Fulfilled _) =>
                       exists pass rs,
                         sessionReturn lib None (mailAddress credentials)
                           pass
                           (snd (update_this (set_persistentSession true)
                                   w2))
                         = (rs, w')
                         /\ q = match rs with
                                | Normal q' => q'
                                | Throw e => Rejected e
                                end
                   | Normal (Rejected e) => q = Rejected e /\ w' = w2
                   | Normal Pending => q = Pending /\ w' = w2
                   | Throw e => q = Rejected e /\ w' = w2
                   end)).
Proof.
  intros H. unfold resumeSession, _loadSessionData in H.
  destruct (rawBytes lib (accessToken credentials)) as [raw|e] eqn:Hraw.
  2: { left. exists e. split; [done|].
       unfold bind at 1 2 in H. by rewrite (sessionPath_Throw _ _ _ _ Hraw) in H;
         injection H as <- <-. }
  right. exists raw.
  unfold bind at 1 2 in H. rewrite (sessionPath_of_raw _ _ _ _ Hraw) in H.
  remember (_initSession lib env) as init eqn:Hinit.
  remember (sessionReturn lib None (mailAddress credentials)) as sret
    eqn:Hsret.
  unfold restClient_request_, _loadUserPassphraseKey, bind, call, then_,
    lift, ret in H.
  run_cases H; injection H as <- <-;
    (eexists; split; [reflexivity|]; split; [reflexivity|]);
    first
      [ left; split; [done | intros ? [=]]; fail
      | right; do 5 eexists; split; [|split; [eassumption|]];
        [done
        |simpl; first [done | do 2 eexists; split; [eassumption|done]]] ].
Qed.

End Resume.

(** X5.  [resumeSession] throws only when the access token of the credentials
    does not decode, before any request is made.  When its promise is
    fulfilled the facade holds the session, for the access token of the
    credentials, and the session is marked as persistent; the result holds
    no credentials.  When its promise is rejected, the facade is either as
    it was before the call (a failure before [_initSession], or another
    user is logged in) or reset (a failure within [_initSession]): no
    session is left half established. *)
Theorem resumeSession_all_or_nothing
    lib env credentials externalUserSalt w r w' :
  resumeSession lib env credentials externalUserSalt w = (r, w') ->
  match r with
  | Throw e =>
      rawBytes lib (accessToken credentials) = Throw e /\ w' = w
  | Normal (Fulfilled res) =>
      exists u info k c,
        this w'
        = {| _user := Some u; _userGroupInfo := Some info;
             _accessToken := Some (accessToken credentials);
             _authVerifierAfterNextRequest
               := _authVerifierAfterNextRequest (this w);
             groupKeys := <[group (userGroup u) := k]> (groupKeys (this w));
             _eventBusClient := Some c;
             _persistentSession := true |}
        /\ _eventBusClient (this w) = Some c
        /\ connected w' = {[c]} ∪ connected w
        /\ r_user res = Some u
        /\ r_userGroupInfo res = Some info
        /\ spec_elementId lib (accessToken credentials)
           = Normal (r_sessionElementId res)
        /\ r_credentials res = None
  | Normal (Rejected _) =>
      this w' = this w \/ this w' = cleared (clients w)
  | Normal Pending => True
  end.
Proof.
  intros H.
  apply resumeSession_run in H
    as [(e & Hraw & -> & ->)
       | (raw & q & Hraw & -> & [[Hlog Hq]
                                | (userId & key & w1 & ri & w2 & Hlog & Hinit
                                   & H)])];
    [done| |].
  { destruct q as [res|e|]; [by destruct (Hq res)| |done].
    left. apply Hlog. }
  destruct Hlog as (Hthis & _ & Hconn & Hcl).
  apply initSession_outcome in Hinit.
  destruct ri as [[[]|e|]|e].
  - destruct Hinit as (u & info & k & c & Hthis2 & Hc & Hconn2 & _).
    destruct H as (pass & rs & H & ->).
    destruct rs as [q|e].
    + destruct q as [res|e|].
      * apply sessionReturn_fulfilled in H
          as (-> & Hu & Hinfo & tok & Htok & Hid & Hcred).
        simpl in *. rewrite Hthis2 in Hu, Hinfo, Htok |- *.
        simpl in *. injection Htok as <-.
        exists u, info, k, c. rewrite <- Hthis, <- Hconn. by repeat split.
      * exfalso. revert H.
        unfold sessionReturn, bind, get_this, deref, lift, ret, throw.
        simpl. rewrite Hthis2. simpl.
        rewrite _getSessionElementId_pure. unfold spec_elementId.
        by rewrite Hraw.
      * exfalso. revert H.
        unfold sessionReturn, bind, get_this, deref, lift, ret, throw.
        simpl. rewrite Hthis2. simpl.
        rewrite _getSessionElementId_pure. unfold spec_elementId.
        by rewrite Hraw.
    + exfalso. revert H.
      unfold sessionReturn, bind, get_this, deref, lift, ret, throw.
      simpl. rewrite Hthis2. simpl.
      rewrite _getSessionElementId_pure. unfold spec_elementId.
      by rewrite Hraw.
  - destruct H as [-> ->]. right. by rewrite Hinit, Hcl.
  - by destruct H as [-> ->].
  - destruct H as [-> ->]. left. by rewrite Hinit.
Qed.

(** Alice comes back with stored credentials. *)
Lemma resumeSession_all_or_nothing_witness :
  let credentials := {| mailAddress := "a@b.c"; accessToken := Sample.token;
                        encryptedPassword := "AXA=" |} in
  let run := resumeSession Sample.lib Sample.friendly credentials None
               newWorld in
  exists res,
    fst run = Normal (Fulfilled res)
    /\ exists u info k c,
        this (snd run)
        = {| _user := Some u; _userGroupInfo := Some info;
             _accessToken := Some (accessToken credentials);
             _authVerifierAfterNextRequest
               := _authVerifierAfterNextRequest (this newWorld);
             groupKeys
               := <[group (userGroup u) := k]> (groupKeys (this newWorld));
             _eventBusClient := Some c;
             _persistentSession := true |}
        /\ _eventBusClient (this newWorld) = Some c
        /\ connected (snd run) = {[c]} ∪ connected newWorld
        /\ r_user res = Some u
        /\ r_userGroupInfo res = Some info
        /\ spec_elementId Sample.lib (accessToken credentials)
           = Normal (r_sessionElementId res)
        /\ r_credentials res = None.
Proof.
  intros credentials run.
  pose (res := match fst run with
               | Normal (Fulfilled r) => r
               | _ => {| r_user := None; r_userGroupInfo := None;
                         r_sessionElementId := EmptyString;
                         r_credentials := None |}
               end).
  exists res. split; [vm_compute; reflexivity|].
  apply (resumeSession_all_or_nothing Sample.lib Sample.friendly credentials
           None newWorld (Normal (Fulfilled res)) (snd run)).
  vm_compute. reflexivity.
Defined.

(** ** [logout] and the session on the server *)

(** From [log w' = new ++ log w] and the events a run logged, what [new]
    is. *)
Ltac new_events H :=
  match type of H with
  | ?l = ?new ++ ?t =>
      let rec prefix l :=
        lazymatch l with
        | t => constr:(@nil Event)
        | ?x :: ?l' => let p := prefix l' in constr:(x :: p)
        end in
      let p := prefix l in
      change l with (p ++ t) in H;
      apply app_inv_tail in H
  end.

(** X6.  [logout] deletes the session on the server exactly when the session is
    not persistent.  With a persistent session it makes no request to the
    REST client at all.  With a session that is not persistent, once its
    promise has settled it has made exactly one request: the requests to
    the REST client among the calls it logged are the [DELETE] of the
    session of the facade's access token, authenticated with that token,
    once. *)
Theorem logout_deletes_unless_persistent lib env w u p w' new :
  _user (this w) = Some u ->
  logout lib env w = (Normal p, w') ->
  log w' = new ++ log w ->
  (_persistentSession (this w) = true ->
   List.filter isRestRequest new = [])
  /\ (_persistentSession (this w) = false ->
      p <> Pending ->
      forall tok raw,
        _accessToken (this w) = Some tok ->
        rawBytes lib tok = Normal raw ->
        List.filter isRestRequest new
        = [EvRestRequest
             (sessionTypePath lib ++ "/"
              ++ extendedBase64 lib (take (GENERATED_ID_BYTES_LENGTH lib) raw)
              ++ "/"
              ++ urlSafeBase64 lib
                   (hash lib (drop (GENERATED_ID_BYTES_LENGTH lib) raw)))%string
             DELETE tok (sessionModelVersion lib)]).
Proof.
  intros Hu H Hnew.
  unfold logout, storeEntropy, getUserGroupKey, getUserGroupId,
    getLoggedInUser, _reset, eventBusClient_close, new_EventBusClient,
    bind, then_, catch_, finally_, anyError, call, lift, get_this,
    update_this, deref, ret, throw in H.
  rewrite Hu in H. simpl in H. rewrite ?Hu in H.
  split.
  - intros Hp.
    run_cases_with H ltac:(rewrite ?Hp in H);
      injection H as <- <-; simpl in Hnew; new_events Hnew;
      by subst new.
  - intros Hp Hsettled tok raw Htok Hraw.
    run_cases_with H
      ltac:(rewrite ?Hp, ?Htok in H;
            try rewrite (deleteSession_run lib env tok raw _ Hraw) in H);
      injection H as <- <-; try done; simpl in Hnew;
      new_events Hnew; by subst new.
Qed.

(** Alice logs out of a session that is not persistent: the session is
    deleted. *)
Lemma logout_deletes_unless_persistent_witness :
  let w := snd (createSession Sample.lib Sample.friendly 0 "a@b.c" "p"
                  "client" false newWorld) in
  let run := logout Sample.lib Sample.friendly w in
  exists p new,
    fst run = Normal p
    /\ p <> Pending
    /\ _persistentSession (this w) = false
    /\ _accessToken (this w) = Some Sample.token
    /\ log (snd run) = new ++ log w
    /\ List.filter isRestRequest new
       = [EvRestRequest "/rest/sys/session/--31-kF40VR7/Hg" DELETE
            Sample.token "22"]
    /\ (_persistentSession (this w) = true ->
        List.filter isRestRequest new = [])
    /\ (_persistentSession (this w) = false ->
        p <> Pending ->
        forall tok raw,
          _accessToken (this w) = Some tok ->
          rawBytes Sample.lib tok = Normal raw ->
          List.filter isRestRequest new
          = [EvRestRequest
               (sessionTypePath Sample.lib ++ "/"
                ++ extendedBase64 Sample.lib
                     (take (GENERATED_ID_BYTES_LENGTH Sample.lib) raw)
                ++ "/"
                ++ urlSafeBase64 Sample.lib
                     (hash Sample.lib
                        (drop (GENERATED_ID_BYTES_LENGTH Sample.lib) raw)))%string
               DELETE tok (sessionModelVersion Sample.lib)]).
Proof.
  intros w run.
  pose (p := match fst run with
             | Normal p => p
             | Throw _ => Pending
             end).
  pose (new := firstn (length (log (snd run)) - length (log w))
                 (log (snd run))).
  exists p, new.
  split; [vm_compute; reflexivity|].
  split; [vm_compute; discriminate|].
  split; [vm_compute; reflexivity|].
  split; [vm_compute; reflexivity|].
  split; [vm_compute; reflexivity|].
  split; [vm_compute; reflexivity|].
  apply (logout_deletes_unless_persistent Sample.lib Sample.friendly w
           Sample.alice p (snd run) new).
  - vm_compute. reflexivity.
  - vm_compute. reflexivity.
  - vm_compute. reflexivity.
Defined.

(** X7.  [logout] reports the failure of the deletion of the session and no
    other.  With a user logged in, a session that is not persistent and a
    server that answers, the promise of [logout] is rejected exactly when
    the [DELETE] request is rejected with an error that is no
    [NotAuthenticatedError], and then with that error; a failure to store
    the entropy never shows.  The request is made after the event bus
    client was closed and the properties of the user group were asked for;
    the facade is reset in every case. *)
Theorem logout_reports_deletion_failure lib env w u c tok raw :
  _user (this w) = Some u ->
  _eventBusClient (this w) = Some c ->
  _persistentSession (this w) = false ->
  _accessToken (this w) = Some tok ->
  rawBytes lib tok = Normal raw ->
  answersLogout env ->
  let path :=
    (sessionTypePath lib ++ "/"
     ++ extendedBase64 lib (take (GENERATED_ID_BYTES_LENGTH lib) raw)
     ++ "/"
     ++ urlSafeBase64 lib
          (hash lib (drop (GENERATED_ID_BYTES_LENGTH lib) raw)))%string in
  exists p w' storing,
    logout lib env w = (Normal p, w')
    /\ this w' = cleared (clients w)
    /\ p = match restClient_request env
                   (storing
                    ++ EvLoadRootTutanotaProperties (group (userGroup u))
                    :: EvEventBusClose c :: log w)
                   path DELETE tok with
           | Rejected e =>
               if isNotAuthenticatedError e then Fulfilled tt
               else Rejected e
           | _ => Fulfilled tt
           end.
Proof.
  intros Hu Hc Hp Htok Hraw (Hload & Hupdate & Hrest) path.
  destruct (logout lib env w) as [r w'] eqn:H.
  unfold logout, storeEntropy, getUserGroupKey, getUserGroupId,
    getLoggedInUser, _reset, eventBusClient_close, new_EventBusClient,
    bind, then_, catch_, finally_, anyError, call, lift, get_this,
    update_this, deref, ret, throw in H.
  rewrite Hu in H. simpl in H. rewrite ?Hu, Hc in H. simpl in H.
  run_cases_with H
    ltac:(rewrite ?Hp, ?Htok, ?Hc in H;
          try rewrite (deleteSession_run lib env tok raw _ Hraw) in H);
    injection H as <- <-;
    try match goal with
        | E : loadRoot_TutanotaProperties _ _ _ = Pending |- _ =>
            by destruct (Hload _ _ E)
        | E : update_TutanotaProperties _ _ _ = Pending |- _ =>
            by destruct (Hupdate _ _ E)
        | E : restClient_request _ _ _ _ _ = Pending |- _ =>
            by destruct (Hrest _ _ _ _ E)
        end.
  all: simplify_eq.
  all: match goal with
       | E : restClient_request _ ?h _ _ _ = _ |- _ =>
           let rec prefix l :=
             lazymatch l with
             | EvLoadRootTutanotaProperties _ :: _ => constr:(@nil Event)
             | ?x :: ?l' => let p := prefix l' in constr:(x :: p)
             end in
           let p := prefix h in
           eexists _, _, p; split; [reflexivity|]; split; [done|];
           simpl; unfold path; rewrite E; try done
       end.
  all: try match goal with
           | E : isNotAuthenticatedError _ = _ |- _ => rewrite E
           end.
  all: by repeat match goal with a : unit |- _ => destruct a end.
Qed.

(** The server is out of reach when Alice logs out: neither the entropy
    nor the deletion gets through, and the error of the deletion is what
    [logout] reports. *)
Lemma logout_reports_deletion_failure_witness :
  let offline := fun ev =>
    match ev with
    | EvUpdateTutanotaProperties _ => Some (ConnectionError "entropy")
    | EvRestRequest _ DELETE _ _ => Some (ConnectionError "session")
    | _ => None
    end in
  let env := Sample.server None offline (fun _ => Sample.alice) "user1"
               Sample.token [] 0 in
  let w := snd (createSession Sample.lib env 0 "a@b.c" "p" "client" false
                  newWorld) in
  let path := "/rest/sys/session/--31-kF40VR7/Hg" in
  exists p w' storing,
    logout Sample.lib env w = (Normal p, w')
    /\ p = Rejected (ConnectionError "session")
    /\ sessionPath Sample.lib Sample.token w = (Normal path, w)
    /\ this w' = cleared (clients w)
    /\ p = match restClient_request env
                   (storing
                    ++ EvLoadRootTutanotaProperties
                         (group (userGroup Sample.alice))
                    :: EvEventBusClose 0 :: log w)
                   path DELETE Sample.token with
           | Rejected e =>
               if isNotAuthenticatedError e then Fulfilled tt
               else Rejected e
           | _ => Fulfilled tt
           end.
Proof.
  intros offline env w path.
  destruct (logout_reports_deletion_failure Sample.lib env w Sample.alice 0%nat
           Sample.token
           [x00; x01; x02; x03; x04; x05; x06; x07; x08; x09; x0a; x0b])
    as (p & w' & storing & Hrun & Hthis & Hp);
    try (vm_compute; reflexivity).
  { repeat split; intros; try destruct method; vm_compute; discriminate. }
  exists p, w', storing. split; [exact Hrun|].
  split; [rewrite Hp; vm_compute; reflexivity|].
  split; [vm_compute; reflexivity|].
  split; [exact Hthis|exact Hp].
Defined.

(** ** [loadEntropy] *)

(** X8.  Once the properties of the user group are served, [loadEntropy] is
    fulfilled whatever the decryption of the stored entropy does: an error
    of the decryption, a [CryptoError] or any other, is swallowed.  Entropy
    is added to the random generator exactly when there is stored entropy
    that the key of the user group decrypts.  Only the log changes. *)
Theorem loadEntropy_tolerates_decryption lib env w u props :
  _user (this w) = Some u ->
  loadRoot_TutanotaProperties env (log w) (group (userGroup u))
  = Fulfilled props ->
  exists w' new,
    loadEntropy lib env w = (Normal (Fulfilled tt), w')
    /\ onlyLog w w'
    /\ log w' = new ++ EvLoadRootTutanotaProperties (group (userGroup u))
                  :: log w
    /\ forall entropy,
         In (EvAddStaticEntropy entropy) new
         <-> exists enc,
               groupEncEntropy props = Some enc
               /\ aes128Decrypt lib
                    (property lib (groupKeys (this w))
                       (group (userGroup u))) enc
                  = Normal entropy.
Proof.
  intros Hu Hload.
  unfold loadEntropy, getUserGroupKey, getUserGroupId, getLoggedInUser,
    bind, then_, try_catch, call, emit, lift, get_this, deref, ret.
  rewrite Hu. simpl. rewrite Hload.
  destruct (groupEncEntropy props) as [enc|] eqn:Henc; simpl.
  - rewrite Hu. simpl.
    destruct (aes128Decrypt lib _ enc) as [entropy|e] eqn:Hdec; simpl.
    + eexists _, [_]. split; [reflexivity|]. split; [done|].
      split; [reflexivity|]. intros entropy'. simpl. split.
      * intros [[= <-]|[]]. eauto.
      * intros (enc' & [= <-] & Hdec'). left. congruence.
    + eexists _, []. split; [reflexivity|]. split; [done|].
      split; [reflexivity|]. intros entropy'. simpl. split; [done|].
      intros (enc' & [= <-] & Hdec'). congruence.
  - eexists _, []. split; [reflexivity|]. split; [done|].
    split; [reflexivity|]. intros entropy'. simpl. split; [done|].
    by intros (enc' & [=] & _).
Qed.

(** Alice's stored entropy is decrypted with the key of her user group. *)
Lemma loadEntropy_tolerates_decryption_witness :
  let w := snd (createSession Sample.lib Sample.friendly 0 "a@b.c" "p"
                  "client" false newWorld) in
  let props := {| groupEncEntropy := Some [x07; x2a] |} in
  aes128Decrypt Sample.lib
    (property Sample.lib (groupKeys (this w))
       (group (userGroup Sample.alice))) [x07; x2a]
  = Normal [x2a]
  /\ exists w' new,
      loadEntropy Sample.lib Sample.friendly w = (Normal (Fulfilled tt), w')
      /\ onlyLog w w'
      /\ log w' = new ++ EvLoadRootTutanotaProperties
                           (group (userGroup Sample.alice))
                    :: log w
      /\ forall entropy,
           In (EvAddStaticEntropy entropy) new
           <-> exists enc,
                 groupEncEntropy props = Some enc
                 /\ aes128Decrypt Sample.lib
                      (property Sample.lib (groupKeys (this w))
                         (group (userGroup Sample.alice)))
                      enc
                    = Normal entropy.
Proof.
  intros w props. split; [vm_compute; reflexivity|].
  apply (loadEntropy_tolerates_decryption Sample.lib Sample.friendly w
           Sample.alice props); vm_compute; reflexivity.
Defined.

(** ** The cache of group keys *)

(** X9.  [getGroupKey] touches nothing but the cache entry of the group it is
    asked for: the keys cached for other groups, the other fields of the
    facade and the event stream are as before, whether it returns or
    throws; a key that is cached stays cached.  When it throws, nothing
    was cached. *)
Theorem getGroupKey_touches_one_key lib g w :
  let r := fst (getGroupKey lib g w) in
  let w' := snd (getGroupKey lib g w) in
  (forall g', g' <> g ->
     groupKeys (this w') !! g' = groupKeys (this w) !! g')
  /\ (forall k, groupKeys (this w) !! g = Some k ->
                groupKeys (this w') !! g = Some k)
  /\ this w' = set_groupKeys (groupKeys (this w')) (this w)
  /\ state_user w' = state_user w
  /\ connected w' = connected w
  /\ clients w' = clients w
  /\ (forall e, r = Throw e -> this w' = this w).
Proof.
  intros r w'. subst r w'.
  assert (Hsame : this w = set_groupKeys (groupKeys (this w)) (this w))
    by by destruct (this w).
  destruct (truthy (property lib (groupKeys (this w)) g)) eqn:Hk.
  - rewrite (getGroupKey_found lib g w Hk). by repeat split.
  - rewrite (getGroupKey_uncached lib g w Hk).
    destruct (_user (this w)) as [u|]; [|by repeat split].
    destruct (find _ (memberships u)) as [m|]; [|by repeat split].
    destruct (decryptKey lib _ (symEncGKey m)) as [k|e]; simpl;
      [|by repeat split].
    split; [intros g' Hne; by rewrite lookup_insert_ne|].
    split; [|by repeat split].
    intros k0 Hk0. by rewrite (property_own lib _ g k0 Hk0) in Hk.
Qed.

(** ** The groups of the user *)

Section Groups.

Context (ent : EntityImports).

Lemma find_group_Some (g : Id) (ms : list GroupMembership) :
  (exists m, find (fun m => String.eqb (group m) g) ms = Some m)
  <-> In g (map group ms).
Proof.
  split.
  - intros (m & Hm). apply find_some in Hm as [Hin Heq].
    apply String.eqb_eq in Heq as <-. by apply in_map.
  - intros Hin. apply in_map_iff in Hin as (m & <- & Hin).
    destruct (find _ ms) as [m'|] eqn:Hfind; [eauto|].
    apply (find_none _ _ Hfind) in Hin. by rewrite String.eqb_refl in Hin.
Qed.

End Groups.

(** X10.  With a user logged in, [hasGroup] says yes exactly for the ids that
    [getAllGroupIds] lists: the groups of the memberships, in their order,
    followed by the user group.  With no user logged in, [hasGroup] says
    no, whereas [getAllGroupIds] throws a [TypeError].  Neither changes
    anything. *)
Theorem hasGroup_iff_listed w :
  (forall u,
     _user (this w) = Some u ->
     getAllGroupIds w
     = (Normal (map group (memberships u) ++ [group (userGroup u)]), w)
     /\ forall g,
          hasGroup g w
          = (Normal (bool_decide
                       (g ∈ map group (memberships u)
                            ++ [group (userGroup u)])), w))
  /\ (_user (this w) = None ->
      (exists e, getAllGroupIds w = (Throw (TypeError e), w))
      /\ forall g, hasGroup g w = (Normal false, w)).
Proof.
  split.
  - intros u Hu. split.
    + unfold getAllGroupIds, getLoggedInUser, bind, get_this, deref, ret.
      rewrite Hu. simpl. by rewrite Hu.
    + intros g. unfold hasGroup, bind, get_this, ret. rewrite Hu.
      do 2 f_equal.
      destruct (String.eqb_spec g (group (userGroup u))) as [->|Hne]; simpl.
      { symmetry. apply bool_decide_eq_true. set_solver. }
      destruct (find _ (memberships u)) as [m|] eqn:Hfind.
      * symmetry. apply bool_decide_eq_true. apply elem_of_app. left.
        apply list_elem_of_In, find_group_Some. eauto.
      * symmetry. apply bool_decide_eq_false.
        intros [Hin|Hin]%elem_of_app; [|set_solver].
        apply list_elem_of_In, find_group_Some in Hin as (m & Hm).
        congruence.
  - intros Hu. split.
    + unfold getAllGroupIds, getLoggedInUser, bind, get_this, deref, throw.
      rewrite Hu. eauto.
    + intros g. unfold hasGroup, bind, get_this, ret. by rewrite Hu.
Qed.

(** X11.  The id [getGroupId] returns is one [hasGroup] accepts: the user group
    for the group type of users, and otherwise the group of the first
    membership of the type asked for.  [getGroupId] changes nothing. *)
Theorem getGroupId_is_a_group ent t w g w' :
  getGroupId ent t w = (Normal g, w') ->
  w' = w
  /\ hasGroup g w = (Normal true, w)
  /\ exists u,
      _user (this w) = Some u
      /\ if String.eqb t (GroupType_User ent)
         then g = group (userGroup u)
         else exists before m after,
                memberships u = before ++ m :: after
                /\ groupType m = t /\ group m = g
                /\ forall m', In m' before -> groupType m' <> t.
Proof.
  unfold getGroupId, getUserGroupId, getLoggedInUser, hasGroup, bind,
    get_this, deref, ret, throw.
  destruct (_user (this w)) as [u|] eqn:Hu.
  2: { destruct (String.eqb t (GroupType_User ent)); simpl;
       rewrite ?Hu; simpl; by intros [=]. }
  destruct (String.eqb t (GroupType_User ent)); simpl; rewrite ?Hu; simpl.
  - intros [= <- <-]. rewrite String.eqb_refl. simpl. eauto.
  - destruct (find _ (memberships u)) as [m|] eqn:Hfind; simpl;
      rewrite ?Hu; simpl; [|done].
    intros [= <- <-]. split; [done|].
    assert (exists before after,
              memberships u = before ++ m :: after
              /\ groupType m = t
              /\ forall m', In m' before -> groupType m' <> t)
      as (before & after & Hms & Ht & Hbefore).
    { clear Hu. induction (memberships u) as [|m0 ms IH]; [done|].
      simpl in Hfind.
      destruct (String.eqb_spec (groupType m0) t) as [Heq|Hne].
      - injection Hfind as ->. by exists [], ms.
      - destruct (IH Hfind) as (before & after & -> & Ht & Hbefore).
        exists (m0 :: before), after. split; [done|]. split; [done|].
        intros m' [<-|Hin]; auto. }
    split.
    + do 2 f_equal. apply orb_true_iff. right.
      destruct (find (fun m0 => String.eqb (group m0) (group m))
                  (memberships u)) as [m'|] eqn:Hfind'; [done|].
      assert (In m (memberships u)) as Hin
        by (rewrite Hms; apply in_or_app; right; by left).
      apply (find_none _ _ Hfind') in Hin.
      by rewrite String.eqb_refl in Hin.
    + exists u. split; [done|]. by exists before, m, after.
Qed.

(** Alice's mail group. *)
Lemma getGroupId_is_a_group_witness :
  let w := snd (createSession Sample.lib Sample.friendly 0 "a@b.c" "p"
                  "client" false newWorld) in
  getGroupId SampleEntities.ent "5" w = (Normal "mailGroup", w)
  /\ w = w
  /\ hasGroup "mailGroup" w = (Normal true, w)
  /\ exists u,
      _user (this w) = Some u
      /\ if String.eqb "5" (GroupType_User SampleEntities.ent)
         then "mailGroup" = group (userGroup u)
         else exists before m after,
                memberships u = before ++ m :: after
                /\ groupType m = "5" /\ group m = "mailGroup"
                /\ forall m', In m' before -> groupType m' <> "5".
Proof.
  intros w. split; [vm_compute; reflexivity|].
  apply (getGroupId_is_a_group SampleEntities.ent "5" w "mailGroup" w).
  vm_compute. reflexivity.
Defined.

(** ** [entityEventReceived] *)

(** X12.  [entityEventReceived] never throws.  It can replace the user and the
    group info the facade holds and nothing else: the access token, the
    cached group keys, the event bus client and [state.user] stay as they
    are, also when the user record changed.  An event that is no update
    changes nothing at all; an event never logs a user in.  An update of
    the user that is logged in makes one request, for that user, and its
    answer becomes the user of the facade; the group info is not looked at
    then. *)
Theorem entityEventReceived_refreshes env ent data w r w' :
  entityEventReceived env ent data w = (r, w') ->
  (exists p, r = Normal p)
  /\ this w'
     = set_userGroupInfo (_userGroupInfo (this w'))
         (set_user (_user (this w')) (this w))
  /\ state_user w' = state_user w
  /\ connected w' = connected w
  /\ clients w' = clients w
  /\ (operation data <> OperationType_UPDATE ent ->
      r = Normal (Fulfilled tt) /\ w' = w)
  /\ (_user (this w) = None -> _user (this w') = None)
  /\ (forall u,
        _user (this w) = Some u ->
        isUpdateOf ent data (UserTypeRef ent) = true ->
        isSameId ent (_id u) (instanceId data) = true ->
        log w' = EvLoadUser (_id u) :: log w
        /\ _userGroupInfo (this w') = _userGroupInfo (this w)
        /\ match load_User env (log w) (_id u) with
           | Fulfilled u' =>
               r = Normal (Fulfilled tt) /\ _user (this w') = Some u'
           | Rejected e =>
               r = Normal (Rejected e) /\ _user (this w') = Some u
           | Pending => r = Normal Pending /\ _user (this w') = Some u
           end).
Proof.
  intros H.
  assert (Hop : operation data <> OperationType_UPDATE ent ->
                forall t, isUpdateOf ent data t = false).
  { intros Hne t. unfold isUpdateOf.
    by apply String.eqb_neq in Hne as ->. }
  unfold entityEventReceived, entityEventReceived_else, bind, then_, call,
    get_this, update_this, ret in H.
  assert (Hsame : this w
                  = set_userGroupInfo (_userGroupInfo (this w))
                      (set_user (_user (this w)) (this w)))
    by by destruct (this w).
  run_cases H; injection H as <- <-; simpl;
    (split; [by eexists|]);
    (split; [first [exact Hsame | by destruct (this w)]|]);
    do 3 (split; [done|]);
    (split; [intros Hne; first [done | rewrite (Hop Hne) in *; done]|]);
    (split; [congruence|]);
    intros u0 Hu0 Hup Hid; simplify_eq; simpl in *;
    repeat match goal with
           | H : _ && _ = false |- _ => rewrite Hup, Hid in H
           end;
    try done;
    repeat match goal with
           | H : load_User _ _ _ = _ |- _ => rewrite H
           end;
    by repeat split.
Qed.

(** Alice's record changes on the server while she is logged in: the
    facade takes the new record, [state.user] keeps the old one. *)
Lemma entityEventReceived_refreshes_witness :
  let env := Sample.server None Sample.noFailure SampleEntities.aliceChanging
               "user1" Sample.token [] 0 in
  let ent := SampleEntities.ent in
  let data := SampleEntities.userUpdate in
  let w := snd (createSession Sample.lib env 0 "a@b.c" "p" "client" false
                  newWorld) in
  let r := fst (entityEventReceived env ent data w) in
  let w' := snd (entityEventReceived env ent data w) in
  (_user (this w) = Some Sample.alice
   /\ _user (this w') = Some SampleEntities.aliceChanged
   /\ state_user w' = Some Sample.alice)
  /\ (exists p, r = Normal p)
  /\ this w'
     = set_userGroupInfo (_userGroupInfo (this w'))
         (set_user (_user (this w')) (this w))
  /\ state_user w' = state_user w
  /\ connected w' = connected w
  /\ clients w' = clients w
  /\ (operation data <> OperationType_UPDATE ent ->
      r = Normal (Fulfilled tt) /\ w' = w)
  /\ (_user (this w) = None -> _user (this w') = None)
  /\ (forall u,
        _user (this w) = Some u ->
        isUpdateOf ent data (UserTypeRef ent) = true ->
        isSameId ent (_id u) (instanceId data) = true ->
        log w' = EvLoadUser (_id u) :: log w
        /\ _userGroupInfo (this w') = _userGroupInfo (this w)
        /\ match load_User env (log w) (_id u) with
           | Fulfilled u' =>
               r = Normal (Fulfilled tt) /\ _user (this w') = Some u'
           | Rejected e =>
               r = Normal (Rejected e) /\ _user (this w') = Some u
           | Pending => r = Normal Pending /\ _user (this w') = Some u
           end).
Proof.
  intros env ent data w r w'.
  split; [repeat split; vm_compute; reflexivity|].
  apply (entityEventReceived_refreshes env ent data w r w').
  apply surjective_pairing.
Defined.

(** ** [changePassword] *)

(** X13.  With a user logged in whose record holds a salt, [changePassword]
    throws only when a key derivation or the wrapping of the user group
    key throws, and then changes nothing.  Otherwise it makes the request
    with the verifier of the old passphrase under the salt of the record,
    a new salt, the verifier of the new passphrase under the new salt and
    the user group key wrapped with the new key, and the facade keeps the
    url-safe base64 of the new verifier for the request after the next
    one.  That verifier is stored before the request is made: it is kept
    whatever the service answers.  Nothing else changes. *)
Theorem changePassword_keeps_verifier
    lib ent penv oldPassword newPassword w u oldSalt r w' :
  _user (this w) = Some u ->
  salt u = Some oldSalt ->
  changePassword lib ent penv oldPassword newPassword w = (r, w') ->
  let newSalt := generateRandomSalt penv (log w) in
  let userGroupKey :=
    property lib (groupKeys (this w)) (group (userGroup u)) in
  match r with
  | Throw e =>
      w' = w
      /\ (generateKeyFromPassphrase lib oldPassword oldSalt = Throw e
          \/ generateKeyFromPassphrase lib newPassword newSalt = Throw e
          \/ exists key,
               generateKeyFromPassphrase lib newPassword newSalt = Normal key
               /\ encryptKey ent key userGroupKey = Throw e)
  | Normal p =>
      exists oldKey key wrapped,
        generateKeyFromPassphrase lib oldPassword oldSalt = Normal oldKey
        /\ generateKeyFromPassphrase lib newPassword newSalt = Normal key
        /\ encryptKey ent key userGroupKey = Normal wrapped
        /\ p = serviceRequestVoid_ChangePassword penv (log w)
                 {| cp_oldVerifier := createAuthVerifier ent oldKey;
                    cp_salt := newSalt;
                    cp_verifier := createAuthVerifier ent key;
                    cp_pwEncUserGroupKey := wrapped |}
        /\ this w'
           = set_authVerifierAfterNextRequest
               (Some (urlSafeBase64 lib (createAuthVerifier ent key)))
               (this w)
        /\ state_user w' = state_user w
        /\ connected w' = connected w
        /\ clients w' = clients w
        /\ log w' = log w
  end.
Proof.
  intros Hu Hsalt H newSalt userGroupKey.
  unfold changePassword, getUserGroupKey, getUserGroupId, getLoggedInUser,
    bind, lift, get_this, update_this, deref, ret in H.
  rewrite Hu in H. simpl in H. rewrite Hsalt in H. simpl in H.
  destruct (generateKeyFromPassphrase lib oldPassword oldSalt)
    as [oldKey|e] eqn:Hold; [|injection H as <- <-; auto].
  fold newSalt in H.
  destruct (generateKeyFromPassphrase lib newPassword newSalt)
    as [key|e] eqn:Hnew; [|injection H as <- <-; auto].
  rewrite Hu in H. simpl in H. fold userGroupKey in H.
  destruct (encryptKey ent key userGroupKey) as [wrapped|e] eqn:Hwrap;
    [|injection H as <- <-; eauto 6].
  injection H as <- <-. exists oldKey, key, wrapped. by repeat split.
Qed.

(** Alice's request to change the passphrase is refused: the verifier of
    the new passphrase is kept all the same. *)
Lemma changePassword_keeps_verifier_witness :
  let lib := Sample.lib in
  let ent := SampleEntities.ent in
  let penv := SampleEntities.refusing in
  let w := snd (createSession lib Sample.friendly 0 "a@b.c" "p" "client"
                  false newWorld) in
  let r := fst (changePassword lib ent penv "p" "q" w) in
  let w' := snd (changePassword lib ent penv "p" "q" w) in
  let newSalt := generateRandomSalt penv (log w) in
  let userGroupKey :=
    property Sample.lib (groupKeys (this w))
      (group (userGroup Sample.alice)) in
  r = Normal (Rejected (NotAuthenticatedError "wrong password"))
  /\ _authVerifierAfterNextRequest (this w') = Some "Fg"
  /\ match r with
     | Throw e =>
         w' = w
         /\ (generateKeyFromPassphrase lib "p" [x05; x06] = Throw e
             \/ generateKeyFromPassphrase lib "q" newSalt = Throw e
             \/ exists key,
                  generateKeyFromPassphrase lib "q" newSalt = Normal key
                  /\ encryptKey ent key userGroupKey = Throw e)
     | Normal p =>
         exists oldKey key wrapped,
           generateKeyFromPassphrase lib "p" [x05; x06] = Normal oldKey
           /\ generateKeyFromPassphrase lib "q" newSalt = Normal key
           /\ encryptKey ent key userGroupKey = Normal wrapped
           /\ p = serviceRequestVoid_ChangePassword penv (log w)
                    {| cp_oldVerifier := createAuthVerifier ent oldKey;
                       cp_salt := newSalt;
                       cp_verifier := createAuthVerifier ent key;
                       cp_pwEncUserGroupKey := wrapped |}
           /\ this w'
              = set_authVerifierAfterNextRequest
                  (Some (urlSafeBase64 lib (createAuthVerifier ent key)))
                  (this w)
           /\ state_user w' = state_user w
           /\ connected w' = connected w
           /\ clients w' = clients w
           /\ log w' = log w
     end.
Proof.
  intros lib ent penv w r w' newSalt userGroupKey.
  split; [vm_compute; reflexivity|].
  split; [vm_compute; reflexivity|].
  apply (changePassword_keeps_verifier lib ent penv "p" "q" w Sample.alice
           [x05; x06] r w').
  - vm_compute. reflexivity.
  - reflexivity.
  - apply surjective_pairing.
Defined.

(** ** Replacing the module *)

(** X14.  When the module is loaded over an older one, the facade takes over
    every field of the old facade but the event bus client: the session
    survives, with its access token and its cached keys, and [state.user]
    stays.  The client of the old facade is closed, then a client that was
    never used is created, and it is connected exactly when a user is
    logged in.  The client the constructor had created is dropped without
    having been connected. *)
Theorem hot_replace_moves_stream env old w c :
  _eventBusClient old = Some c ->
  let r := fst (moduleLoad env (Some old) w) in
  let w' := snd (moduleLoad env (Some old) w) in
  let dropped := clients w in
  let fresh := S (clients w) in
  this w' = set_eventBusClient (Some fresh) old
  /\ state_user w' = state_user w
  /\ clients w' = S (S (clients w))
  /\ (dropped ∈ connected w' -> dropped ∈ connected w)
  /\ match _user old with
     | None =>
         r = Normal tt
         /\ connected w' = connected w ∖ {[c]}
         /\ log w' = EvEventBusClose c :: log w
     | Some _ =>
         log w' = EvEventBusConnect fresh false :: EvEventBusClose c :: log w
         /\ match eventBusClient_connect env (EvEventBusClose c :: log w)
                    fresh with
            | Normal _ =>
                r = Normal tt
                /\ connected w' = {[fresh]} ∪ connected w ∖ {[c]}
            | Throw e =>
                r = Throw e /\ connected w' = connected w ∖ {[c]}
            end
     end.
Proof.
  intros Hc r w' dropped fresh. subst r w'.
  unfold moduleLoad, _reset, isLoggedIn, eventBusClient_connect_,
    eventBusClient_close, new_EventBusClient, bind, get_this, update_this,
    deref, ret, throw.
  simpl. rewrite Hc. simpl.
  destruct (_user old) as [u|]; simpl.
  - destruct (eventBusClient_connect env _ _) as [[]|e]; simpl;
      (split; [by destruct old; simplify_eq|]);
      repeat split; try done; set_solver by lia.
  - split; [by destruct old; simplify_eq|].
    repeat split; try done; set_solver.
Qed.

(** The module is replaced while Alice is logged in. *)
Lemma hot_replace_moves_stream_witness :
  let env := Sample.friendly in
  let w := snd (createSession Sample.lib env 0 "a@b.c" "p" "client" false
                  newWorld) in
  let old := this w in
  let r := fst (moduleLoad env (Some old) w) in
  let w' := snd (moduleLoad env (Some old) w) in
  let c := 0%nat in
  let dropped := clients w in
  let fresh := S (clients w) in
  (connected w = {[c]} /\ connected w' = {[fresh]}
   /\ _user (this w') = Some Sample.alice)
  /\ this w' = set_eventBusClient (Some fresh) old
  /\ state_user w' = state_user w
  /\ clients w' = S (S (clients w))
  /\ (dropped ∈ connected w' -> dropped ∈ connected w)
  /\ match _user old with
     | None =>
         r = Normal tt
         /\ connected w' = connected w ∖ {[c]}
         /\ log w' = EvEventBusClose c :: log w
     | Some _ =>
         log w' = EvEventBusConnect fresh false :: EvEventBusClose c :: log w
         /\ match eventBusClient_connect env (EvEventBusClose c :: log w)
                    fresh with
            | Normal _ =>
                r = Normal tt
                /\ connected w' = {[fresh]} ∪ connected w ∖ {[c]}
            | Throw e =>
                r = Throw e /\ connected w' = connected w ∖ {[c]}
            end
     end.
Proof.
  intros env w old r w' c dropped fresh.
  split; [repeat split; vm_compute; reflexivity|].
  apply (hot_replace_moves_stream env old w c).
  vm_compute. reflexivity.
Defined.

(** ** The wait for the second factor ends *)

(** X15.  When the second-factor service answers "pending" to the first [n]
    polls and something else to the next one, the wait ends with that poll
    if it may make [n] further calls: it is fulfilled when the answer is
    "not pending" and rejected with the error of the poll when the poll
    fails.  [n + 1] polls were made and nothing but the log changed. *)
Theorem second_factor_wait_ends env tok n : forall fuel w last,
  (n <= fuel)%nat ->
  (forall i, (i < n)%nat ->
     serviceRequest_SecondFactorAuth env
       (repeat (EvSecondFactorAuthService tok (Fulfilled true)) i ++ log w)
       tok
     = Fulfilled true) ->
  serviceRequest_SecondFactorAuth env
    (repeat (EvSecondFactorAuthService tok (Fulfilled true)) n ++ log w) tok
  = last ->
  last <> Fulfilled true ->
  last <> Pending ->
  exists w',
    _waitUntilSecondFactorApproved env fuel tok w
    = (Normal match last with
              | Rejected e => Rejected e
              | _ => Fulfilled tt
              end, w')
    /\ onlyLog w w'
    /\ log w' = EvSecondFactorAuthService tok last
                  :: repeat (EvSecondFactorAuthService tok (Fulfilled true)) n
                  ++ log w.
Proof.
  induction n as [|n IH]; intros fuel w last Hfuel Hpending Hlast Hne Hne'.
  - simpl in Hlast.
    destruct fuel; simpl; unfold bind, call_recorded; simpl;
      rewrite Hlast; destruct last as [[|]|e|]; simpl; try done;
      eexists; by repeat split.
  - destruct fuel as [|fuel]; [lia|].
    simpl. unfold bind, call_recorded. simpl.
    pose proof (Hpending 0%nat ltac:(lia)) as H0. simpl in H0.
    rewrite H0. simpl.
    destruct (IH fuel
                (record (EvSecondFactorAuthService tok (Fulfilled true)) w)
                last)
      as (w' & E & Hw & Hl); try done.
    + lia.
    + intros i Hi. simpl. rewrite repeat_middle.
      apply (Hpending (S i)). lia.
    + simpl. by rewrite repeat_middle.
    + exists w'. rewrite E.
      split; [by destruct last as [[|]|e|]|].
      split; [exact Hw|].
      rewrite Hl. simpl. by rewrite repeat_middle.
Qed.

(** The second factor is approved at the third poll. *)
Lemma second_factor_wait_ends_witness :
  let env := Sample.server None Sample.noFailure (fun _ => Sample.alice)
               "user1" Sample.token ["totp"] 2 in
  exists w',
    _waitUntilSecondFactorApproved env 5 Sample.token newWorld
    = (Normal (Fulfilled tt), w')
    /\ onlyLog newWorld w'
    /\ log w' = EvSecondFactorAuthService Sample.token (Fulfilled false)
                  :: repeat (EvSecondFactorAuthService Sample.token
                               (Fulfilled true)) 2
                  ++ log newWorld.
Proof.
  intros env.
  apply (second_factor_wait_ends env Sample.token 2 5 newWorld
           (Fulfilled false)).
  - lia.
  - intros [|[|i]] Hi; [vm_compute; reflexivity..|lia].
  - vm_compute. reflexivity.
  - discriminate.
  - discriminate.
Defined.

(** ** What a login asks the server *)

(** X16.  A fulfilled [_initSession] has made its calls in this order: the user
    is loaded, the key of the user group is unwrapped, the group info and
    the properties of the user group are loaded, the stored entropy is
    added if there is one that decrypts, the receive-info service is
    called unless the user is an external one, and the event bus client is
    connected last, once everything else has succeeded. *)
Theorem initSession_transcript lib env userId tok key w w' :
  _initSession lib env userId tok key w = (Normal (Fulfilled tt), w') ->
  exists u c entropy,
    _user (this w') = Some u
    /\ _eventBusClient (this w') = Some c
    /\ log w'
       = EvEventBusConnect c false
         :: (if String.eqb (accountType u) (AccountType_EXTERNAL lib)
             then [] else [EvReceiveInfoService])
         ++ match entropy with
            | Some e => [EvAddStaticEntropy e]
            | None => []
            end
         ++ EvLoadRootTutanotaProperties (group (userGroup u))
         :: EvLoadGroupInfo (groupInfo (userGroup u))
         :: EvDecryptKey (symEncGKey (userGroup u))
         :: EvLoadUser userId
         :: log w.
Proof.
  unfold _initSession, loadEntropy, _getInfoMails, getUserGroupKey,
    getUserGroupId, getLoggedInUser, isExternalUserLoggedIn, decryptKey_,
    eventBusClient_connect_, bind, then_, catch_, try_catch, get_this,
    update_this, set_state_user, emit, call, lift, deref, ret, throw.
  intros H.
  run_cases H; injection H as <-; simpl;
    match goal with
    | E : negb (String.eqb (accountType ?u) _) = _ |- _ =>
        apply (f_equal negb) in E; rewrite negb_involutive in E; simpl in E;
        exists u;
        match goal with
        | |- context [EvAddStaticEntropy ?e] => eexists _, (Some e)
        | _ => eexists _, None
        end;
        rewrite E; by repeat split
    end.
Qed.

(** Alice is no external user: the receive-info service is called. *)
Lemma initSession_transcript_witness :
  let run := _initSession Sample.lib Sample.friendly "user1" Sample.token
               [1; 5; 6] newWorld in
  fst run = Normal (Fulfilled tt)
  /\ In EvReceiveInfoService (log (snd run))
  /\ exists u c entropy,
      _user (this (snd run)) = Some u
      /\ _eventBusClient (this (snd run)) = Some c
      /\ log (snd run)
         = EvEventBusConnect c false
           :: (if String.eqb (accountType u)
                    (AccountType_EXTERNAL Sample.lib)
               then [] else [EvReceiveInfoService])
           ++ match entropy with
              | Some e => [EvAddStaticEntropy e]
              | None => []
              end
           ++ EvLoadRootTutanotaProperties (group (userGroup u))
           :: EvLoadGroupInfo (groupInfo (userGroup u))
           :: EvDecryptKey (symEncGKey (userGroup u))
           :: EvLoadUser "user1"
           :: log newWorld.
Proof.
  intros run. split; [vm_compute; reflexivity|].
  split; [vm_compute; tauto|].
  apply (initSession_transcript Sample.lib Sample.friendly "user1"
           Sample.token [1; 5; 6] newWorld (snd run)).
  vm_compute. reflexivity.
Defined.

(** ** A login as another user *)

Section OtherUser.

Context (lib : Imports) (env : Env).

(** A run of [createSession], with what is left of the world when the
    session service is asked. *)
Lemma createSession_inv fuel mail pass cid rc w r w' :
  createSession lib env fuel mail pass cid rc w = (r, w') ->
  let mail' := trim lib (toLowerCase lib mail) in
  (exists q, r = Normal q /\ (forall x, q <> Fulfilled x)
     /\ log w' = EvSaltService mail' :: log w)
  \/ (exists key accessKey data a w3,
        this w3 = set_persistentSession rc (this w)
        /\ state_user w3 = state_user w
        /\ connected w3 = connected w
        /\ clients w3 = clients w
        /\ log w3 = EvSessionService data a
                      :: (if rc then [EvAes128RandomKey] else [])
                      ++ EvSaltService mail' :: log w
        /\ match a with
           | Fulfilled csr =>
               exists r',
                 createSession_then lib env fuel mail pass key accessKey csr w3
                 = (r', w')
                 /\ r = Normal (match r' with
                                | Normal q => q
                                | Throw e => Rejected e
                                end)
           | _ => w' = w3 /\ exists q, r = Normal q /\ forall x, q <> Fulfilled x
           end).
Proof.
  unfold createSession, _loadUserPassphraseKey, bind, call, update_this,
    call_recorded, lift, ret. simpl.
  destruct (serviceRequest_Salt env (log w) _) as [salt|e|]; simpl;
    [|intros [= <- <-]; left; eexists; by repeat split..].
  destruct (generateKeyFromPassphrase lib pass salt) as [key|e]; simpl;
    [|intros [= <- <-]; left; eexists; by repeat split].
  destruct rc; simpl.
  - set (k := aes128RandomKey env _).
    set (data := Build_CreateSessionData _ _ _ _ _ _).
    set (w3 := record (EvSessionService data _) _).
    intros H. right. exists key, (Some k), data.
    exists (serviceRequest_Session env (log (record EvAes128RandomKey
      (record (EvSaltService (trim lib (toLowerCase lib mail)))
         (snd (update_this (set_persistentSession true) w))))) data), w3.
    do 5 (split; [done|]).
    destruct (serviceRequest_Session env _ data) as [csr|e|]; simpl in *.
    + destruct (createSession_then _ _ _ _ _ _ _ _ _) as [[q|e] w4];
        injection H as <- <-; eauto.
    + destruct (isConnectionError e); simpl in *;
        [destruct (isTrident7 env)|]; simpl in *; injection H as <- <-;
        (split; [done|]); by eexists.
    + injection H as <- <-. split; [done|]. by eexists.
  - set (data := Build_CreateSessionData _ _ _ _ _ _).
    set (w3 := record (EvSessionService data _) _).
    intros H. right. exists key, None, data.
    exists (serviceRequest_Session env (log
      (record (EvSaltService (trim lib (toLowerCase lib mail)))
         (snd (update_this (set_persistentSession false) w)))) data), w3.
    do 5 (split; [done|]).
    destruct (serviceRequest_Session env _ data) as [csr|e|]; simpl in *.
    + destruct (createSession_then _ _ _ _ _ _ _ _ _) as [[q|e] w4];
        injection H as <- <-; eauto.
    + destruct (isConnectionError e); simpl in *;
        [destruct (isTrident7 env)|]; simpl in *; injection H as <- <-;
        (split; [done|]); by eexists.
    + injection H as <- <-. split; [done|]. by eexists.
Qed.

(** The callback of [createSession] when another user is logged in. *)
Lemma createSession_then_refused fuel mail pass key accessKey csr w u r w' :
  _user (this w) = Some u ->
  csr_user csr <> _id u ->
  createSession_then lib env fuel mail pass key accessKey csr w = (r, w') ->
  onlyLog w w'
  /\ (forall res, r <> Normal (Fulfilled res))
  /\ (csr_challenges csr = [] ->
      r = Normal (Rejected (Error
            "different user is tried to login in existing other user's session"))).
Proof.
  intros Hu Hne H. unfold createSession_then in H.
  apply bind_inv in H as [(e & E & ->) | (p & w1 & E & H)].
  - destruct (0 <? length (csr_challenges csr))%nat eqn:Hch; [|done].
    apply notify_and_wait_run in E
      as [(e' & _ & _ & ->) | (listId & elementId & _ & _ & E)].
    + split; [done|]. split; [done|]. intros Hnil. by rewrite Hnil in Hch.
    + apply wait_run in E as (_ & n & last & _ & _ & Hlast).
      destruct last as [[|]|?|]; [destruct Hlast as [Hlast _]|..]; done.
  - assert (onlyLog w w1
            /\ (csr_challenges csr = [] -> p = Fulfilled tt)) as [Hw Hp].
    { destruct (0 <? length (csr_challenges csr))%nat eqn:Hch.
      - apply notify_and_wait_run in E
          as [(e' & _ & [=] & _) | (listId & elementId & _ & _ & E)].
        apply wait_run in E as (Hw & _).
        split; [|intros Hnil; by rewrite Hnil in Hch].
        destruct Hw as (?&?&?&?). unfold onlyLog. simpl in *. by repeat split.
      - injection E as <- <-. by split. }
    assert (Hrefuse :
      then_ (Fulfilled tt)
        (fun _ =>
           p <- _initSession lib env (csr_user csr) (csr_accessToken csr)
                  key;;
           then_ p (fun _ => sessionReturn lib accessKey mail pass)) w1
      = (Normal (Rejected (Error
           "different user is tried to login in existing other user's session")),
         w1)).
    { simpl. unfold bind.
      rewrite (initSession_refuses lib env _ _ _ w1 u); [done| |done].
      destruct Hw as [-> _]. done. }
    destruct p as [[]|e|].
    + rewrite Hrefuse in H. injection H as <- <-.
      split; [exact Hw|]. by split.
    + injection H as <- <-. split; [done|]. split; [done|].
      intros Hnil. by specialize (Hp Hnil).
    + injection H as <- <-. split; [done|]. split; [done|].
      intros Hnil. by specialize (Hp Hnil).
Qed.

End OtherUser.

(** X24.  When a user is logged in and the session service answers
    [createSession] with another user, the promise is not fulfilled and
    the session that exists stays as it is, with its user, access token,
    keys and event stream, except for one field: the flag for a
    persistent session has been overwritten with [returnCredentials].
    Without a second factor to wait for, the promise is rejected with the
    error of [_initSession]. *)
Theorem createSession_as_other_user
    lib env fuel mail pass cid rc w u r w' new data csr :
  _user (this w) = Some u ->
  createSession lib env fuel mail pass cid rc w = (r, w') ->
  log w' = new ++ log w ->
  In (EvSessionService data (Fulfilled csr)) new ->
  csr_user csr <> _id u ->
  this w' = set_persistentSession rc (this w)
  /\ state_user w' = state_user w
  /\ connected w' = connected w
  /\ clients w' = clients w
  /\ (exists p, r = Normal p /\ forall res, p <> Fulfilled res)
  /\ (csr_challenges csr = [] ->
      r = Normal (Rejected (Error
            "different user is tried to login in existing other user's session"))).
Proof.
  intros Hu H Hnew Hin Hne.
  apply createSession_inv in H
    as [(q & _ & _ & Hl)
       | (key & ak & data0 & a & w3 & Hthis & Hsu & Hconn & Hcl & Hl & H)].
  { rewrite Hl in Hnew. change (?x :: ?l) with ([x] ++ l) in Hnew.
    apply app_inv_tail in Hnew as <-. by destruct Hin as [[=]|[]]. }
  assert (Hlater : exists l, log w' = l ++ log w3
                             /\ Forall notSessionService l).
  { destruct a as [csr0|e|].
    - destruct H as (r' & E & _).
      pose proof (logsOnly_createSession_then lib env fuel mail pass key ak
                    csr0 w3) as F.
      by rewrite E in F.
    - destruct H as [-> _]. by exists [].
    - destruct H as [-> _]. by exists []. }
  destruct Hlater as (l & Hl' & Fl).
  rewrite Hl', Hl in Hnew.
  assert (new = l ++ EvSessionService data0 a
                  :: (if rc then [EvAes128RandomKey] else [])
                  ++ [EvSaltService (trim lib (toLowerCase lib mail))])
    as ->.
  { apply (app_inv_tail (log w)). rewrite <- Hnew.
    rewrite <- !app_assoc. simpl. by rewrite <- app_assoc. }
  apply in_app_or in Hin as [Hin | [Hin | Hin]].
  - rewrite Forall_forall in Fl. apply list_elem_of_In, Fl in Hin.
    destruct Hin.
  - injection Hin as -> ->. destruct H as (r' & E & ->).
    apply createSession_then_refused with (u := u) in E
      as ((Hthis' & Hsu' & Hconn' & Hcl') & Hnot & Hnil);
      [| by rewrite Hthis | done].
    rewrite Hthis', Hsu', Hconn', Hcl'.
    do 4 (split; [done|]). split.
    + destruct r' as [p|e]; eexists; (split; [reflexivity|]);
        [|done]. intros res ->. by destruct (Hnot res).
    + intros Hch. by rewrite (Hnil Hch).
  - destruct rc; simpl in Hin; by repeat destruct Hin as [[=]|Hin].
Qed.

(** Alice is logged in with a persistent session; somebody else logs in
    without asking for credentials. *)
Lemma createSession_as_other_user_witness :
  let env := Sample.server None Sample.noFailure (fun _ => Sample.alice)
               "user2" Sample.token [] 0 in
  let w := snd (createSession Sample.lib Sample.friendly 0 "a@b.c" "p"
                  "client" true newWorld) in
  let run := createSession Sample.lib env 0 "x@y.z" "p" "client" false w in
  _persistentSession (this w) = true
  /\ _persistentSession (this (snd run)) = false
  /\ _user (this (snd run)) = Some Sample.alice
  /\ this (snd run) = set_persistentSession false (this w)
  /\ state_user (snd run) = state_user w
  /\ connected (snd run) = connected w
  /\ clients (snd run) = clients w
  /\ (exists p, fst run = Normal p /\ forall res, p <> Fulfilled res)
  /\ (@nil string = [] ->
      fst run
      = Normal (Rejected (Error
          "different user is tried to login in existing other user's session"))).
Proof.
  intros env w run.
  pose (new := firstn (length (log (snd run)) - length (log w))
                 (log (snd run))).
  split; [vm_compute; reflexivity|].
  split; [vm_compute; reflexivity|].
  split; [vm_compute; reflexivity|].
  apply (createSession_as_other_user Sample.lib env 0 "x@y.z" "p" "client"
           false w Sample.alice (fst run) (snd run) new
           {| sd_mailAddress := Some "x@y.z"; sd_user := None;
              sd_authToken := None; sd_clientIdentifier := "client";
              sd_authVerifier := "DA"; sd_accessKey := None |}
           {| csr_user := "user2"; csr_accessToken := Sample.token;
              csr_challenges := [] |}).
  - vm_compute. reflexivity.
  - apply surjective_pairing.
  - vm_compute. reflexivity.
  - vm_compute. tauto.
  - discriminate.
Defined.

(** ** The entropy, stored and loaded *)

(** X25.  What [storeEntropy] sends is 32 bytes from the random generator,
    encrypted with the key of the user group.  When the server serves
    these properties again to the same user with the same key of the user
    group, and the cipher gives back what it encrypted, [loadEntropy] adds
    exactly those 32 bytes to the random generator. *)
Theorem entropy_round_trip lib env w u new props :
  _user (this w) = Some u ->
  log (snd (storeEntropy lib env w)) = new ++ log w ->
  In (EvUpdateTutanotaProperties props) new ->
  let key := property lib (groupKeys (this w)) (group (userGroup u)) in
  exists data enc,
    data = random_generateRandomData env
             (EvLoadRootTutanotaProperties (group (userGroup u)) :: log w)
             32%nat
    /\ encryptBytes lib key data = Normal enc
    /\ props = {| groupEncEntropy := Some enc |}
    /\ forall w2,
         _user (this w2) = Some u ->
         property lib (groupKeys (this w2)) (group (userGroup u)) = key ->
         loadRoot_TutanotaProperties env (log w2) (group (userGroup u))
         = Fulfilled props ->
         aes128Decrypt lib key enc = Normal data ->
         exists w3,
           loadEntropy lib env w2 = (Normal (Fulfilled tt), w3)
           /\ log w3 = EvAddStaticEntropy data
                         :: EvLoadRootTutanotaProperties
                              (group (userGroup u))
                         :: log w2.
Proof.
  intros Hu Hnew Hin key.
  revert Hnew.
  unfold storeEntropy, getUserGroupKey, getUserGroupId, getLoggedInUser,
    bind, then_, call, lift, get_this, deref, ret.
  rewrite Hu. simpl.
  destruct (loadRoot_TutanotaProperties env (log w) (group (userGroup u)))
    as [p|e|]; simpl; rewrite ?Hu; simpl.
  2,3: intros Hnew; new_events Hnew; subst new;
       by repeat destruct Hin as [[=]|Hin].
  fold key.
  destruct (encryptBytes lib key _) as [enc|e] eqn:Henc; simpl;
    intros Hnew; new_events Hnew; subst new.
  2: by repeat destruct Hin as [[=]|Hin].
  destruct Hin as [[= <-]|Hin]; [|by repeat destruct Hin as [[=]|Hin]].
  eexists _, enc. split; [reflexivity|]. split; [exact Henc|].
  split; [done|].
  intros w2 Hu2 Hkey Hload Hdec.
  unfold loadEntropy, getUserGroupKey, getUserGroupId, getLoggedInUser,
    bind, then_, try_catch, call, emit, lift, get_this, deref, ret.
  rewrite Hu2. simpl. rewrite Hload. simpl. rewrite Hu2. simpl.
  rewrite Hkey, Hdec. simpl. by eexists.
Qed.

(** Alice's entropy is stored and served again. *)
Lemma entropy_round_trip_witness :
  let lib := Sample.lib in
  let env := SampleEntities.remembering in
  let w := snd (createSession lib env 0 "a@b.c" "p" "client" false
                  newWorld) in
  let w2 := snd (storeEntropy lib env w) in
  let key :=
    property Sample.lib (groupKeys (this w))
      (group (userGroup Sample.alice)) in
  exists data enc,
    data = repeat x2a 32
    /\ (exists w3,
          loadEntropy lib env w2 = (Normal (Fulfilled tt), w3)
          /\ log w3 = EvAddStaticEntropy data
                        :: EvLoadRootTutanotaProperties
                             (group (userGroup Sample.alice))
                        :: log w2)
    /\ encryptBytes lib key data = Normal enc.
Proof.
  intros lib env w w2 key.
  pose (new := firstn (length (log w2) - length (log w)) (log w2)).
  destruct (entropy_round_trip lib env w Sample.alice new
              {| groupEncEntropy := Some (x07 :: repeat x2a 32) |})
    as (data & enc & Hdata & Henc & Hprops & Hload).
  - vm_compute. reflexivity.
  - vm_compute. reflexivity.
  - vm_compute. tauto.
  - exists data, enc. split; [rewrite Hdata; vm_compute; reflexivity|].
    split; [|exact Henc].
    injection Hprops as <-.
    apply Hload.
    + vm_compute. reflexivity.
    + vm_compute. reflexivity.
    + vm_compute. reflexivity.
    + rewrite Hdata. vm_compute. reflexivity.
Defined.

(** ** The event stream *)

#[global] Instance keepsStream_preorder : PreOrder keepsStream.
Proof. split; unfold keepsStream; [by intros w | intros w1 w2 w3; auto]. Qed.

Lemma onlyLog_keepsStream w w' : onlyLog w w' -> keepsStream w w'.
Proof.
  intros (Hthis & _ & Hconn & Hcl) [H1 H2].
  split; intros c; rewrite ?Hthis, ?Hconn, ?Hcl; auto.
Qed.

(** The invariant reads the facade, the connected clients and the count of
    clients only. *)
Lemma keepsStream_same w w' :
  this w' = this w -> connected w' = connected w -> clients w' = clients w ->
  keepsStream w w'.
Proof.
  intros Hthis Hconn Hcl [H1 H2].
  split; intros c; rewrite ?Hthis, ?Hconn, ?Hcl; auto.
Qed.

Lemma keepsStream_onlyLog {A} (m : M A) :
  respects onlyLog m -> respects keepsStream m.
Proof. intros H w. apply onlyLog_keepsStream, H. Qed.

Lemma keepsStream_emit ev : respects keepsStream (emit ev).
Proof. apply keepsStream_onlyLog, onlyLog_emit. Qed.

Lemma keepsStream_call {A} ev (answer : list Event -> A) :
  respects keepsStream (call ev answer).
Proof. apply keepsStream_onlyLog, onlyLog_call. Qed.

Lemma keepsStream_call_recorded {A} (ev : A -> Event) answer :
  respects keepsStream (call_recorded ev answer).
Proof. apply keepsStream_onlyLog, onlyLog_call_recorded. Qed.

Lemma keepsStream_peek {A} (f : World -> A) :
  respects keepsStream (fun w => (Normal (f w), w)).
Proof. intros w. simpl. reflexivity. Qed.

Lemma keepsStream_set_state_user u : respects keepsStream (set_state_user u).
Proof. intros w. by apply keepsStream_same. Qed.

(** An update that keeps the event bus client and does not log the user
    out. *)
Lemma keepsStream_update_this f :
  (forall x, _eventBusClient (f x) = _eventBusClient x) ->
  (forall x, _user (f x) = None -> _user x = None) ->
  respects keepsStream (update_this f).
Proof.
  intros Hc Hu w [H1 H2]. split; simpl; intros c; rewrite Hc; [|auto].
  intros Hin. destruct (H1 c Hin) as [? Hne]. split; [done|].
  intros Hnone. by apply Hne, Hu.
Qed.

Lemma keepsStream_close c : respects keepsStream (eventBusClient_close c).
Proof.
  intros w [H1 H2]. split; simpl; [|done].
  intros c' Hin. apply H1. set_solver.
Qed.

Lemma keepsStream_reset : respects keepsStream _reset.
Proof.
  intros w [H1 H2].
  destruct (reset_spec w) as (w' & E & Hthis & _ & Hcl & Hconn).
  rewrite E. simpl. split; rewrite Hthis, ?Hcl, ?Hconn; simpl.
  - intros c Hin. exfalso.
    destruct (_eventBusClient (this w)) as [c0|] eqn:Hc.
    + apply elem_of_difference in Hin as [Hin Hne].
      destruct (H1 c Hin) as [[= ->] _]. set_solver.
    + by destruct (H1 c Hin).
  - intros c [= <-]. lia.
Qed.

#[global] Hint Resolve keepsStream_emit keepsStream_call
  keepsStream_call_recorded keepsStream_peek keepsStream_set_state_user
  keepsStream_close keepsStream_reset : frame.
#[global] Hint Extern 2 (respects keepsStream (update_this _)) =>
  apply keepsStream_update_this; [intros; reflexivity | by intros []] : frame.

(** [frame], trying what is known of a call before its steps. *)
Ltac frame_calls :=
  repeat first
    [ progress intros
    | solve [auto with frame]
    | respects_step
    | match goal with
      | |- respects _ (match ?x with _ => _ end) => destruct x
      | |- respects _ (if ?b then _ else _) => destruct b
      end ].

Section Stream.

Context (lib : Imports) (env : Env).

Lemma keepsStream_sessionReturn accessKey mail pass :
  respects keepsStream (sessionReturn lib accessKey mail pass).
Proof. unfold sessionReturn, _getSessionElementId. frame. Qed.

Lemma keepsStream_wait tok fuel :
  respects keepsStream (_waitUntilSecondFactorApproved env fuel tok).
Proof. induction fuel as [|fuel IH]; simpl; frame. Qed.

Lemma keepsStream_deleteSession tok :
  respects keepsStream (deleteSession lib env tok).
Proof.
  unfold deleteSession, sessionPath, restClient_request_,
    _getSessionElementId, _getSessionListId.
  frame.
Qed.

Lemma keepsStream_initSession userId tok key :
  respects keepsStream (_initSession lib env userId tok key).
Proof.
  intros w [H1 H2].
  destruct (_initSession lib env userId tok key w) as [r w'] eqn:H.
  simpl.
  unfold _initSession, loadEntropy, _getInfoMails, getUserGroupKey,
    getUserGroupId, getLoggedInUser, isExternalUserLoggedIn, decryptKey_,
    eventBusClient_connect_, _reset, eventBusClient_close,
    new_EventBusClient, bind, then_, catch_, anyError, try_catch, get_this,
    update_this, set_state_user, emit, call, lift, deref, ret, throw in H.
  run_cases H; injection H as <- <-; (split; simpl; intros c0);
    first [ intros [= <-]; lia
          | intros Hin; set_solver
          | auto ].
Qed.

End Stream.

Section StreamCalls.

Context (lib : Imports) (env : Env) (ent : EntityImports)
        (penv : PasswordEnv).

Local Hint Resolve keepsStream_sessionReturn keepsStream_wait
  keepsStream_deleteSession keepsStream_initSession : frame.

Lemma keepsStream_createSession fuel mail pass cid rc :
  respects keepsStream (createSession lib env fuel mail pass cid rc).
Proof.
  unfold createSession, createSession_then, _loadUserPassphraseKey,
    _getSessionElementId, _getSessionListId.
  frame_calls.
Qed.

Lemma keepsStream_createExternalSession userId pass salt cid rc :
  respects keepsStream
    (createExternalSession lib env userId pass salt cid rc).
Proof. unfold createExternalSession. frame_calls. Qed.

Lemma keepsStream_resumeSession credentials externalUserSalt :
  respects keepsStream (resumeSession lib env credentials externalUserSalt).
Proof.
  unfold resumeSession, _loadSessionData, _loadUserPassphraseKey,
    sessionPath, restClient_request_, _getSessionElementId,
    _getSessionListId.
  frame_calls.
Qed.

Lemma keepsStream_logout : respects keepsStream (logout lib env).
Proof.
  unfold logout, storeEntropy, getUserGroupKey, getUserGroupId,
    getLoggedInUser.
  frame_calls.
Qed.

Lemma keepsStream_getGroupKey g : respects keepsStream (getGroupKey lib g).
Proof.
  unfold getGroupKey, _getMembership, getUserGroupId, getLoggedInUser,
    decryptKey_.
  frame_calls.
Qed.

Lemma keepsStream_entityEventReceived data :
  respects keepsStream (entityEventReceived env ent data).
Proof. unfold entityEventReceived, entityEventReceived_else. frame_calls. Qed.

Lemma keepsStream_changePassword old new :
  respects keepsStream (changePassword lib ent penv old new).
Proof.
  unfold changePassword, getUserGroupKey, getUserGroupId, getLoggedInUser.
  frame_calls.
Qed.

Lemma keepsStream_hotReplace w :
  keepsStream w (snd (moduleLoad env (Some (this w)) w)).
Proof.
  intros [H1 H2].
  unfold moduleLoad, _reset, isLoggedIn, eventBusClient_connect_,
    eventBusClient_close, new_EventBusClient, bind, get_this, update_this,
    deref, ret, throw.
  simpl.
  destruct (_eventBusClient (this w)) as [c|] eqn:Hc; simpl.
  - assert (Hsub : forall x, x ∈ connected w -> x = c).
    { intros x Hx. by destruct (H1 x Hx) as [[= ->] _]. }
    destruct (_user (this w)) as [u|] eqn:Hu; simpl;
      [destruct (eventBusClient_connect env _ _); simpl|];
      (split; simpl; intros c'; rewrite ?Hu;
       [intros Hin;
        first [exfalso; set_solver | split; [f_equal; set_solver|done]]
       |intros [= <-]; lia]).
  - split; simpl; intros c'; rewrite ?Hc; [|done].
    intros Hin. by destruct (H1 c' Hin).
Qed.

End StreamCalls.

(** X18.  Whatever calls are made on the facade after the module is loaded, one
    after the other, no event bus client but the one the facade holds is
    connected, and none while no user is logged in; the client the facade
    holds is one of the clients created.  ([connected] tells whether a
    client has been connected since it was last closed, not how often: a
    login of the user who is logged in connects the client again without
    closing it.) *)
Theorem stream_invariant lib env ent penv fuel calls :
  streamOk (performAll lib env ent penv fuel calls newWorld).
Proof.
  assert (Hnew : streamOk newWorld).
  { apply (keepsStream_reset emptyWorld). split; [set_solver|done]. }
  revert Hnew. generalize newWorld.
  unfold performAll.
  induction calls as [|call calls IH]; intros w Hw; simpl; [done|].
  apply IH. destruct call; simpl.
  - by apply keepsStream_createSession.
  - by apply keepsStream_createExternalSession.
  - by apply keepsStream_resumeSession.
  - by apply keepsStream_logout.
  - by apply keepsStream_deleteSession.
  - by apply keepsStream_getGroupKey.
  - by apply keepsStream_entityEventReceived.
  - by apply keepsStream_changePassword.
  - by apply keepsStream_hotReplace.
Qed.

(** * The navigation bar *)

(** ** [addButton] *)

Lemma increment_next n : n < 2 ^ 53 -> Nav.increment n = n + 1.
Proof.
  intros Hn. unfold Nav.increment.
  by destruct (Z.ltb_spec n (2 ^ 53)); [|lia].
Qed.

(** X19.  A bar as the constructor leaves it is well formed, and [addButton]
    keeps it so as long as fewer than [2 ^ 53] ids were given out.
    [addButton] throws exactly when the priority is above [MAX_PRIO], and
    then nothing was added and no id was used.  Otherwise the button is
    appended to the list that [moreOnly] selects, with the next id, the
    priority given (or 0) and the width 0; the other list, the "more"
    button and the width of the bar are as before.  At [2 ^ 53] the count
    stops: [buttonId] stays, and the next button is given the same id
    again. *)
Theorem addButton_keeps_well_formed b priority moreOnly bar :
  let p := match priority with Some p => p | None => 0 end in
  let wrapper := {| Nav.id := Nav.buttonId bar; Nav.priority := p;
                    Nav.button := b; Nav.width := 0%float |} in
  (forall moreButton button_height,
     Nav.wellFormed (Nav.new_NavBar moreButton button_height))
  /\ (Nav.wellFormed bar ->
      Nav.buttonId bar < 2 ^ 53 ->
      match Nav.addButton b priority moreOnly bar with
     | Throw e => e = Error "prio > 100" /\ Nav.MAX_PRIO < p
     | Normal bar' =>
         p <= Nav.MAX_PRIO
         /\ Nav.wellFormed bar'
         /\ Nav.buttonId bar' = Nav.buttonId bar + 1
         /\ Nav.more bar' = Nav.more bar
         /\ Nav.maxWidth bar' = Nav.maxWidth bar
         /\ if match moreOnly with Some m => m | None => false end
            then Nav.moreButtons bar' = Nav.moreButtons bar ++ [wrapper]
                 /\ Nav.buttons bar' = Nav.buttons bar
            else Nav.buttons bar' = Nav.buttons bar ++ [wrapper]
                 /\ Nav.moreButtons bar' = Nav.moreButtons bar
      end)
  /\ (Nav.buttonId bar = 2 ^ 53 ->
      forall bar',
        Nav.addButton b priority moreOnly bar = Normal bar' ->
        Nav.buttonId bar' = 2 ^ 53
        /\ In wrapper (Nav.buttons bar' ++ Nav.moreButtons bar')
        /\ forall b2 priority2 moreOnly2 bar'',
             Nav.addButton b2 priority2 moreOnly2 bar' = Normal bar'' ->
             ~ NoDup (map Nav.id
                        (Nav.buttons bar'' ++ Nav.moreButtons bar''))).
Proof.
  intros p wrapper. split; [|split].
  { intros moreButton button_height. unfold Nav.wellFormed. simpl.
    repeat split; try constructor; done. }
  2: { intros Hfull bar' H. unfold Nav.addButton in H. fold p in H.
       destruct (p >? Nav.MAX_PRIO); [done|]. fold wrapper in H.
       assert (Hstay : Nav.increment (Nav.buttonId bar) = Nav.buttonId bar)
         by (rewrite Hfull; by vm_compute).
       rewrite Hstay in H.
       split; [|split].
       - destruct moreOnly as [[|]|]; by injection H as <-.
       - destruct moreOnly as [[|]|]; injection H as <-; simpl;
           rewrite <- list_elem_of_In; set_solver.
       - intros b2 priority2 moreOnly2 bar'' H2 Hnd.
         unfold Nav.addButton in H2.
         destruct (_ >? Nav.MAX_PRIO); [done|].
         destruct moreOnly as [[|]|], moreOnly2 as [[|]|];
           injection H as <-; injection H2 as <-; simpl in Hnd;
           rewrite ?map_app in Hnd; simpl in Hnd;
           repeat (rewrite ?NoDup_app, ?NoDup_cons in Hnd);
           set_solver. }
  intros (Hb & Hm & Hnd & Hall & [Hmin Hmax] & Hid & Hprio) Hnext.
  unfold Nav.addButton. fold p.
  destruct (Z.gtb_spec p Nav.MAX_PRIO) as [Hp|Hp]; [done|].
  fold wrapper. rewrite (increment_next _ Hnext).
  assert (Hids : 2 ^ 53 < Nav.Number_MAX_VALUE) by (by vm_compute).
  assert (Hfresh : forall l,
    Forall (fun b => 0 <= Nav.id b < Nav.buttonId bar
                     /\ Nav.priority b <= Nav.MAX_PRIO) l ->
    Forall (fun x => x < Nav.buttonId bar) (map Nav.id l)).
  { intros l Hl. apply Forall_map. eapply Forall_impl; [exact Hl|].
    simpl. intros x ?. lia. }
  apply Forall_app in Hall as [Hall1 Hall2].
  assert (Hsorted : forall l,
    StronglySorted Z.lt (map Nav.id l) ->
    Forall (fun x => x < Nav.buttonId bar) (map Nav.id l) ->
    StronglySorted Z.lt (map Nav.id (l ++ [wrapper]))).
  { intros l Hs Hl. rewrite map_app. simpl.
    induction (map Nav.id l) as [|x xs IH]; simpl.
    - repeat constructor.
    - apply StronglySorted_inv in Hs as [Hs Hx].
      apply Forall_cons in Hl as [Hxb Hl].
      constructor; [by apply IH|].
      apply Forall_app. split; [done|]. by repeat constructor. }
  assert (Hbound : forall l,
    Forall (fun b => 0 <= Nav.id b < Nav.buttonId bar
                     /\ Nav.priority b <= Nav.MAX_PRIO) l ->
    Forall (fun b => 0 <= Nav.id b < Nav.buttonId bar + 1
                     /\ Nav.priority b <= Nav.MAX_PRIO) l).
  { intros l Hl. eapply Forall_impl; [exact Hl|]. simpl. intros x ?. lia. }
  assert (Hw : 0 <= Nav.id wrapper < Nav.buttonId bar + 1
               /\ Nav.priority wrapper <= Nav.MAX_PRIO)
    by (simpl; lia).
  assert (Hnew : Nav.buttonId bar ∉ map Nav.id
                   (Nav.buttons bar ++ Nav.moreButtons bar)).
  { intros Hin. rewrite map_app in Hin.
    apply elem_of_app in Hin as [Hin|Hin].
    - apply Hfresh in Hall1. rewrite Forall_forall in Hall1.
      apply Hall1 in Hin. lia.
    - apply Hfresh in Hall2. rewrite Forall_forall in Hall2.
      apply Hall2 in Hin. lia. }
  split; [done|].
  destruct moreOnly as [[|]|]; simpl.
  - split; [|by repeat split].
    unfold Nav.wellFormed. simpl.
    split; [done|]. split; [by apply Hsorted, Hfresh|].
    split.
    { rewrite app_assoc, map_app. simpl. apply NoDup_app.
      split; [done|]. split; [|by apply NoDup_singleton].
      intros x Hx ->%list_elem_of_singleton. done. }
    split; [|lia].
    rewrite app_assoc. apply Forall_app. split; [|by apply Forall_singleton].
    apply Forall_app. split; by apply Hbound.
  - split; [|by repeat split].
    unfold Nav.wellFormed. simpl.
    split; [by apply Hsorted, Hfresh|]. split; [done|].
    split.
    { rewrite !map_app in *. simpl.
      apply NoDup_app in Hnd as (Hnd1 & Hdisj & Hnd2).
      apply NoDup_app. split; [|split; [|done]].
      - apply NoDup_app. split; [done|]. split; [|by apply NoDup_singleton].
        intros x Hx ->%list_elem_of_singleton. apply Hnew. set_solver.
      - intros x [Hx| ->%list_elem_of_singleton]%elem_of_app Hx'.
        + by apply (Hdisj x).
        + apply Hnew. set_solver. }
    split; [|lia].
    rewrite <- app_assoc. simpl. apply Forall_app. split; [by apply Hbound|].
    constructor; [done|]. by apply Hbound.
  - split; [|by repeat split].
    unfold Nav.wellFormed. simpl.
    split; [by apply Hsorted, Hfresh|]. split; [done|].
    split.
    { rewrite !map_app in *. simpl.
      apply NoDup_app in Hnd as (Hnd1 & Hdisj & Hnd2).
      apply NoDup_app. split; [|split; [|done]].
      - apply NoDup_app. split; [done|]. split; [|by apply NoDup_singleton].
        intros x Hx ->%list_elem_of_singleton. apply Hnew. set_solver.
      - intros x [Hx| ->%list_elem_of_singleton]%elem_of_app Hx'.
        + by apply (Hdisj x).
        + apply Hnew. set_solver. }
    split; [|lia].
    rewrite <- app_assoc. simpl. apply Forall_app. split; [by apply Hbound|].
    constructor; [done|]. by apply Hbound.
Qed.

(** A second button is added, for the drop-down only. *)
Lemma addButton_keeps_well_formed_witness :
  let bar := {| Nav.buttonId := 1;
                Nav.buttons := [ {| Nav.id := 0; Nav.priority := 10;
                                    Nav.button := 1;
                                    Nav.width := 60.5%float |} ];
                Nav.moreButtons := [];
                Nav.more := Nav.more (Nav.new_NavBar 0 44%float);
                Nav.maxWidth := 150%float |} in
  let wrapper := {| Nav.id := 1; Nav.priority := 0; Nav.button := 2;
                    Nav.width := 0%float |} in
  Nav.wellFormed bar
  /\ match Nav.addButton 2 None (Some true) bar with
     | Throw e => e = Error "prio > 100" /\ Nav.MAX_PRIO < 0
     | Normal bar' =>
         0 <= Nav.MAX_PRIO
         /\ Nav.wellFormed bar'
         /\ Nav.buttonId bar' = Nav.buttonId bar + 1
         /\ Nav.more bar' = Nav.more bar
         /\ Nav.maxWidth bar' = Nav.maxWidth bar
         /\ Nav.moreButtons bar' = Nav.moreButtons bar ++ [wrapper]
         /\ Nav.buttons bar' = Nav.buttons bar
     end.
Proof.
  intros bar wrapper.
  assert (Hbar : Nav.wellFormed bar).
  { unfold Nav.wellFormed. simpl.
    repeat split; repeat constructor; try done; set_solver. }
  split; [exact Hbar|].
  apply (proj1 (proj2 (addButton_keeps_well_formed 2 None (Some true) bar))
           Hbar).
  reflexivity.
Defined.

(** ** Doubles: the sign of a difference *)



















(** ** The loop *)

(** The loop moves a prefix: the first button it moved, if any, passed the
    test against the whole space, and the button it stopped at did not
    pass the test against what was left. *)
Lemma moveWhileFits_spec visible : forall remainingSpace moved m rest,
  Nav.moveWhileFits remainingSpace visible moved = Normal (m, rest) ->
  exists taken,
    m = moved ++ taken
    /\ visible = taken ++ rest
    /\ rest <> []
    /\ match taken with
       | [] =>
           exists b rest',
             rest = b :: rest'
             /\ (0 <=? remainingSpace - Nav.width b)%float = false
       | t :: _ => (0 <=? remainingSpace - Nav.width t)%float = true
       end.
Proof.
  induction visible as [|b visible IH]; intros r moved m rest H; [done|].
  simpl in H. destruct (0 <=? r - Nav.width b)%float eqn:Hfit.
  - apply IH in H as (taken & -> & -> & Hrest & _).
    exists (b :: taken). rewrite <- app_assoc. by repeat split.
  - injection H as <- <-. exists []. rewrite app_nil_r.
    repeat split; [done|]. by exists b, visible.
Qed.

(** The loop fails in one way only: by reading past the last button. *)
Lemma moveWhileFits_throws visible : forall remainingSpace moved e,
  Nav.moveWhileFits remainingSpace visible moved = Throw e ->
  e = TypeError "visible[0] is undefined"
  /\ match visible with
     | [] => True
     | b :: _ => (0 <=? remainingSpace - Nav.width b)%float = true
     end.
Proof.
  induction visible as [|b visible IH]; intros r moved e H; simpl in H.
  - by injection H as <-.
  - destruct (0 <=? r - Nav.width b)%float; [|done].
    by apply IH in H as [-> _].
Qed.

(** ** The stable sort *)

Lemma insert_perm compare x l : Nav.insert compare x l ≡ₚ x :: l.
Proof.
  induction l as [|y l IH]; simpl; [done|].
  destruct (compare x y <=? 0); [done|].
  rewrite IH. apply Permutation_swap.
Qed.

Lemma stableSort_perm compare l : Nav.stableSort compare l ≡ₚ l.
Proof.
  induction l as [|x l IH]; simpl; [done|].
  by rewrite insert_perm, IH.
Qed.

Lemma insert_sorted compare (key : Nav.ButtonWrapper -> Z) x l :
  (forall a b, compare a b = key a - key b) ->
  StronglySorted (fun a b => key a <= key b) l ->
  StronglySorted (fun a b => key a <= key b) (Nav.insert compare x l).
Proof.
  intros Hc. induction 1 as [|y l Hs IH Hy]; simpl.
  - repeat constructor.
  - destruct (Z.leb_spec (compare x y) 0) as [Hle|Hgt].
    + rewrite Hc in Hle. constructor; [by constructor|].
      constructor; [lia|].
      eapply Forall_impl; [exact Hy|]. simpl. intros z ?. lia.
    + rewrite Hc in Hgt. constructor; [done|].
      rewrite insert_perm. constructor; [lia|done].
Qed.

Lemma stableSort_sorted compare (key : Nav.ButtonWrapper -> Z) l :
  (forall a b, compare a b = key a - key b) ->
  StronglySorted (fun a b => key a <= key b) (Nav.stableSort compare l).
Proof.
  intros Hc. induction l as [|x l IH]; simpl; [constructor|].
  by apply insert_sorted.
Qed.

(** ** Sorted lists *)


Lemma StronglySorted_filter_ids (f : Nav.ButtonWrapper -> bool) l :
  StronglySorted Z.lt (map Nav.id l) ->
  StronglySorted Z.lt (map Nav.id (List.filter f l)).
Proof.
  induction l as [|b l IH]; simpl; [done|].
  intros [Hs Hb]%StronglySorted_inv.
  destruct (f b); simpl; [|by apply IH].
  constructor; [by apply IH|].
  rewrite Forall_forall in Hb. rewrite Forall_forall. intros x Hx. apply Hb.
  apply list_elem_of_In, in_map_iff in Hx as (y & <- & Hy).
  apply filter_In in Hy as [Hy _].
  apply list_elem_of_In, in_map. done.
Qed.

Lemma StronglySorted_strict (l : list Nav.ButtonWrapper) :
  StronglySorted (fun a b => Nav.id a <= Nav.id b) l ->
  NoDup (map Nav.id l) ->
  StronglySorted Z.lt (map Nav.id l).
Proof.
  induction 1 as [|b l Hs IH Hb]; simpl; [constructor|].
  intros [Hnotin Hnd]%NoDup_cons. constructor; [by apply IH|].
  rewrite Forall_forall in Hb. rewrite Forall_forall. intros x Hx.
  assert (x <> Nav.id b) by (by intros ->).
  apply list_elem_of_In, in_map_iff in Hx as (y & <- & Hy).
  apply list_elem_of_In, Hb in Hy. lia.
Qed.

Lemma NoDup_ids_filter (f : Nav.ButtonWrapper -> bool) l1 l2 :
  NoDup (map Nav.id (l1 ++ l2)) ->
  NoDup (map Nav.id (List.filter f l1 ++ List.filter f l2)).
Proof.
  assert (Hsub : forall l, List.filter f l `sublist_of` l).
  { induction l as [|b l IH]; simpl; [constructor|].
    destruct (f b); by constructor. }
  intros Hnd. eapply sublist_NoDup; [exact Hnd|].
  change (map Nav.id ?l) with (Nav.id <$> l).
  apply fmap_sublist, sublist_app; apply Hsub.
Qed.

(** ** [getVisibleButtons] *)

Section GetVisibleButtons.

Context (isVisible : nat -> bool)
        (sort : (Nav.ButtonWrapper -> Nav.ButtonWrapper -> Z) ->
                list Nav.ButtonWrapper -> list Nav.ButtonWrapper).

(** What every engine's [sort] does. *)
Hypothesis sort_permutation : forall compare l, sort compare l ≡ₚ l.

Local Abbreviation shown l :=
  (List.filter (fun b => isVisible (Nav.button b)) l).

(** The two cases of [getVisibleButtons]. *)
Lemma getVisibleButtons_run bar r :
  Nav.getVisibleButtons isVisible sort bar = r ->
  ((Nav.maxWidth bar <? Nav.getButtonsWidth (shown (Nav.buttons bar)))%float
   = false
   /\ exists colors,
       r = Normal ({| Nav.visible := shown (Nav.buttons bar);
                      Nav.hidden := shown (Nav.moreButtons bar) |}, colors))
  \/ ((Nav.maxWidth bar
       <? Nav.getButtonsWidth (shown (Nav.buttons bar)))%float = true
      /\ let sorted := sort (fun a b => Nav.priority b - Nav.priority a)
                         (shown (Nav.buttons bar)) in
         match Nav.moveWhileFits (Nav.maxWidth bar)
                 (Nav.more bar :: sorted) [] with
         | Normal (moved, rest) =>
             exists colors,
               r = Normal
                     ({| Nav.visible
                           := sort (fun a b => Nav.id a - Nav.id b) moved;
                         Nav.hidden
                           := sort (fun a b => Nav.id a - Nav.id b)
                                (shown (Nav.moreButtons bar) ++ rest) |},
                      colors)
         | Throw e => r = Throw e
         end).
Proof.
  intros <-. unfold Nav.getVisibleButtons.
  destruct (Nav.maxWidth bar
            <? Nav.getButtonsWidth (shown (Nav.buttons bar)))%float.
  - right. split; [done|]. cbv zeta.
    destruct (Nav.moveWhileFits _ _ _) as [[moved rest]|e]; [|done].
    by eexists.
  - left. split; [done|]. by eexists.
Qed.

(** X20.  [getVisibleButtons] loses no button.  When it returns, the two lists
    together hold the buttons whose [isVisible()] says yes, each once, and
    the "more" button with them exactly when the widths of those of the
    bar itself add up to more than [maxWidth]; a button added for the
    drop-down only is never among the visible ones; and [setColors] is
    called once for every button returned, first with [Content] for the
    hidden ones, then with [Header] for the others.  It returns unless
    the loop runs out of buttons: then the buttons of the bar did not fit
    although the "more" button passed the test of the loop, and what is
    thrown is the [TypeError] of reading the width of [visible[0]].  The
    widths are doubles: that happens when the rounded sum of the widths is
    above [maxWidth] while every rounded difference in the loop is at
    least 0. *)
Theorem getVisibleButtons_loses_no_button bar :
  match Nav.getVisibleButtons isVisible sort bar with
  | Normal (result, colors) =>
      Nav.visible result ++ Nav.hidden result
      ≡ₚ (if (Nav.maxWidth bar
              <? Nav.getButtonsWidth (shown (Nav.buttons bar)))%float
          then [Nav.more bar] else [])
         ++ shown (Nav.buttons bar) ++ shown (Nav.moreButtons bar)
      /\ (forall b, In b (Nav.visible result) ->
                    In b (Nav.more bar :: shown (Nav.buttons bar)))
      /\ colors
         = map (fun b => (Nav.button b, Nav.Content)) (Nav.hidden result)
           ++ map (fun b => (Nav.button b, Nav.Header)) (Nav.visible result)
  | Throw e =>
      e = TypeError "visible[0] is undefined"
      /\ (Nav.maxWidth bar
          <? Nav.getButtonsWidth (shown (Nav.buttons bar)))%float = true
      /\ (0 <=? Nav.maxWidth bar - Nav.width (Nav.more bar))%float = true
  end.
Proof.
  unfold Nav.getVisibleButtons.
  destruct (Nav.maxWidth bar
            <? Nav.getButtonsWidth (shown (Nav.buttons bar)))%float eqn:Hlt.
  2: { simpl. split; [done|]. split; [auto|done]. }
  cbv zeta.
  set (sorted := sort _ (shown (Nav.buttons bar))).
  assert (Hsorted : sorted ≡ₚ shown (Nav.buttons bar))
    by apply sort_permutation.
  destruct (Nav.moveWhileFits _ _ _) as [[moved rest]|e] eqn:Hrun.
  2: { by apply moveWhileFits_throws in Hrun as [-> Hmore]. }
  apply moveWhileFits_spec in Hrun as (taken & -> & Hsplit & _).
  simpl in Hsplit |- *.
  split; [|split; [|done]].
  - rewrite !sort_permutation.
    change (Nav.more bar :: ?l) with ([Nav.more bar] ++ l).
    rewrite <- Hsorted.
    change ([Nav.more bar] ++ sorted ++ ?l)
      with ((Nav.more bar :: sorted) ++ l).
    rewrite Hsplit. rewrite <- app_assoc. f_equiv. apply Permutation_app_comm.
  - intros b Hb.
    apply list_elem_of_In in Hb. rewrite sort_permutation in Hb.
    assert (b ∈ Nav.more bar :: sorted) as Hin
      by (rewrite Hsplit; set_solver).
    rewrite Hsorted in Hin. apply list_elem_of_In in Hin. exact Hin.
Qed.

Hypothesis sort_sorted :
  forall compare (key : Nav.ButtonWrapper -> Z) l,
    (forall a b, compare a b = key a - key b) ->
    StronglySorted (fun a b => key a <= key b) (sort compare l).


(** X23.  On a well-formed bar both lists come in the order of the ids, which is
    the order in which the buttons were added, whether the buttons fit or
    not.  The "more" button, whose id is above all others, comes last in
    its list. *)
Theorem getVisibleButtons_in_order bar result colors :
  Nav.wellFormed bar ->
  Nav.getVisibleButtons isVisible sort bar = Normal (result, colors) ->
  StronglySorted Z.lt (map Nav.id (Nav.visible result))
  /\ StronglySorted Z.lt (map Nav.id (Nav.hidden result)).
Proof.
  intros (Hb & Hm & Hnd & Hall & [_ Hmax] & Hid & _) H.
  apply getVisibleButtons_run in H as [[_ (c & [= -> _])] | [_ H]].
  { simpl. split; by apply StronglySorted_filter_ids. }
  cbv zeta in H.
  set (sorted := sort _ (shown (Nav.buttons bar))) in H.
  destruct (Nav.moveWhileFits _ _ _) as [[moved rest]|e] eqn:Hrun; [|done].
  destruct H as (c & [= -> _]). simpl.
  apply moveWhileFits_spec in Hrun as (taken & -> & Hsplit & _).
  simpl in *.
  assert (Hids : NoDup (map Nav.id
                          ((taken ++ rest) ++ shown (Nav.moreButtons bar)))).
  { rewrite <- Hsplit. unfold sorted. rewrite sort_permutation. simpl.
    apply NoDup_cons. split.
    - intros Hin.
      apply list_elem_of_In, in_map_iff in Hin as (x & Hx & Hin).
      rewrite Forall_forall in Hall.
      assert (x ∈ Nav.buttons bar ++ Nav.moreButtons bar) as Hx'.
      { apply list_elem_of_In. apply in_app_or in Hin as [Hin|Hin];
          apply filter_In in Hin as [Hin _]; apply in_or_app; auto. }
      apply Hall in Hx'. lia.
    - by apply NoDup_ids_filter. }
  rewrite !map_app in Hids.
  split.
  - apply StronglySorted_strict; [by apply sort_sorted|].
    rewrite sort_permutation.
    apply NoDup_app in Hids as [Hids _]. by apply NoDup_app in Hids as [? _].
  - apply StronglySorted_strict; [by apply sort_sorted|].
    rewrite sort_permutation, map_app.
    rewrite (Permutation_app_comm _ (map Nav.id rest)).
    rewrite <- app_assoc in Hids. by apply NoDup_app in Hids as (_ & _ & ?).
Qed.

End GetVisibleButtons.

(** ** The sample bars *)

Lemma sampleBar_wellFormed : Nav.wellFormed Nav.sampleBar.
Proof.
  unfold Nav.wellFormed. simpl.
  split; [repeat constructor; lia|]. split; [repeat constructor|].
  split.
  { repeat (apply NoDup_cons; split;
            [intros Hin;
             repeat (apply elem_of_cons in Hin as [Hin|Hin]; [discriminate|]);
             by apply elem_of_nil in Hin|]).
    apply NoDup_nil. done. }
  split; [repeat constructor; unfold Nav.MAX_PRIO; simpl; lia|].
  split; [|done]. by vm_compute.
Qed.

(** The bar of three pixels: the widths add up to more than 3, every
    button passes the test of the loop, and the loop reads past the last
    one. *)
Lemma getVisibleButtons_loses_no_button_witness :
  let bar := Nav.narrowBar in
  let run := Nav.getVisibleButtons (fun _ => true) Nav.stableSort bar in
  Nav.getButtonsWidth (Nav.buttons bar) = 0x1.8000000000001p+1%float
  /\ run = Throw (TypeError "visible[0] is undefined")
  /\ match run with
     | Normal (result, colors) =>
         Nav.visible result ++ Nav.hidden result
         ≡ₚ (if (Nav.maxWidth bar
                 <? Nav.getButtonsWidth
                      (List.filter (fun b => true) (Nav.buttons bar)))%float
             then [Nav.more bar] else [])
            ++ List.filter (fun b => true) (Nav.buttons bar)
            ++ List.filter (fun b => true) (Nav.moreButtons bar)
         /\ (forall b, In b (Nav.visible result) ->
                       In b (Nav.more bar
                             :: List.filter (fun b => true)
                                  (Nav.buttons bar)))
         /\ colors
            = map (fun b => (Nav.button b, Nav.Content)) (Nav.hidden result)
              ++ map (fun b => (Nav.button b, Nav.Header))
                   (Nav.visible result)
     | Throw e =>
         e = TypeError "visible[0] is undefined"
         /\ (Nav.maxWidth bar
             <? Nav.getButtonsWidth
                  (List.filter (fun b => true) (Nav.buttons bar)))%float
            = true
         /\ (0 <=? Nav.maxWidth bar - Nav.width (Nav.more bar))%float = true
     end.
Proof.
  intros bar run.
  split; [vm_compute; reflexivity|].
  split; [vm_compute; reflexivity|].
  apply (getVisibleButtons_loses_no_button (fun _ => true) Nav.stableSort
           stableSort_perm bar).
Defined.


Lemma getVisibleButtons_in_order_witness :
  let run := Nav.getVisibleButtons (fun _ => true) Nav.stableSort
               Nav.sampleBar in
  exists result colors,
    run = Normal (result, colors)
    /\ StronglySorted Z.lt (map Nav.id (Nav.visible result))
    /\ StronglySorted Z.lt (map Nav.id (Nav.hidden result)).
Proof.
  intros run.
  destruct run as [[result colors]|e] eqn:Hrun; [|by vm_compute in Hrun].
  exists result, colors. split; [done|].
  apply (getVisibleButtons_in_order (fun _ => true) Nav.stableSort
           stableSort_perm stableSort_sorted Nav.sampleBar result colors
           sampleBar_wellFormed Hrun).
Defined.
